(** * jemez/dflow_casimir.py: raster codec, regridder and CASiMiR succession

    A shallow embedding of [jemez/dflow_casimir.py].  Python floats are
    IEEE binary64 numbers, modelled by Rocq's primitive [float]; Python
    ints are [Z]; exceptions are values of [exn]; the object that the
    succession loop updates in place is threaded as explicit state. *)

From Stdlib Require Import ZArith List String Ascii Floats Lia Bool.
From Stdlib Require Import Decimal DecimalString DecimalZ DecimalPos.
From stdpp Require Import base option list gmap strings.

Open Scope Z_scope.

(* ================================================================== *)
(** * Python values and exceptions                                      *)
(* ================================================================== *)

(** The exceptions the module can raise.  A sequence subscript out of
    range is a [LookupError] whose concrete class depends on the
    container ([KeyError] for a pandas [Series], [IndexError] for an
    [ndarray]); it is kept apart from the [KeyError] of the resistance
    dictionary, which carries the missing key. *)
Inductive exn : Type :=
| TypeError (msg : string)
| KeyError (key : Z)
| IndexError
| ValueError
| OverflowError
| AssertionError
| AttributeError
| IOError.

(** A result or a raised exception. *)
Definition res (A : Type) : Type := (exn + A)%type.

(** [int(x)] for a float [x]: truncation toward zero; [nan] raises
    [ValueError] and an infinity raises [OverflowError]. *)
Definition py_int (x : float) : res Z :=
  match Prim2SF x with
  | S754_nan => inl ValueError
  | S754_infinity _ => inl OverflowError
  | S754_zero _ => inr 0
  | S754_finite s m e =>
      let v := Z.shiftl (Zpos m) e in inr (if s then - v else v)
  end.

(** [x != y], [x == y] and [x > y] on floats (IEEE comparisons). *)
Definition py_eq (x y : float) : bool := (x =? y)%float.
Definition py_ne (x y : float) : bool := negb (x =? y)%float.
Definition py_gt (x y : float) : bool := (y <? x)%float.
Definition py_le (x y : float) : bool := (x <=? y)%float.

(** [seq[idx]] for [idx] drawn from a [range].  A subscript past the end
    raises the lookup error of the container, written [IndexError] here;
    where a statement depends on the class of that exception it assumes
    the subscripts in range. *)
Definition getitem (l : list float) (idx : nat) : res float :=
  match l !! idx with
  | Some x => inr x
  | None => inl IndexError
  end.

(** [d[key]] on a dictionary with integer keys. *)
Definition dict_getitem (d : gmap Z float) (key : Z) : res float :=
  match d !! key with
  | Some x => inr x
  | None => inl (KeyError key)
  end.

(* ================================================================== *)
(** * The raster object                                                 *)
(* ================================================================== *)

(** The attributes that [ESRIAsc.__init__] sets.  [cellsize] is an int
    (it is read with [int(...)] and defaults to [1]); the corner
    coordinates and the sentinel are floats. *)
Record ESRIAsc : Type := mkESRIAsc {
  file_path : option string;
  ncols : Z;
  nrows : Z;
  xllcorner : float;
  yllcorner : float;
  cellsize : Z;
  NODATA_value : float;
  data : list float
}.

Definition set_data (g : ESRIAsc) (d : list float) : ESRIAsc :=
  mkESRIAsc (file_path g) (ncols g) (nrows g) (xllcorner g) (yllcorner g)
            (cellsize g) (NODATA_value g) d.

(* ================================================================== *)
(** * State and exceptions                                              *)
(* ================================================================== *)

(** Computations that update a state of type [St] and may raise.  The
    state that is returned next to an exception is the state at the
    moment the exception was raised. *)
Section StateExn.
Context {St : Type}.

Definition M (A : Type) : Type := St -> res A * St.

Definition ret {A} (a : A) : M A := fun st => (inr a, st).

Definition raise {A} (e : exn) : M A := fun st => (inl e, st).

Definition bind {A B} (m : M A) (k : A -> M B) : M B :=
  fun st =>
    match m st with
    | (inl e, st') => (inl e, st')
    | (inr a, st') => k a st'
    end.

Definition lift {A} (r : res A) : M A :=
  match r with
  | inl e => raise e
  | inr a => ret a
  end.

(** [for idx in range(n): body(idx)], counting from [start]. *)
Fixpoint for_range (start n : nat) (body : nat -> M unit) : M unit :=
  match n with
  | O => ret tt
  | S n' => bind (body start) (fun _ => for_range (S start) n' body)
  end.
End StateExn.

Arguments M : clear implicits.

Declare Scope py_scope.
Delimit Scope py_scope with py.
Notation "x <- c1 ;; c2" := (bind c1 (fun x => c2))
  (at level 100, c1 at next level, right associativity) : py_scope.
Notation "c1 ;; c2" := (bind c1 (fun _ => c2))
  (at level 100, right associativity) : py_scope.
Open Scope py_scope.

(* ================================================================== *)
(** * casimir: the succession loop                                      *)
(* ================================================================== *)

(** The state of the loop is [ret_veg_map.data], the data of the deep
    copy that the function returns. *)
Definition ret_getitem (idx : nat) : M (list float) float :=
  fun d => (getitem d idx, d).

(** [ret_veg_map.data[idx] = v].  The subscript is always in range here:
    the loop reads [vegetation_map.data[idx]] first and the copy has the
    same length. *)
Definition ret_setitem (idx : nat) (v : float) : M (list float) unit :=
  fun d =>
    if decide (idx < length d)%nat then (inr tt, <[idx := v]> d)
    else (inl IndexError, d).

(** The body of [for idx in range(len(shear_map.data))] (lines 101-122).
    Python's [and] evaluates its right operand only when the left one is
    true, so the dictionary is consulted only for a cell that is not
    NODATA. *)
Definition casimir_body (vegetation_map zone_map shear_map : ESRIAsc)
    (shear_resistance_dict : gmap Z float) (idx : nat) : M (list float) unit :=
  v <- lift (getitem (data vegetation_map) idx) ;;
  veg_val <- lift (py_int v) ;;
  if (veg_val =? 0)%Z then ret tt
  else
    s <- lift (getitem (data shear_map) idx) ;;
    is_not_nodata <-
      (if py_ne s (NODATA_value shear_map) then
         v' <- lift (getitem (data vegetation_map) idx) ;;
         ret (py_ne v' (NODATA_value vegetation_map))
       else ret false) ;;
    veg_needs_reset <-
      (if is_not_nodata : bool then
         s' <- lift (getitem (data shear_map) idx) ;;
         r <- lift (dict_getitem shear_resistance_dict veg_val) ;;
         ret (py_gt s' r)
       else ret false) ;;
    (if veg_needs_reset : bool then
       z <- lift (getitem (data zone_map) idx) ;;
       ret_setitem idx z
     else ret tt) ;;
    if is_not_nodata then
      cur <- ret_getitem idx ;;
      ret_setitem idx (cur + 1)%float
    else ret tt.

(** The same body for a [zone_map] constructed from the empty path,
    whose [data] is [None]: the subscript [zone_map.data[idx]] raises
    [TypeError]. *)
Definition casimir_body_blank_zone (vegetation_map shear_map : ESRIAsc)
    (shear_resistance_dict : gmap Z float) (idx : nat) : M (list float) unit :=
  v <- lift (getitem (data vegetation_map) idx) ;;
  veg_val <- lift (py_int v) ;;
  if (veg_val =? 0)%Z then ret tt
  else
    s <- lift (getitem (data shear_map) idx) ;;
    is_not_nodata <-
      (if py_ne s (NODATA_value shear_map) then
         v' <- lift (getitem (data vegetation_map) idx) ;;
         ret (py_ne v' (NODATA_value vegetation_map))
       else ret false) ;;
    veg_needs_reset <-
      (if is_not_nodata : bool then
         s' <- lift (getitem (data shear_map) idx) ;;
         r <- lift (dict_getitem shear_resistance_dict veg_val) ;;
         ret (py_gt s' r)
       else ret false) ;;
    (if veg_needs_reset : bool then
       raise (TypeError "'NoneType' object has no attribute '__getitem__'")
     else ret tt) ;;
    if is_not_nodata then
      cur <- ret_getitem idx ;;
      ret_setitem idx (cur + 1)%float
    else ret tt.

(** What a call produces: the returned object, or an exception together
    with the contents of [ret_veg_map.data] when it was raised (Python
    drops that local object; it is kept here to tell how far the loop
    had got). *)
Inductive outcome : Type :=
| Returned (g : ESRIAsc)
| Raised (e : exn) (partial : list float).

(** Lines 97-124: deep copy, loop, return. *)
Definition casimir_loop (vegetation_map zone_map shear_map : ESRIAsc)
    (shear_resistance_dict : gmap Z float) : outcome :=
  let ret_veg_map := data vegetation_map in
  match for_range 0 (length (data shear_map))
          (casimir_body vegetation_map zone_map shear_map shear_resistance_dict)
          ret_veg_map with
  | (inr _, d) => Returned (set_data vegetation_map d)
  | (inl e, d) => Raised e d
  end.

Definition casimir_loop_blank_zone (vegetation_map shear_map : ESRIAsc)
    (shear_resistance_dict : gmap Z float) : outcome :=
  let ret_veg_map := data vegetation_map in
  match for_range 0 (length (data shear_map))
          (casimir_body_blank_zone vegetation_map shear_map
                                   shear_resistance_dict)
          ret_veg_map with
  | (inr _, d) => Returned (set_data vegetation_map d)
  | (inl e, d) => Raised e d
  end.

(** The per-cell rule in the words of section 4.3 of the specification:
    [v], [z] and [s] are the vegetation, zone and shear values of one
    cell ([z] is [None] when the zone raster has no such cell), [ndv]
    and [nds] the sentinels of the vegetation and shear rasters.  The
    result is the cell of the output. *)
Definition succession_rule (ndv nds : float) (R : gmap Z float)
    (v : float) (z : option float) (s : float) : res float :=
  match py_int v with
  | inl e => inl e
  | inr veg =>
      if (veg =? 0)%Z then inr v
      else
        let valid := py_ne s nds && py_ne v ndv in
        if valid then
          match R !! veg with
          | None => inl (KeyError veg)
          | Some thr =>
              if py_gt s thr then
                match z with
                | Some zc => inr (zc + 1)%float
                | None => inl IndexError
                end
              else inr (v + 1)%float
          end
        else inr v
  end.

(* ================================================================== *)
(** * Python built-ins on text and numbers                              *)
(* ================================================================== *)

(** [r >>= k] on results. *)
Definition res_bind {A B} (r : res A) (k : A -> res B) : res B :=
  match r with
  | inl e => inl e
  | inr a => k a
  end.

Notation "x <~ c1 ;; c2" := (res_bind c1 (fun x => c2))
  (at level 100, c1 at next level, right associativity) : py_scope.

(** Whitespace of [str.split] and [str.strip]: space, tab, line feed,
    vertical tab, form feed, carriage return. *)
Definition is_space (c : ascii) : bool :=
  let n := nat_of_ascii c in
  ((9 <=? n) && (n <=? 13))%nat || (n =? 32)%nat.

Definition newline : ascii := ascii_of_nat 10.
Definition nl : string := String newline EmptyString.

(** [s.split()]: the maximal runs of non-whitespace characters.  [tok]
    is the run being read. *)
Fixpoint split_from (tok : option string) (s : string) : list string :=
  match s with
  | EmptyString => match tok with Some t => [t] | None => [] end
  | String c r =>
      if is_space c then
        match tok with
        | Some t => t :: split_from None r
        | None => split_from None r
        end
      else
        split_from (Some (default EmptyString tok +:+ String c EmptyString)) r
  end.

Definition py_split (s : string) : list string := split_from None s.

(** The word being read when the text ends, if there is one. *)
Definition pending (tok : option string) : list string :=
  match tok with
  | Some t => [t]
  | None => []
  end.

Fixpoint lstrip (s : string) : string :=
  match s with
  | String c r => if is_space c then lstrip r else s
  | EmptyString => EmptyString
  end.

Fixpoint rstrip (s : string) : string :=
  match s with
  | EmptyString => EmptyString
  | String c r =>
      match rstrip r with
      | EmptyString => if is_space c then EmptyString else String c EmptyString
      | r' => String c r'
      end
  end.

(** [s.strip()] *)
Definition py_strip (s : string) : string := rstrip (lstrip s).

(** [sep.join(l)] *)
Fixpoint py_join (sep : string) (l : list string) : string :=
  match l with
  | [] => EmptyString
  | [x] => x
  | x :: r => x +:+ sep +:+ py_join sep r
  end.

(** An optional sign: whether it is [-], and the rest. *)
Definition split_sign (s : string) : bool * string :=
  match s with
  | String c r =>
      if Ascii.eqb c "-" then (true, r)
      else if Ascii.eqb c "+" then (false, r)
      else (false, s)
  | EmptyString => (false, s)
  end.

(** [int(s)] for a str without surrounding whitespace: an optional sign
    and at least one decimal digit. *)
Definition py_int_of_str (s : string) : res Z :=
  let '(neg, digits) := split_sign s in
  match NilZero.uint_of_string digits with
  | Some d => inr (if neg : bool then - Z.of_uint d else Z.of_uint d)
  | None => inl ValueError
  end.

(** [str(z)] for an int. *)
Definition py_str_int (z : Z) : string := NilZero.string_of_int (Z.to_int z).

(** ** Decimal text to float *)

Definition round_half_even (num den : Z) : Z :=
  let q := num / den in
  let r := num mod den in
  match (2 * r ?= den) with
  | Lt => q
  | Gt => q + 1
  | Eq => if Z.even q then q else q + 1
  end.

(** The binary64 number nearest to [n/d] (ties to even) for [n >= 0] and
    [d > 0]: the quotient is cut to 53 bits, or to a multiple of
    [2^-1074] in the subnormal range, and overflows to infinity. *)
Definition float_of_ratio (n d : Z) : float :=
  if (n =? 0) then 0%float
  else
    let l := Z.log2 n - Z.log2 d in
    let e1 := l - 53 in
    let q1 := if (0 <=? e1) then n / (d * 2 ^ e1) else (n * 2 ^ (- e1)) / d in
    let e2 := if (2 ^ 53 <=? q1) then e1 + 1 else e1 in
    let e := Z.max e2 (-1074) in
    let q := if (0 <=? e) then round_half_even n (d * 2 ^ e)
             else round_half_even (n * 2 ^ (- e)) d in
    Z.ldexp (of_uint63 (Uint63.of_Z q)) e.

(** [m * 10^e10], rounded. *)
Definition float_of_decimal (m e10 : Z) : float :=
  if (0 <=? e10) then float_of_ratio (m * 10 ^ e10) 1
  else float_of_ratio m (10 ^ (- e10)).

(** The conversion of an int operand in [float + int]; an int beyond the
    float range raises. *)
Definition float_of_Z (z : Z) : res float :=
  let f := float_of_ratio (Z.abs z) 1 in
  if is_infinity f then inl OverflowError
  else inr (if (z <? 0) then (- f)%float else f).

Definition is_digit (c : ascii) : bool :=
  let n := nat_of_ascii c in ((48 <=? n) && (n <=? 57))%nat.

(** Reads leading digits: the value accumulated onto [acc], the number
    of digits read, and what follows them. *)
Fixpoint take_digits (s : string) (acc : Z) (count : nat) : Z * nat * string :=
  match s with
  | String c r =>
      if is_digit c
      then take_digits r (10 * acc + Z.of_nat (nat_of_ascii c - 48)) (S count)
      else (acc, count, s)
  | EmptyString => (acc, count, s)
  end.

Definition lower (c : ascii) : ascii :=
  let n := nat_of_ascii c in
  if ((65 <=? n) && (n <=? 90))%nat then ascii_of_nat (n + 32) else c.

Fixpoint str_lower (s : string) : string :=
  match s with
  | EmptyString => EmptyString
  | String c r => String (lower c) (str_lower r)
  end.

(** [float(s)] for a str without surrounding whitespace: [inf],
    [infinity] and [nan] in any case, or a decimal literal with an
    optional fraction and exponent; the value is correctly rounded. *)
Definition py_float (s : string) : res float :=
  let '(neg, body) := split_sign s in
  let signed (x : float) : float := if neg : bool then (- x)%float else x in
  let low := str_lower body in
  if (String.eqb low "inf" || String.eqb low "infinity")%bool
  then inr (signed infinity)
  else if String.eqb low "nan" then inr nan
  else
    let '(ip, ni, r1) := take_digits body 0 0 in
    let '(m, nf, r2) :=
      match r1 with
      | String "." r => take_digits r ip 0
      | _ => (ip, 0%nat, r1)
      end in
    if (ni + nf =? 0)%nat then inl ValueError
    else
      match r2 with
      | EmptyString => inr (signed (float_of_decimal m (- Z.of_nat nf)))
      | String c r3 =>
          if (Ascii.eqb c "e" || Ascii.eqb c "E")%bool then
            let '(eneg, r4) := split_sign r3 in
            let '(ex, ne, r5) := take_digits r4 0 0 in
            if ((ne =? 0)%nat || negb (String.eqb r5 EmptyString))%bool
            then inl ValueError
            else
              let ex' := if eneg : bool then - ex else ex in
              inr (signed (float_of_decimal m (ex' - Z.of_nat nf)))
          else inl ValueError
      end.

(** ** Float to text *)

(** [n/d < 10^k] *)
Definition below_pow10 (n d k : Z) : bool :=
  if (0 <=? k) then (n <? d * 10 ^ k) else (n * 10 ^ (- k) <? d).

Fixpoint find_decpt (fuel : nat) (n d k : Z) : Z :=
  match fuel with
  | O => k
  | S fuel' => if below_pow10 n d k then k else find_decpt fuel' n d (k + 1)
  end.

(** The [p] significant decimal digits of [n/d > 0], correctly rounded:
    [(N, decpt)] with [10^(p-1) <= N < 10^p] and [n/d] close to
    [N * 10^(decpt - p)].  The search for [decpt] starts just below the
    estimate that the binary logarithms give. *)
Definition decimal_digits (p n d : Z) : Z * Z :=
  let start := ((Z.log2 n - Z.log2 d - 1) * 30103) / 100000 - 1 in
  let decpt := find_decpt 8 n d start in
  let s := p - decpt in
  let N := if (0 <=? s) then round_half_even (n * 10 ^ s) d
           else round_half_even n (d * 10 ^ (- s)) in
  if (N =? 10 ^ p) then (10 ^ (p - 1), decpt + 1) else (N, decpt).

Fixpoint strip_zeros (fuel : nat) (N : Z) : Z :=
  match fuel with
  | O => N
  | S fuel' => if (N mod 10 =? 0) then strip_zeros fuel' (N / 10) else N
  end.

Fixpoint zeros (n : nat) : string :=
  match n with
  | O => EmptyString
  | S n' => String "0" (zeros n')
  end.

(** [str(x)] for a float, as Python 2 and the NumPy of its time print
    it: format code [g] with 12 significant digits, trailing zeros
    dropped, and [.0] appended when the text would read as an int. *)
Definition py_str_float (x : float) : string :=
  match Prim2SF x with
  | S754_nan => "nan"
  | S754_infinity s => if s then "-inf" else "inf"
  | S754_zero s => if s then "-0.0" else "0.0"
  | S754_finite s m e =>
      let n := if (0 <=? e) then Zpos m * 2 ^ e else Zpos m in
      let d := if (0 <=? e) then 1 else 2 ^ (- e) in
      let '(N, decpt) := decimal_digits 12 n d in
      let ds := py_str_int (strip_zeros 12 N) in
      let nd := String.length ds in
      let body :=
        if ((decpt - 1 <? -4) || (12 <=? decpt - 1))%bool then
          let ex := decpt - 1 in
          let mant :=
            match ds with
            | String c (String c' r) => String c (String "." (String c' r))
            | _ => ds
            end in
          let exs := py_str_int (Z.abs ex) in
          mant +:+ "e" +:+ (if (ex <? 0) then "-" else "+")
               +:+ (if (Z.abs ex <? 10) then "0" +:+ exs else exs)
        else if (decpt <=? 0) then
          "0." +:+ zeros (Z.to_nat (- decpt)) +:+ ds
        else if (Z.of_nat nd <=? decpt) then
          ds +:+ zeros (Z.to_nat decpt - nd) +:+ ".0"
        else
          substring 0 (Z.to_nat decpt) ds +:+ "."
            +:+ substring (Z.to_nat decpt) (nd - Z.to_nat decpt) ds
      in
      if s then "-" +:+ body else body
  end.

(* ================================================================== *)
(** * ESRIAsc: the raster codec                                         *)
(* ================================================================== *)

(** An open file is the text that is still to be read. *)
Fixpoint readline (f : string) : string * string :=
  match f with
  | EmptyString => (EmptyString, EmptyString)
  | String c r =>
      if Ascii.eqb c newline then (String c EmptyString, r)
      else let (l, r') := readline r in (String c l, r')
  end.

Definition f_readline : M string string :=
  fun f => let (l, r) := readline f in (inr l, r).

(** The lines of a text, each with its line feed. *)
Fixpoint lines_of (f : string) : list string :=
  match f with
  | EmptyString => []
  | String c r =>
      if Ascii.eqb c newline then String c EmptyString :: lines_of r
      else
        match lines_of r with
        | [] => [String c EmptyString]
        | l :: ls => String c l :: ls
        end
  end.

Definition f_readlines : M string (list string) :=
  fun f => (inr (lines_of f), EmptyString).

(** [getnextval]: the second word of the next line. *)
Definition getnextval : M string string :=
  line <- f_readline ;;
  match py_split (py_strip line) with
  | _ :: v :: _ => ret v
  | _ => raise IndexError
  end.

(** [numpy.fromstring(s, dtype=float, sep=' ')]: the numbers of a text,
    separated by whitespace, read until the text ends or a word is not a
    number. *)
Fixpoint parse_numbers (words : list string) : list float :=
  match words with
  | [] => []
  | w :: rest =>
      match py_float w with
      | inr x => x :: parse_numbers rest
      | inl _ => []
      end
  end.

Definition fromstring (s : string) : list float := parse_numbers (py_split s).

(** A word that reads as a number. *)
Definition numeric (w : string) : Prop := exists x, py_float w = inr x.

(** The six header fields, as [header_dict] returns them. *)
Record Header : Type := mkHeader {
  h_ncols : Z;
  h_nrows : Z;
  h_xllcorner : float;
  h_yllcorner : float;
  h_cellsize : Z;
  h_NODATA_value : float
}.

(** The six header lines (lines 196-201). *)
Definition read_header : M string Header :=
  ncols <- (t <- getnextval ;; lift (py_int_of_str t)) ;;
  nrows <- (t <- getnextval ;; lift (py_int_of_str t)) ;;
  xllcorner <- (t <- getnextval ;; lift (py_float t)) ;;
  yllcorner <- (t <- getnextval ;; lift (py_float t)) ;;
  cellsize <- (t <- getnextval ;; lift (py_int_of_str t)) ;;
  NODATA_value <- (t <- getnextval ;; lift (py_float t)) ;;
  ret (mkHeader ncols nrows xllcorner yllcorner cellsize NODATA_value).

(** The data: the rest of the file, whatever its line breaks (lines
    205-207). *)
Definition read_data : M string (list float) :=
  lines <- f_readlines ;;
  let data_str := py_join " " (map py_strip lines) in
  ret (fromstring data_str).

(** The part of [ESRIAsc.__init__] that reads an open file (lines
    196-214). *)
Definition ESRIAsc_read (file_path : string) : M string ESRIAsc :=
  hd <- read_header ;;
  data <- read_data ;;
  let colrow_prod := h_nrows hd * h_ncols hd in
  if (Z.of_nat (length data) =? colrow_prod) then
    ret (mkESRIAsc (Some file_path) (h_ncols hd) (h_nrows hd)
                   (h_xllcorner hd) (h_yllcorner hd) (h_cellsize hd)
                   (h_NODATA_value hd) data)
  else raise AssertionError.

(** The branch of [ESRIAsc.__init__] under [if file_path:] (lines
    191-214): open the file and read it.  [fs] gives the text of the
    file at a path, if there is one. *)
Definition ESRIAsc_of_file (fs : string -> option string)
    (file_path : string) : res ESRIAsc :=
  match fs file_path with
  | None => inl IOError
  | Some text => fst (ESRIAsc_read file_path text)
  end.

(** What [ESRIAsc(file_path)] constructs: a raster read from a file, or,
    for the empty path, an object whose attributes keep the defaults of
    the keyword arguments, [ncols], [nrows], the corners and [data]
    being [None]. *)
Inductive constructed : Type :=
| Loaded (g : ESRIAsc)
| Blank.

(** [ESRIAsc(file_path)] (lines 174-214).  The empty string is false in
    [if file_path:], so nothing is read and nothing is checked. *)
Definition ESRIAsc_init (fs : string -> option string)
    (file_path : string) : res constructed :=
  if String.eqb file_path EmptyString then inr Blank
  else g <~ ESRIAsc_of_file fs file_path ;; inr (Loaded g).

Definition header_dict (self : ESRIAsc) : Header :=
  mkHeader (ncols self) (nrows self) (xllcorner self) (yllcorner self)
           (cellsize self) (NODATA_value self).

(** [ESRIAsc(data=data, **header_dict)] *)
Definition ESRIAsc_of_header (hd : Header) (d : list float) : ESRIAsc :=
  mkESRIAsc None (h_ncols hd) (h_nrows hd) (h_xllcorner hd) (h_yllcorner hd)
            (h_cellsize hd) (h_NODATA_value hd) d.

(** [count] rows of [width] cells each, cut from a flat list. *)
Fixpoint rows_of (count width : nat) (l : list float) : list (list float) :=
  match count with
  | O => []
  | S count' => take width l :: rows_of count' width (drop width l)
  end.

(** [numpy.reshape(a, (nrows, ncols))].  The sizes must multiply to the
    number of elements; a single [-1] stands for the size that makes
    them do so. *)
Definition reshape2 (l : list float) (nrows ncols : Z)
    : res (list (list float)) :=
  let size := Z.of_nat (length l) in
  if ((0 <=? nrows) && (0 <=? ncols))%bool then
    if (nrows * ncols =? size)
    then inr (rows_of (Z.to_nat nrows) (Z.to_nat ncols) l)
    else inl ValueError
  else if ((nrows =? -1) && (0 <? ncols) && (size mod ncols =? 0))%bool then
    inr (rows_of (Z.to_nat (size / ncols)) (Z.to_nat ncols) l)
  else if ((ncols =? -1) && (0 <? nrows) && (size mod nrows =? 0))%bool then
    inr (rows_of (Z.to_nat nrows) (Z.to_nat (size / nrows)) l)
  else inl ValueError.

(** [as_matrix(replace_nodata_val)] *)
Definition as_matrix (self : ESRIAsc) (replace_nodata_val : option float)
    : res (list (list float)) :=
  rows <~ reshape2 (data self) (nrows self) (ncols self) ;;
  match replace_nodata_val with
  | None => inr rows
  | Some val =>
      inr (map (map (fun x => if py_eq x (NODATA_value self) then val else x))
               rows)
  end.

(** [Series.fillna(value)] *)
Definition fillna (value : float) (l : list float) : list float :=
  map (fun x => if is_nan x then value else x) l.

(** The six header lines that [write] emits. *)
Definition header_text (self : ESRIAsc) : string :=
  ("ncols " +:+ py_str_int (ncols self) +:+ nl)
  +:+ ("nrows " +:+ py_str_int (nrows self) +:+ nl)
  +:+ ("xllcorner " +:+ py_str_float (xllcorner self) +:+ nl)
  +:+ ("yllcorner " +:+ py_str_float (yllcorner self) +:+ nl)
  +:+ ("cellsize " +:+ py_str_int (cellsize self) +:+ nl)
  +:+ ("NODATA_value " +:+ py_str_float (NODATA_value self) +:+ nl).

(** [write(write_path)]: the object after the call (its data has the
    NaNs replaced) and the text of the file.  When [as_matrix] raises,
    the header has already been written; that partial file is not
    modelled. *)
Definition ESRIAsc_write (self : ESRIAsc) : res (ESRIAsc * string) :=
  let self' := set_data self (fillna (NODATA_value self) (data self)) in
  rows <~ as_matrix self' None ;;
  inr (self',
       header_text self'
       +:+ py_join nl (map (fun row => py_join " " (map py_str_float row)) rows)).

(* ================================================================== *)
(** * The regridder and the entry points                                *)
(* ================================================================== *)

(** The variables of the D-FLOW netCDF file that the module reads:
    element centres and the shear stress series, one list per time
    step. *)
Record Mesh : Type := mkMesh {
  FlowElem_xcc : list float;
  FlowElem_ycc : list float;
  taus : list (list float)
}.

(** An argument of a function that tests the type of what it is given:
    a [str], an [ESRIAsc] instance, or anything else. *)
Inductive pyval : Type :=
| PStr (s : string)
| PESRIAsc (g : ESRIAsc)
| POther.

(** A table read by [pandas.read_excel]: numeric columns by name. *)
Definition DataFrame : Type := list (string * list float).

Definition df_column (df : DataFrame) (name : string) : option (list float) :=
  snd <$> find (fun c => String.eqb (fst c) name) df.

(** The int that a float key of a dictionary is equal to, if there is
    one: only such a key can be found by the int [veg_val]. *)
Definition int_key (k : float) : option Z :=
  match Prim2SF k with
  | S754_zero _ => Some 0
  | S754_finite s m e =>
      let v := Z.shiftl (Zpos m) e in
      if (Z.shiftl v (- e) =? Zpos m) then Some (if s then - v else v) else None
  | _ => None
  end.

(** [dict(zip(keys, values))], restricted to the keys an int can find;
    a later pair replaces an earlier one with the same key. *)
Definition dict_of_zip (keys values : list float) : gmap Z float :=
  fold_left
    (fun d kv => match int_key (fst kv) with
                 | Some z => <[z := snd kv]> d
                 | None => d
                 end)
    (zip keys values) ∅.

(** [f(i) for i in range(n)], stopping at the first exception. *)
Fixpoint comprehension {A} (f : Z -> res A) (start : Z) (n : nat)
    : res (list A) :=
  match n with
  | O => inr []
  | S n' =>
      x <~ f start ;;
      rest <~ comprehension f (start + 1) n' ;;
      inr (x :: rest)
  end.

Section External.
(** The world outside the module: the text files, the spreadsheet
    reader, the netCDF reader, and SciPy's [griddata], which builds a
    linear interpolant from the scattered samples (or raises) and
    evaluates it at each target point. *)
Variable fs : string -> option string.
Variable read_excel : string -> res DataFrame.
Variable Dataset : string -> res Mesh.
Variable griddata :
  list float -> list float -> list float -> res (float -> float -> float).

(** Lines 143-169. *)
Definition shear_mesh_to_asc (shear_nc_path : string) (header_dict : Header)
    : res ESRIAsc :=
  dflow_ds <~ Dataset shear_nc_path ;;
  let mesh_x := FlowElem_xcc dflow_ds in
  let mesh_y := FlowElem_ycc dflow_ds in
  mesh_shear <~ match last (taus dflow_ds) with
                | Some t => inr t
                | None => inl IndexError
                end ;;
  let cellsize := h_cellsize header_dict in
  x <~ comprehension
         (fun i => c <~ float_of_Z (i * cellsize) ;;
                   inr (h_xllcorner header_dict + c)%float)
         0 (Z.to_nat (h_ncols header_dict)) ;;
  y <~ comprehension
         (fun i => c <~ float_of_Z (i * cellsize) ;;
                   inr (h_yllcorner header_dict + c)%float)
         0 (Z.to_nat (h_nrows header_dict)) ;;
  (* meshgrid: row k, column j is the point (x[j], y[k]) *)
  interp <~ griddata mesh_x mesh_y mesh_shear ;;
  let asc_mat := map (fun yk => map (fun xj => interp xj yk) x) y in
  let asc_mat := reverse asc_mat in
  let flat := concat asc_mat in
  (* reshape to one axis of ncols*nrows cells; -1 stands for any size *)
  let size := h_ncols header_dict * h_nrows header_dict in
  data <~ (if ((Z.of_nat (length flat) =? size) || (size =? -1))%bool
           then inr flat else inl ValueError) ;;
  nodata_int <~ py_int (h_NODATA_value header_dict) ;;
  nodata <~ float_of_Z nodata_int ;;
  let data := map (fun v => if is_nan v then nodata else v) data in
  inr (ESRIAsc_of_header header_dict data).

(** [str] or [ESRIAsc], else [TypeError] (lines 68-81). *)
Definition coerce_map (msg : string) (m : pyval) : res constructed :=
  match m with
  | PStr path => ESRIAsc_init fs path
  | PESRIAsc g => inr (Loaded g)
  | POther => inl (TypeError msg)
  end.

(** Lines 83-95. *)
Definition load_shear_resistance (casimir_required_data : pyval)
    : res (gmap Z float) :=
  match casimir_required_data with
  | PStr path =>
      cas_df <~ read_excel path ;;
      match df_column cas_df "Code.1", df_column cas_df "shear_resis" with
      | Some codes, Some resis => inr (dict_of_zip codes resis)
      | _, _ => inl AssertionError
      end
  | _ => inl (TypeError "shear_resistance_dict must be type str")
  end.

(** Lines 97-124 on what the three arguments have become.  An object
    constructed from the empty path has [data] equal to [None]:
    [len(shear_map.data)] then raises; [vegetation_map.data[idx]] raises
    in the first pass of the loop, if there is one, and the copy of the
    blank object is returned otherwise; [zone_map.data[idx]] raises at
    the first reset. *)
Definition casimir_objects (vegetation_map zone_map shear_map : constructed)
    (shear_resistance_dict : gmap Z float) : res constructed :=
  match shear_map with
  | Blank => inl (TypeError "object of type 'NoneType' has no len()")
  | Loaded shear_map =>
      match vegetation_map with
      | Blank =>
          if (length (data shear_map) =? 0)%nat then inr Blank
          else inl (TypeError "'NoneType' object has no attribute '__getitem__'")
      | Loaded vegetation_map =>
          match
            match zone_map with
            | Loaded zone_map =>
                casimir_loop vegetation_map zone_map shear_map
                             shear_resistance_dict
            | Blank =>
                casimir_loop_blank_zone vegetation_map shear_map
                                        shear_resistance_dict
            end
          with
          | Returned ret_veg_map => inr (Loaded ret_veg_map)
          | Raised e _ => inl e
          end
      end
  end.

Definition casimir (vegetation_map zone_map shear_map
                    casimir_required_data : pyval) : res constructed :=
  vegetation_map <~
    coerce_map "vegetation_map must be type str or ESRIAsc" vegetation_map ;;
  shear_map <~ coerce_map "shear_map must be type str or ESRIAsc" shear_map ;;
  zone_map <~ coerce_map "zone_map must be type str of ESRIAsc" zone_map ;;
  shear_resistance_dict <~ load_shear_resistance casimir_required_data ;;
  casimir_objects vegetation_map zone_map shear_map shear_resistance_dict.

(** Lines 34-41. *)
Definition casimir_with_dflow_io (vegetation_map zone_map : pyval)
    (shear_nc_path : string) (casimir_required_data : pyval)
    : res constructed :=
  match vegetation_map with
  | PESRIAsc veg =>
      match zone_map with
      | PESRIAsc _ =>
          shear_map <~ shear_mesh_to_asc shear_nc_path (header_dict veg) ;;
          casimir vegetation_map zone_map (PESRIAsc shear_map)
                  casimir_required_data
      | _ => inl (TypeError "vegetation_map must be an ESRIAsc instance")
      end
  | _ => inl (TypeError "vegetation_map must be an ESRIAsc instance")
  end.
End External.

(* ================================================================== *)
(** * Equality of rasters and the command line                          *)
(* ================================================================== *)

(** [a == b] on two pandas [Series]: the comparison cell by cell;
    [Series] of different lengths cannot be compared. *)
Definition series_eq (a b : list float) : res (list bool) :=
  if (length a =? length b)%nat
  then inr (zip_with py_eq a b)
  else inl ValueError.

(** [__eq__] (lines 266-279), for data held in [Series]: [None] stands
    for [NotImplemented].  Every comparison is made, the one of the data
    before its result is combined with the others. *)
Definition ESRIAsc_eq (self : ESRIAsc) (other : pyval) : res (option bool) :=
  match other with
  | PESRIAsc other =>
      let ret := (ncols self =? ncols other) in
      let ret := (nrows self =? nrows other) && ret in
      let ret := py_eq (xllcorner self) (xllcorner other) && ret in
      let ret := py_eq (yllcorner self) (yllcorner other) && ret in
      let ret := (cellsize self =? cellsize other) && ret in
      let ret := py_eq (NODATA_value self) (NODATA_value other) && ret in
      cells <~ series_eq (data self) (data other) ;;
      let ret := forallb id cells && ret in
      inr (Some ret)
  | _ => inr None
  end.

(** The usage text (lines 284-294). *)
Definition help_msg : string :=
"
dflow_casimir v1.0  -  Matthew Turner <maturner01@gmail.com>

Usage:

    python jemez/dflow_casimir.py <path-to-shear-nc> <path-to-save-output-vegmap>

Example:

    $ python jemez/dflow_casimir.py ~/local_data/dflow_outputs/jemez_r02_map.nc ~/local_data/casimir_out/veg-out-1.asc
    ".

(** How a run of the script ends: [sys.exit(status)], the end of the
    script after it has written a file (path and text), or an exception
    that nothing catches. *)
Inductive process_end : Type :=
| Exit (status : Z)
| Finished (write_path text : string)
| Uncaught (e : exn).

Section Main.
Variable fs : string -> option string.
Variable read_excel : string -> res DataFrame.
Variable Dataset : string -> res Mesh.
Variable griddata :
  list float -> list float -> list float -> res (float -> float -> float).

(** The script (lines 296-316): what it prints and how it ends, given
    [sys.argv].  The bare [except:] also catches the [SystemExit] that
    [sys.exit(0)] raises inside the [try].  The two raster paths are
    non-empty literals, so the constructor reads the files.  A script
    that reaches its end leaves the interpreter with status 0. *)
Definition main (argv : list string) : list string * process_end :=
  match argv !! 1%nat, argv !! 2%nat with
  | Some shear_nc, Some vegout_path =>
      if String.eqb shear_nc "-h" then ([help_msg; help_msg], Exit 1)
      else
        ([],
         match
           (vegetation_map <~ ESRIAsc_of_file fs "data/vegclass_2z.asc" ;;
            zone_map <~ ESRIAsc_of_file fs "data/zonemap_2z.asc" ;;
            let casimir_data := "data/casimir-data-requirements.xlsx" in
            vegout <~ casimir_with_dflow_io fs read_excel Dataset griddata
                        (PESRIAsc vegetation_map) (PESRIAsc zone_map)
                        shear_nc (PStr casimir_data) ;;
            written <~ match vegout with
                       | Loaded vegout => ESRIAsc_write vegout
                       | Blank => inl AttributeError
                       end ;;
            inr (snd written))
         with
         | inr text => Finished vegout_path text
         | inl e => Uncaught e
         end)
  | _, _ => ([help_msg], Exit 1)
  end.
End Main.

(* ================================================================== *)
(** * casimir on objects held in a store                                *)
(* ================================================================== *)

#[global] Instance ESRIAsc_inhabited : Inhabited ESRIAsc :=
  populate (mkESRIAsc None 0 0 0 0 1 (-9999) []).

(** The same loop with Python's object model made explicit: rasters live
    in a store, arguments are references (which may alias), attribute
    reads go through the store and [copy.deepcopy] allocates a fresh
    object.  References handed to the function are live, so the total
    lookup [!!!] never falls back on its default. *)
Module Store.

Definition data_getitem (r idx : nat) : M (gmap nat ESRIAsc) float :=
  fun h => (getitem (data (h !!! r)) idx, h).

Definition get_NODATA_value (r : nat) : M (gmap nat ESRIAsc) float :=
  fun h => (inr (NODATA_value (h !!! r)), h).

Definition len_data (r : nat) : M (gmap nat ESRIAsc) nat :=
  fun h => (inr (length (data (h !!! r))), h).

(** [r.data[idx] = v]: an update in place of the object behind [r]. *)
Definition data_setitem (r idx : nat) (v : float) : M (gmap nat ESRIAsc) unit :=
  fun h =>
    let g := h !!! r in
    if decide (idx < length (data g))%nat
    then (inr tt, <[r := set_data g (<[idx := v]> (data g))]> h)
    else (inl IndexError, h).

(** [copy.deepcopy(r)]: a new object with the same attributes. *)
Definition deepcopy (r : nat) : M (gmap nat ESRIAsc) nat :=
  fun h => let r' := fresh (dom h) in (inr r', <[r' := h !!! r]> h).

Definition casimir_body (vegetation_map zone_map shear_map : nat)
    (shear_resistance_dict : gmap Z float) (ret_veg_map : nat) (idx : nat)
    : M (gmap nat ESRIAsc) unit :=
  v <- data_getitem vegetation_map idx ;;
  veg_val <- lift (py_int v) ;;
  if (veg_val =? 0)%Z then ret tt
  else
    s <- data_getitem shear_map idx ;;
    nds <- get_NODATA_value shear_map ;;
    is_not_nodata <-
      (if py_ne s nds then
         v' <- data_getitem vegetation_map idx ;;
         ndv <- get_NODATA_value vegetation_map ;;
         ret (py_ne v' ndv)
       else ret false) ;;
    veg_needs_reset <-
      (if is_not_nodata : bool then
         s' <- data_getitem shear_map idx ;;
         r <- lift (dict_getitem shear_resistance_dict veg_val) ;;
         ret (py_gt s' r)
       else ret false) ;;
    (if veg_needs_reset : bool then
       z <- data_getitem zone_map idx ;;
       data_setitem ret_veg_map idx z
     else ret tt) ;;
    if is_not_nodata then
      cur <- data_getitem ret_veg_map idx ;;
      data_setitem ret_veg_map idx (cur + 1)%float
    else ret tt.

Definition casimir_loop (vegetation_map zone_map shear_map : nat)
    (shear_resistance_dict : gmap Z float) : M (gmap nat ESRIAsc) nat :=
  ret_veg_map <- deepcopy vegetation_map ;;
  n <- len_data shear_map ;;
  for_range 0 n
    (casimir_body vegetation_map zone_map shear_map shear_resistance_dict
                  ret_veg_map) ;;
  ret ret_veg_map.

End Store.

(** What the rule says about cell [j] of the inputs [V], [Zn], [S]. *)
Definition cell_outcome (V Zn S : ESRIAsc) (R : gmap Z float)
    (j : nat) (r : res float) : Prop :=
  exists v s, data V !! j = Some v /\ data S !! j = Some s /\
    succession_rule (NODATA_value V) (NODATA_value S) R v (data Zn !! j) s = r.

(* ================================================================== *)
(** * Fixtures                                                          *)
(* ================================================================== *)

(** A one-row raster with sentinel [-9999], and the resistance table
    [{2: 5, 3: 2}]. *)
Definition row_raster (d : list float) : ESRIAsc :=
  mkESRIAsc None (Z.of_nat (length d)) 1 0 0 1 (-9999) d.

Definition R_fixture : gmap Z float := <[2 := 5%float]> (<[3 := 2%float]> ∅).

(** A store with a vegetation raster at [0] and a shear raster at [1];
    the vegetation raster also serves as the zone raster. *)
Definition store_fixture : gmap nat ESRIAsc :=
  <[0%nat := row_raster [2; 0; 3]%float]>
    (<[1%nat := row_raster [10; 0; 1]%float]> ∅).

(** A mesh of three samples, far from the origin. *)
Definition mesh_fixture : Mesh :=
  mkMesh [100; 101; 100]%float [100; 100; 101]%float [[1; 2; 3]%float].

(** A raster of two rows and three columns whose header is spelled as
    [write] spells it, except for the sentinel, which is written [-9999]
    as is usual in such files. *)
Definition raster_text : string :=
"ncols 3
nrows 2
xllcorner 0.0
yllcorner 12.5
cellsize 10
NODATA_value -9999
1.0 2.0 3.0
4.5 -9999.0 1000.0".

(** A raster of one cell whose header is spelled as [write] spells it
    and whose value has sixteen significant digits. *)
Definition precise_text : string :=
"ncols 1
nrows 1
xllcorner 0.0
yllcorner 0.0
cellsize 1
NODATA_value -9999.0
0.3333333333333333".

(** The same header followed by three values only. *)
Definition short_text : string :=
"ncols 3
nrows 2
xllcorner 0.0
yllcorner 12.5
cellsize 10
NODATA_value -9999
1.0 2.0 3.0
".


Definition raster_fixture : ESRIAsc :=
  mkESRIAsc (Some "veg.asc") 3 2 0 12.5 10 (-9999)
            [1; 2; 3; 4.5; -9999; 1000]%float.

Definition fs_fixture (path : string) : option string :=
  if String.eqb path "veg.asc" then Some raster_text
  else if String.eqb path "short.asc" then Some short_text
  else None.

(** A spreadsheet that gives every code of [raster_fixture] the
    resistance [5]. *)
Definition table_fixture : DataFrame :=
  [("Code.1", [1; 2; 3; 4; 1000]%float);
   ("shear_resis", [5; 5; 5; 5; 5]%float)].

(* ================================================================== *)
(** * The round trip through the codec                                  *)
(* ================================================================== *)

(** Decoding a text, taken as the content of a file. *)
Definition decode_text (text : string) : res ESRIAsc :=
  ESRIAsc_of_file (fun _ => Some text) "raster.asc".

(** The first six lines of a text. *)
Definition header_lines (text : string) : list string :=
  take 6 (lines_of text).

Definition no_nan (g : ESRIAsc) : bool :=
  forallb (fun x => negb (is_nan x)) (data g).

(** The round trip as the specification states it, in its two halves.
    A text that decodes to a raster without NaN is re-encoded with the
    same six header lines, byte for byte; *)
Definition roundtrip_header (text : string) : Prop :=
  forall g g' out,
    decode_text text = inr g -> no_nan g = true ->
    ESRIAsc_write g = inr (g', out) ->
    header_lines out = header_lines text.

(** and with data that decode to equal numbers. *)
Definition roundtrip_data (text : string) : Prop :=
  forall g g' out,
    decode_text text = inr g -> no_nan g = true ->
    ESRIAsc_write g = inr (g', out) ->
    exists g2, decode_text out = inr g2 /\
               Forall2 (fun x y => py_eq x y = true) (data g2) (data g).

Definition roundtrip_exact (text : string) : Prop :=
  roundtrip_header text /\ roundtrip_data text.

(* ================================================================== *)
(** * Helpers for statements about the codec                            *)
(* ================================================================== *)

(** The second word of a line, if it has one. *)
Definition second_word (line : string) : option string := py_split line !! 1%nat.

(** The second word of line [i] of a text. *)
Definition header_word (text : string) (i : nat) : option string :=
  lines_of text !! i ≫= second_word.

Definition word_or_raise (w : option string) : res string :=
  match w with
  | Some v => inr v
  | None => inl IndexError
  end.

(** The header that six words give, read in the order of the file. *)
Definition header_of_words (w0 w1 w2 w3 w4 w5 : option string) : res Header :=
  ncols <~ (t <~ word_or_raise w0 ;; py_int_of_str t) ;;
  nrows <~ (t <~ word_or_raise w1 ;; py_int_of_str t) ;;
  xllcorner <~ (t <~ word_or_raise w2 ;; py_float t) ;;
  yllcorner <~ (t <~ word_or_raise w3 ;; py_float t) ;;
  cellsize <~ (t <~ word_or_raise w4 ;; py_int_of_str t) ;;
  NODATA_value <~ (t <~ word_or_raise w5 ;; py_float t) ;;
  inr (mkHeader ncols nrows xllcorner yllcorner cellsize NODATA_value).

(** [raster_text] with upper-case labels, aligned values and the data
    wrapped differently. *)
Definition rewrapped_text : string :=
"NCOLS         3
NROWS         2
XLLCORNER     0.0
YLLCORNER     12.5
CELLSIZE      10
NODATA_VALUE  -9999
1.0
2.0 3.0 4.5 -9999.0
1000.0
".

(** A header with a fractional cell size. *)
Definition fractional_text : string :=
"ncols 1
nrows 1
xllcorner 0.0
yllcorner 0.0
cellsize 0.5
NODATA_value -9999
1.0
".

(** A text without whitespace, and one without a line feed. *)
Fixpoint no_space (s : string) : bool :=
  match s with
  | EmptyString => true
  | String c r => negb (is_space c) && no_space r
  end.

Fixpoint no_newline (s : string) : bool :=
  match s with
  | EmptyString => true
  | String c r => negb (Ascii.eqb c newline) && no_newline r
  end.

(** A word: what [split] returns as one element. *)
Definition word (s : string) : Prop := s <> EmptyString /\ no_space s = true.

(** [float(str(x))] is [x]: the text that [write] emits for [x] is read
    as the same number. *)
Definition reads_back (x : float) : Prop := py_float (py_str_float x) = inr x.

(** A float that is equal to an int of magnitude below [10^12]. *)
Definition integral (x : float) : Prop :=
  exists z, int_key x = Some z /\ Z.abs z < 10 ^ 12.

(** ** Decimal digits

    [str] of an int is computed by the Standard Library from the
    little-endian decimal form of the number; the definitions below
    name the steps of that computation. *)

(** The character of a digit. *)
Definition digit_char (c : Z) : ascii := ascii_of_nat (48 + Z.to_nat c).

(** A digit put before a little-endian number. *)
Definition lu_cons (c : N) (d : Decimal.uint) : Decimal.uint :=
  match c with
  | 0%N => D0 d
  | 1%N => D1 d
  | 2%N => D2 d
  | 3%N => D3 d
  | 4%N => D4 d
  | 5%N => D5 d
  | 6%N => D6 d
  | 7%N => D7 d
  | 8%N => D8 d
  | _ => D9 d
  end.

(** The text of a little-endian number, before [acc]. *)
Fixpoint str_of_lu (l : Decimal.uint) (acc : string) : string :=
  match l with
  | Nil => acc
  | D0 l => str_of_lu l (String "0" acc)
  | D1 l => str_of_lu l (String "1" acc)
  | D2 l => str_of_lu l (String "2" acc)
  | D3 l => str_of_lu l (String "3" acc)
  | D4 l => str_of_lu l (String "4" acc)
  | D5 l => str_of_lu l (String "5" acc)
  | D6 l => str_of_lu l (String "6" acc)
  | D7 l => str_of_lu l (String "7" acc)
  | D8 l => str_of_lu l (String "8" acc)
  | D9 l => str_of_lu l (String "9" acc)
  end.

(** The digits of a positive int. *)
Definition dec (p : positive) : string :=
  NilEmpty.string_of_uint (Pos.to_uint p).

(* ================================================================== *)
(** * Properties of the succession loop                                 *)
(* ================================================================== *)

Section Succession.
Variables (V Zn S : ESRIAsc) (R : gmap Z float).

Let body := casimir_body V Zn S R.
Let rule := succession_rule (NODATA_value V) (NODATA_value S) R.

(** One iteration refines the rule: it raises before any write, or
    stores the cell that the rule computes. *)
Lemma casimir_body_spec (idx : nat) (d : list float) (v s : float) :
  data V !! idx = Some v ->
  data S !! idx = Some s ->
  d !! idx = Some v ->
  body idx d =
    match rule v (data Zn !! idx) s with
    | inl e => (inl e, d)
    | inr new => (inr tt, <[idx := new]> d)
    end.
Proof.
  intros HV HS Hd. subst body rule.
  pose proof (lookup_lt_Some _ _ _ Hd) as Hlt.
  unfold casimir_body, succession_rule, bind, lift, getitem, dict_getitem,
    ret_getitem, ret_setitem, ret, raise, getitem.
  rewrite HV, HS. simpl.
  destruct (py_int v) as [e | veg]; simpl; [reflexivity |].
  destruct (veg =? 0)%Z; simpl.
  { by rewrite list_insert_id. }
  destruct (py_ne s (NODATA_value S)); simpl.
  2: { by rewrite list_insert_id. }
  destruct (py_ne v (NODATA_value V)); simpl.
  2: { by rewrite list_insert_id. }
  destruct (R !! veg) as [thr |]; simpl; [| reflexivity].
  destruct (py_gt s thr); simpl.
  - destruct (data Zn !! idx) as [zc |]; simpl; [| reflexivity].
    destruct (decide (idx < length d)%nat) as [_ | ?]; [| done].
    rewrite list_lookup_insert_eq, length_insert by done.
    destruct (decide (idx < length d)%nat) as [_ | ?]; [| done].
    by rewrite list_insert_insert_eq.
  - rewrite Hd.
    by destruct (decide (idx < length d)%nat) as [_ | ?].
Qed.

(** A subscript past the end of the vegetation data raises at once. *)
Lemma casimir_body_out_of_range (idx : nat) (d : list float) :
  data V !! idx = None -> body idx d = (inl IndexError, d).
Proof.
  intros HV. subst body.
  unfold casimir_body, bind, lift, getitem. by rewrite HV.
Qed.

(** The loop from [start] on, run on a state that still agrees with the
    input from [start] on: cells outside the range are not touched, and
    when the loop ends normally each cell of the range holds what the
    rule computes. *)
Lemma for_range_spec (n : nat) :
  forall (start : nat) (d : list float) (r : res unit) (d' : list float),
    (start + n <= length (data S))%nat ->
    (forall j, (start <= j)%nat -> d !! j = data V !! j) ->
    for_range start n body d = (r, d') ->
    length d' = length d /\
    (forall j, (j < start \/ start + n <= j)%nat -> d' !! j = d !! j) /\
    (forall u, r = inr u ->
       forall j, (start <= j < start + n)%nat ->
         exists new, cell_outcome V Zn S R j (inr new) /\ d' !! j = Some new).
Proof.
  induction n as [| n IH]; intros start d r d' Hlen Hinv Hrun; simpl in Hrun.
  - unfold ret in Hrun. injection Hrun as <- <-.
    split; [done |]. split; [done |]. intros u _ j Hj. lia.
  - unfold bind in Hrun.
    destruct (data V !! start) as [v |] eqn:HV.
    2: { rewrite casimir_body_out_of_range in Hrun by done.
         injection Hrun as <- <-.
         split; [done |]. split; [done |]. intros u [=]. }
    destruct (lookup_lt_is_Some_2 (data S) start) as [s HS]; [lia |].
    assert (Hd : d !! start = Some v) by (rewrite Hinv; [done | lia]).
    rewrite (casimir_body_spec start d v s HV HS Hd) in Hrun.
    destruct (rule v (data Zn !! start) s) as [e | new] eqn:Hrule.
    { injection Hrun as <- <-.
      split; [done |]. split; [done |]. intros u [=]. }
    apply IH in Hrun as (Hl & Hframe & Hcells); [| lia |].
    2: { intros j Hj. rewrite list_lookup_insert_ne by lia. apply Hinv. lia. }
    rewrite length_insert in Hl.
    split; [done |]. split.
    + intros j Hj. rewrite Hframe by lia.
      apply list_lookup_insert_ne. lia.
    + intros u Hu j Hj.
      destruct (decide (j = start)) as [-> | Hne].
      * exists new. split; [by exists v, s |].
        rewrite Hframe by lia.
        apply list_lookup_insert_eq. by eapply lookup_lt_Some.
      * apply (Hcells u Hu). lia.
Qed.

(** The loop ends normally when the rule is defined on every cell of
    the range. *)
Lemma for_range_total (n : nat) :
  forall (start : nat) (d : list float),
    (start + n <= length (data S))%nat ->
    (forall j, (start <= j)%nat -> d !! j = data V !! j) ->
    (forall j, (start <= j < start + n)%nat ->
       exists new, cell_outcome V Zn S R j (inr new)) ->
    exists d', for_range start n body d = (inr tt, d').
Proof.
  induction n as [| n IH]; intros start d Hlen Hinv Hdef; simpl.
  - by exists d.
  - destruct (Hdef start) as (new & v & s & HV & HS & Hrule); [lia |].
    assert (Hd : d !! start = Some v) by (rewrite Hinv; [done | lia]).
    unfold bind. rewrite (casimir_body_spec start d v s HV HS Hd).
    unfold rule. rewrite Hrule.
    apply IH; [lia | |].
    + intros j Hj. rewrite list_lookup_insert_ne by lia. apply Hinv. lia.
    + intros j Hj. apply Hdef. lia.
Qed.

(** [casimir_loop] returns exactly when the rule is defined on every
    cell below [len(shear_map.data)]; the object it returns has the
    header of the vegetation map, the rule's cells below that length
    and the input's cells from there on. *)
Lemma casimir_loop_returned (V' : ESRIAsc) :
  casimir_loop V Zn S R = Returned V' ->
  V' = set_data V (data V') /\
  length (data V') = length (data V) /\
  (forall j, (length (data S) <= j)%nat -> data V' !! j = data V !! j) /\
  (forall j, (j < length (data S))%nat ->
     exists new, cell_outcome V Zn S R j (inr new) /\ data V' !! j = Some new).
Proof.
  unfold casimir_loop.
  destruct (for_range 0 (length (data S)) (casimir_body V Zn S R) (data V))
    as [[e | u] d] eqn:Hrun; [done |].
  intros [= <-]. simpl.
  apply for_range_spec in Hrun as (Hl & Hframe & Hcells); [| lia | done].
  split; [done |]. split; [done |]. split.
  - intros j Hj. apply Hframe. lia.
  - intros j Hj. apply (Hcells u eq_refl). lia.
Qed.

Lemma casimir_loop_total :
  (forall j, (j < length (data S))%nat -> exists new, cell_outcome V Zn S R j (inr new)) ->
  exists V', casimir_loop V Zn S R = Returned V'.
Proof.
  intros Hdef.
  destruct (for_range_total (length (data S)) 0%nat (data V)) as [d' Hrun];
    [lia | done | intros j Hj; apply Hdef; lia |].
  exists (set_data V d'). unfold casimir_loop.
  fold body. by rewrite Hrun.
Qed.
End Succession.

(* ================================================================== *)
(** * Facts about float comparisons                                     *)
(* ================================================================== *)

Lemma SFcompare_swap (x y : spec_float) :
  SFcompare y x = CompOpp <$> SFcompare x y.
Proof.
  destruct x as [sx | sx | | sx mx ex], y as [sy | sy | | sy my ey]; simpl;
    try reflexivity;
    try (destruct sx; reflexivity); try (destruct sy; reflexivity);
    try (destruct sx, sy; reflexivity).
  destruct sx, sy; simpl; try reflexivity;
    rewrite (Z.compare_antisym ex ey);
    destruct (ex ?= ey)%Z; simpl; try reflexivity;
    change (Pos.compare_cont Eq my mx) with (my ?= mx)%positive;
    change (Pos.compare_cont Eq mx my) with (mx ?= my)%positive;
    rewrite (Pos.compare_antisym mx my);
    destruct (mx ?= my)%positive; reflexivity.
Qed.

(** [s <= r] excludes [s > r]. *)
Lemma py_le_not_gt (s r : float) : py_le s r = true -> py_gt s r = false.
Proof.
  unfold py_le, py_gt. rewrite FloatAxioms.leb_spec, FloatAxioms.ltb_spec.
  unfold SFleb, SFltb. rewrite (SFcompare_swap (Prim2SF s) (Prim2SF r)).
  by destruct (SFcompare (Prim2SF s) (Prim2SF r)) as [[] |].
Qed.

(** A float equal to [0] (either zero) has integer part [0]. *)
Lemma py_eq_zero_int (v : float) : py_eq v 0 = true -> py_int v = inr 0.
Proof.
  unfold py_eq, py_int. rewrite FloatAxioms.eqb_spec.
  change (Prim2SF 0) with (S754_zero false).
  unfold SFeqb.
  destruct (Prim2SF v) as [sv | sv | | sv mv ev]; simpl; try done.
  - by destruct sv.
  - by destruct sv.
Qed.

Lemma py_ne_eq (x y : float) : py_ne x y = negb (py_eq x y).
Proof. reflexivity. Qed.

(* ================================================================== *)
(** * The succession rule, cell by cell                                 *)
(* ================================================================== *)

(** The worked example of the specification: [[2,0,3]] with zones
    [[5,5,5]] and shear [[10,0,1]] becomes [[6,0,4]]. *)
Example casimir_loop_fixture :
  casimir_loop (row_raster [2; 0; 3]%float) (row_raster [5; 5; 5]%float)
               (row_raster [10; 0; 1]%float) R_fixture
  = Returned (row_raster [6; 0; 4]%float).
Proof. vm_compute. reflexivity. Qed.

(** C1 (reset-then-age).  When [casimir] returns [V'], a cell [i] whose
    vegetation code [veg = int(V.data[i])] is nonzero and which is valid
    (neither its shear value nor its vegetation value is the raster's
    NODATA sentinel) holds [Z.data[i] + 1] if [S.data[i] > R[veg]], and
    [V.data[i] + 1] if [S.data[i] <= R[veg]]. *)
Theorem casimir_reset_then_age
    (V Zn S : ESRIAsc) (R : gmap Z float) (V' : ESRIAsc)
    (i : nat) (v s thr : float) (veg : Z) :
  casimir_loop V Zn S R = Returned V' ->
  data V !! i = Some v ->
  data S !! i = Some s ->
  py_int v = inr veg ->
  veg <> 0 ->
  py_ne s (NODATA_value S) = true ->
  py_ne v (NODATA_value V) = true ->
  R !! veg = Some thr ->
  (py_gt s thr = true ->
     exists zc, data Zn !! i = Some zc /\ data V' !! i = Some (zc + 1)%float) /\
  (py_le s thr = true -> data V' !! i = Some (v + 1)%float).
Proof.
  intros Hret HV HS Hint Hveg Hs Hv HR.
  apply casimir_loop_returned in Hret as (_ & _ & _ & Hcells).
  destruct (Hcells i) as (new & (v0 & s0 & HV0 & HS0 & Hrule) & Hnew).
  { by eapply lookup_lt_Some. }
  rewrite HV in HV0. rewrite HS in HS0. injection HV0 as <-. injection HS0 as <-.
  unfold succession_rule in Hrule. rewrite Hint in Hrule.
  apply Z.eqb_neq in Hveg. rewrite Hveg, Hs, Hv, HR in Hrule. simpl in Hrule.
  split.
  - intros Hgt. rewrite Hgt in Hrule.
    destruct (data Zn !! i) as [zc |]; [| done].
    injection Hrule as <-. by exists zc.
  - intros Hle. rewrite (py_le_not_gt _ _ Hle) in Hrule.
    by injection Hrule as <-.
Qed.

Lemma casimir_reset_then_age_witness :
  (exists zc, data (row_raster [5; 5; 5]%float) !! 0%nat = Some zc /\
              data (row_raster [6; 0; 4]%float) !! 0%nat = Some (zc + 1)%float) /\
  data (row_raster [6; 0; 4]%float) !! 2%nat = Some (3 + 1)%float.
Proof.
  split.
  - apply (casimir_reset_then_age
             (row_raster [2; 0; 3]%float) (row_raster [5; 5; 5]%float)
             (row_raster [10; 0; 1]%float) R_fixture
             (row_raster [6; 0; 4]%float) 0%nat 2%float 10%float 5%float 2);
      try reflexivity; try lia.
  - apply (casimir_reset_then_age
             (row_raster [2; 0; 3]%float) (row_raster [5; 5; 5]%float)
             (row_raster [10; 0; 1]%float) R_fixture
             (row_raster [6; 0; 4]%float) 2%nat 3%float 1%float 2%float 3);
      try reflexivity; try lia.
Defined.

(** C4 (NODATA propagation).  When [casimir] returns [V'], a cell [i]
    with [V.data[i] != 0] whose shear value is the shear raster's
    sentinel, or whose vegetation value is the vegetation raster's
    sentinel, is unchanged: [V'.data[i]] is [V.data[i]]. *)
Theorem casimir_nodata_unchanged
    (V Zn S : ESRIAsc) (R : gmap Z float) (V' : ESRIAsc)
    (i : nat) (v s : float) :
  casimir_loop V Zn S R = Returned V' ->
  data V !! i = Some v ->
  data S !! i = Some s ->
  py_ne v 0 = true ->
  py_eq s (NODATA_value S) = true \/ py_eq v (NODATA_value V) = true ->
  data V' !! i = Some v.
Proof.
  intros Hret HV HS _ Hnd.
  apply casimir_loop_returned in Hret as (_ & _ & _ & Hcells).
  destruct (Hcells i) as (new & (v0 & s0 & HV0 & HS0 & Hrule) & Hnew).
  { by eapply lookup_lt_Some. }
  rewrite HV in HV0. rewrite HS in HS0. injection HV0 as <-. injection HS0 as <-.
  unfold succession_rule in Hrule.
  destruct (py_int v) as [e | veg]; [done |].
  destruct (veg =? 0)%Z; [by injection Hrule as <- |].
  rewrite !py_ne_eq in Hrule.
  assert (Hvalid : negb (py_eq s (NODATA_value S)) &&
                   negb (py_eq v (NODATA_value V)) = false).
  { destruct Hnd as [-> | ->]; simpl; [done | by rewrite andb_false_r]. }
  rewrite Hvalid in Hrule. by injection Hrule as <-.
Qed.

Lemma casimir_nodata_unchanged_witness :
  data (row_raster [3; 4]%float) !! 1%nat = Some 4%float.
Proof.
  apply (casimir_nodata_unchanged
           (row_raster [2; 4]%float) (row_raster [5; 5]%float)
           (row_raster [1; -9999]%float) R_fixture
           (row_raster [3; 4]%float) 1%nat 4%float (-9999)%float);
    try reflexivity.
  left. reflexivity.
Defined.

(** C5 (bare ground).  A cell [i] with [V.data[i] == 0] stays [0]
    whatever the zone raster, the shear raster and the resistance table
    are: its iteration neither raises nor writes, and when [casimir]
    returns [V'], [V'.data[i] == 0]. *)
Theorem casimir_bare_ground_stays
    (V : ESRIAsc) (i : nat) (v : float) :
  data V !! i = Some v ->
  py_eq v 0 = true ->
  forall (Zn S : ESRIAsc) (R : gmap Z float),
    (forall d, casimir_body V Zn S R i d = (inr tt, d)) /\
    (forall V', casimir_loop V Zn S R = Returned V' ->
       exists v', data V' !! i = Some v' /\ py_eq v' 0 = true).
Proof.
  intros HV Hzero Zn S R.
  pose proof (py_eq_zero_int v Hzero) as Hint.
  split.
  - intros d. unfold casimir_body, bind, lift, getitem.
    rewrite HV. simpl. by rewrite Hint.
  - intros V' Hret. exists v. split; [| done].
    apply casimir_loop_returned in Hret as (_ & _ & Hrest & Hcells).
    destruct (decide (i < length (data S))%nat) as [Hlt | Hge].
    + destruct (Hcells i Hlt) as (new & (v0 & s0 & HV0 & HS0 & Hrule) & Hnew).
      rewrite HV in HV0. injection HV0 as <-.
      unfold succession_rule in Hrule. rewrite Hint in Hrule.
      by injection Hrule as <-.
    + rewrite Hrest by lia. done.
Qed.

Lemma casimir_bare_ground_stays_witness :
  casimir_body (row_raster [2; 0; 3]%float) (row_raster [5; 5; 5]%float)
               (row_raster [10; 0; 1]%float) R_fixture 1%nat [2; 0; 3]%float
    = (inr tt, [2; 0; 3]%float) /\
  exists v', data (row_raster [6; 0; 4]%float) !! 1%nat = Some v' /\
             py_eq v' 0 = true.
Proof.
  destruct (casimir_bare_ground_stays (row_raster [2; 0; 3]%float) 1%nat 0%float
              eq_refl eq_refl
              (row_raster [5; 5; 5]%float) (row_raster [10; 0; 1]%float)
              R_fixture) as [Hbody Hret].
  split; [apply Hbody | apply Hret; reflexivity].
Defined.

(** C10.  The loop runs over [range(len(shear_map.data))]: when the shear
    raster has fewer cells than the vegetation raster and [casimir]
    returns [V'], every cell at an index [i >= len(S.data)] is the input
    cell [V.data[i]], whatever its value and whatever the table. *)
Theorem casimir_cells_past_shear_unchanged
    (V Zn S : ESRIAsc) (R : gmap Z float) (V' : ESRIAsc) (i : nat) :
  casimir_loop V Zn S R = Returned V' ->
  (length (data S) < length (data V))%nat ->
  (length (data S) <= i < length (data V))%nat ->
  exists v, data V !! i = Some v /\ data V' !! i = Some v.
Proof.
  intros Hret _ [Hge Hlt].
  apply casimir_loop_returned in Hret as (_ & _ & Hrest & _).
  destruct (lookup_lt_is_Some_2 (data V) i Hlt) as [v Hv].
  exists v. split; [done |]. by rewrite Hrest.
Qed.

Lemma casimir_cells_past_shear_unchanged_witness :
  exists v, data (row_raster [2; 7]%float) !! 1%nat = Some v /\
            data (row_raster [6; 7]%float) !! 1%nat = Some v.
Proof.
  apply (casimir_cells_past_shear_unchanged
           (row_raster [2; 7]%float) (row_raster [5; 5]%float)
           (row_raster [10]%float) R_fixture (row_raster [6; 7]%float) 1%nat);
    [reflexivity | simpl; lia | simpl; lia].
Defined.

(** C2.  The table is consulted cell by cell, not checked beforehand:
    with codes [[2, 7]] and the table [{2: 5, 3: 2}] the loop has reset
    and aged cell 0 (to [6]) when the lookup of code [7] raises
    [KeyError] at cell 1. *)
Theorem casimir_lookup_fails_mid_pass :
  casimir_loop (row_raster [2; 7]%float) (row_raster [5; 5]%float)
               (row_raster [10; 10]%float) R_fixture
  = Raised (KeyError 7) [6; 7]%float.
Proof. vm_compute. reflexivity. Qed.

(* ================================================================== *)
(** * The store-level loop refines the value-level loop                 *)
(* ================================================================== *)

Lemma set_data_data (g : ESRIAsc) : set_data g (data g) = g.
Proof. by destruct g. Qed.

Lemma set_data_set_data (g : ESRIAsc) (d d' : list float) :
  set_data (set_data g d) d' = set_data g d'.
Proof. reflexivity. Qed.

Section StoreRefinement.
Variables (h : gmap nat ESRIAsc) (vm zm sm rv : nat).
Variables (V Zn S : ESRIAsc) (R : gmap Z float).
Hypothesis Hvm : h !! vm = Some V.
Hypothesis Hzm : h !! zm = Some Zn.
Hypothesis Hsm : h !! sm = Some S.
Hypothesis Hrv : h !! rv = None.

(** The store while the loop runs: the caller's store plus the copy,
    whose data is [d]. *)
Let running (d : list float) : gmap nat ESRIAsc := <[rv := set_data V d]> h.

Lemma running_input (r : nat) (g : ESRIAsc) (d : list float) :
  h !! r = Some g -> running d !!! r = g.
Proof.
  intros Hr. subst running. simpl.
  rewrite lookup_total_insert_ne by congruence.
  by apply lookup_total_correct.
Qed.

Lemma running_copy (d : list float) : running d !!! rv = set_data V d.
Proof. subst running. simpl. apply lookup_total_insert_eq. Qed.

Lemma running_setitem (idx : nat) (v : float) (d : list float) :
  Store.data_setitem rv idx v (running d) =
    match ret_setitem idx v d with
    | (x, d') => (x, running d')
    end.
Proof.
  unfold Store.data_setitem, ret_setitem. rewrite running_copy. simpl.
  destruct (decide (idx < length d)%nat); [| done].
  subst running. simpl. by rewrite insert_insert_eq.
Qed.

Lemma store_body_refines (idx : nat) (d : list float) :
  Store.casimir_body vm zm sm R rv idx (running d) =
    match casimir_body V Zn S R idx d with
    | (x, d') => (x, running d')
    end.
Proof.
  unfold Store.casimir_body, casimir_body, bind, lift,
    Store.data_getitem, Store.get_NODATA_value, ret_getitem, ret, raise.
  pose proof (running_input vm V d Hvm) as Ev.
  pose proof (running_input sm S d Hsm) as Es.
  pose proof (running_input zm Zn d Hzm) as Ez.
  pose proof (running_copy d) as Ec.
  rewrite Ev.
  destruct (getitem (data V) idx) as [e | v] eqn:EV; simpl; [done |].
  destruct (py_int v) as [e | veg]; simpl; [done |].
  destruct (veg =? 0)%Z; simpl; [done |].
  rewrite Es.
  destruct (getitem (data S) idx) as [e | s] eqn:ES; simpl; [done |].
  destruct (py_ne s (NODATA_value S)); simpl; [| done].
  rewrite Ev, EV. simpl.
  destruct (py_ne v (NODATA_value V)); simpl; [| done].
  rewrite Es, ES. simpl.
  destruct (dict_getitem R veg) as [e | thr]; simpl; [done |].
  destruct (py_gt s thr); simpl.
  - rewrite Ez.
    destruct (getitem (data Zn) idx) as [e | zc]; simpl; [done |].
    rewrite running_setitem.
    destruct (ret_setitem idx zc d) as [[e | u] d1]; [done |].
    rewrite running_copy. simpl.
    destruct (getitem d1 idx) as [e | cur]; [done |].
    apply running_setitem.
  - rewrite Ec. simpl.
    destruct (getitem d idx) as [e | cur]; [done |].
    apply running_setitem.
Qed.

Lemma store_for_range_refines (n : nat) :
  forall (start : nat) (d : list float),
    for_range start n (Store.casimir_body vm zm sm R rv) (running d) =
      match for_range start n (casimir_body V Zn S R) d with
      | (x, d') => (x, running d')
      end.
Proof.
  induction n as [| n IH]; intros start d; simpl; [done |].
  unfold bind. rewrite store_body_refines.
  destruct (casimir_body V Zn S R start d) as [[e | u] d1]; [done |].
  apply IH.
Qed.
End StoreRefinement.

(** A call on live references [vm], [zm], [sm] (aliased or not) behaves
    as the value-level loop on the objects they denote; the only change
    to the store is the new object, allocated at a fresh reference. *)
Lemma store_casimir_loop_refines (h : gmap nat ESRIAsc) (vm zm sm : nat)
    (V Zn S : ESRIAsc) (R : gmap Z float) :
  h !! vm = Some V -> h !! zm = Some Zn -> h !! sm = Some S ->
  Store.casimir_loop vm zm sm R h =
    let rv := fresh (dom h) in
    match casimir_loop V Zn S R with
    | Returned V' => (inr rv, <[rv := V']> h)
    | Raised e d => (inl e, <[rv := set_data V d]> h)
    end.
Proof.
  intros Hvm Hzm Hsm.
  assert (Hrv : h !! fresh (dom h) = None).
  { apply not_elem_of_dom. apply is_fresh. }
  unfold Store.casimir_loop, casimir_loop, bind, Store.deepcopy,
    Store.len_data. simpl.
  rewrite (lookup_total_correct _ _ _ Hvm).
  rewrite lookup_total_insert_ne by congruence.
  rewrite (lookup_total_correct _ _ _ Hsm).
  replace (<[fresh (dom h) := V]> h)
    with (<[fresh (dom h) := set_data V (data V)]> h)
    by (by rewrite set_data_data).
  rewrite (store_for_range_refines h vm zm sm (fresh (dom h)) V Zn S R
             Hvm Hzm Hsm Hrv).
  by destruct (for_range 0 (length (data S)) (casimir_body V Zn S R) (data V))
    as [[e | u] d].
Qed.

(** Two runs whose inputs agree at cell [i] (and share the sentinels
    and the table) agree at cell [i] of their results. *)
Lemma casimir_loop_local (V1 Z1 S1 V2 Z2 S2 : ESRIAsc) (R : gmap Z float)
    (V1' V2' : ESRIAsc) (i : nat) :
  casimir_loop V1 Z1 S1 R = Returned V1' ->
  casimir_loop V2 Z2 S2 R = Returned V2' ->
  NODATA_value V1 = NODATA_value V2 ->
  NODATA_value S1 = NODATA_value S2 ->
  data V1 !! i = data V2 !! i ->
  data Z1 !! i = data Z2 !! i ->
  data S1 !! i = data S2 !! i ->
  data V1' !! i = data V2' !! i.
Proof.
  intros H1 H2 HndV HndS HV HZ HS.
  apply casimir_loop_returned in H1 as (_ & _ & Hrest1 & Hcells1).
  apply casimir_loop_returned in H2 as (_ & _ & Hrest2 & Hcells2).
  destruct (decide (i < length (data S1))%nat) as [Hlt | Hge].
  - destruct (Hcells1 i Hlt) as (n1 & (v1 & s1 & Hv1 & Hs1 & Hr1) & ->).
    assert (Hlt2 : (i < length (data S2))%nat).
    { apply lookup_lt_is_Some. rewrite <- HS, Hs1. by eexists. }
    destruct (Hcells2 i Hlt2) as (n2 & (v2 & s2 & Hv2 & Hs2 & Hr2) & ->).
    rewrite HV, Hv2 in Hv1. rewrite HS, Hs2 in Hs1.
    injection Hv1 as <-. injection Hs1 as <-.
    rewrite HndV, HndS, HZ, Hr2 in Hr1. by injection Hr1 as <-.
  - assert (Hge2 : (length (data S2) <= i)%nat).
    { apply lookup_ge_None. rewrite <- HS. apply lookup_ge_None. lia. }
    rewrite Hrest1, Hrest2 by lia. done.
Qed.

(** C8 (input immutability and purity).  Run on objects in a store,
    [casimir] changes no object that existed before the call (the
    vegetation raster included, also when arguments alias): it writes
    only to the fresh copy.  What it returns is determined by the
    objects [V], [Z], [S] behind its arguments and by [R].  Each cell of
    the result depends on the inputs only through cell [i] of [V], [Z]
    and [S] (with the sentinels of [V] and [S]) and through [R]. *)
Theorem casimir_pure_and_local :
  (forall (h : gmap nat ESRIAsc) (vm zm sm : nat) (V Zn S : ESRIAsc)
          (R : gmap Z float) (x : res nat) (h' : gmap nat ESRIAsc),
     h !! vm = Some V -> h !! zm = Some Zn -> h !! sm = Some S ->
     Store.casimir_loop vm zm sm R h = (x, h') ->
     (forall l, is_Some (h !! l) -> h' !! l = h !! l) /\
     match casimir_loop V Zn S R with
     | Returned V' =>
         exists rv, x = inr rv /\ h !! rv = None /\ h' !! rv = Some V'
     | Raised e _ => x = inl e
     end) /\
  (forall (V1 Z1 S1 V2 Z2 S2 : ESRIAsc) (R : gmap Z float)
          (V1' V2' : ESRIAsc) (i : nat),
     casimir_loop V1 Z1 S1 R = Returned V1' ->
     casimir_loop V2 Z2 S2 R = Returned V2' ->
     NODATA_value V1 = NODATA_value V2 ->
     NODATA_value S1 = NODATA_value S2 ->
     data V1 !! i = data V2 !! i ->
     data Z1 !! i = data Z2 !! i ->
     data S1 !! i = data S2 !! i ->
     data V1' !! i = data V2' !! i).
Proof.
  split; [| apply casimir_loop_local].
  intros h vm zm sm V Zn S R x h' Hvm Hzm Hsm Hrun.
  rewrite (store_casimir_loop_refines h vm zm sm V Zn S R Hvm Hzm Hsm) in Hrun.
  simpl in Hrun.
  assert (Hrv : h !! fresh (dom h) = None).
  { apply not_elem_of_dom. apply is_fresh. }
  assert (Hframe : forall g l, is_Some (h !! l) ->
                     <[fresh (dom h) := g]> h !! l = h !! l).
  { intros g l [g' Hl]. apply lookup_insert_ne. congruence. }
  destruct (casimir_loop V Zn S R) as [V' | e d];
    injection Hrun as <- <-; (split; [by apply Hframe |]).
  - exists (fresh (dom h)). by rewrite lookup_insert_eq.
  - done.
Qed.

Lemma casimir_pure_and_local_witness :
  (forall l, is_Some (store_fixture !! l) ->
     (Store.casimir_loop 0 0 1 R_fixture store_fixture).2 !! l
     = store_fixture !! l) /\
  data (row_raster [6; 0; 4]%float) !! 1%nat
  = data (row_raster [3; 0]%float) !! 1%nat.
Proof.
  destruct casimir_pure_and_local as [Hstore Hlocal]. split.
  - destruct (Store.casimir_loop 0 0 1 R_fixture store_fixture)
      as [x h'] eqn:Hrun.
    apply (Hstore store_fixture 0%nat 0%nat 1%nat
             (row_raster [2; 0; 3]%float) (row_raster [2; 0; 3]%float)
             (row_raster [10; 0; 1]%float) R_fixture x h');
      [reflexivity | reflexivity | reflexivity | exact Hrun].
  - apply (Hlocal (row_raster [2; 0; 3]%float) (row_raster [5; 5; 5]%float)
             (row_raster [10; 0; 1]%float)
             (row_raster [2; 0]%float) (row_raster [7; 5]%float)
             (row_raster [1; 0]%float) R_fixture);
      reflexivity.
Defined.

(* ================================================================== *)
(** * The entry points                                                  *)
(* ================================================================== *)

(** Given rasters and a spreadsheet that yields the table [R], [casimir]
    is the loop. *)
Lemma casimir_on_rasters
    (fs : string -> option string) (read_excel : string -> res DataFrame)
    (V Zn S : ESRIAsc) (required : pyval) (R : gmap Z float) :
  load_shear_resistance read_excel required = inr R ->
  casimir fs read_excel (PESRIAsc V) (PESRIAsc Zn) (PESRIAsc S) required =
    match casimir_loop V Zn S R with
    | Returned V' => inr (Loaded V')
    | Raised e _ => inl e
    end.
Proof. intros HR. unfold casimir. simpl. by rewrite HR. Qed.





(* ================================================================== *)
(** * The regridder                                                     *)
(* ================================================================== *)

(** C7.  With the sentinel [-9999.5] in the header, a target point where
    the interpolant is undefined (outside the convex hull of the mesh)
    receives [-9999.0], the sentinel cut to an int, which is not equal
    to the header's [NODATA_value]. *)
Theorem shear_mesh_to_asc_truncates_sentinel
    (Dataset : string -> res Mesh)
    (griddata : list float -> list float -> list float ->
                res (float -> float -> float))
    (shear_nc_path : string) (ds : Mesh) (mesh_shear : list float)
    (interp : float -> float -> float) :
  Dataset shear_nc_path = inr ds ->
  last (taus ds) = Some mesh_shear ->
  griddata (FlowElem_xcc ds) (FlowElem_ycc ds) mesh_shear = inr interp ->
  is_nan (interp 0 0)%float = true ->
  shear_mesh_to_asc Dataset griddata shear_nc_path
      (mkHeader 1 1 0 0 1 (-9999.5))
    = inr (ESRIAsc_of_header (mkHeader 1 1 0 0 1 (-9999.5)) [(-9999)%float]) /\
  py_ne (-9999) (-9999.5) = true.
Proof.
  intros HD Hlast Hgrid Hnan.
  split; [| reflexivity].
  unfold shear_mesh_to_asc. rewrite HD. simpl.
  rewrite Hlast. simpl. rewrite Hgrid. simpl.
  change (0 + float_of_ratio 0 1)%float with 0%float.
  change (0 + 0)%float with 0%float.
  rewrite Hnan. reflexivity.
Qed.

Lemma shear_mesh_to_asc_truncates_sentinel_witness :
  shear_mesh_to_asc (fun _ => inr mesh_fixture)
      (fun _ _ _ => inr (fun _ _ => nan)) "map.nc"
      (mkHeader 1 1 0 0 1 (-9999.5))
    = inr (ESRIAsc_of_header (mkHeader 1 1 0 0 1 (-9999.5)) [(-9999)%float]) /\
  py_ne (-9999) (-9999.5) = true.
Proof.
  apply (shear_mesh_to_asc_truncates_sentinel
           (fun _ => inr mesh_fixture) (fun _ _ _ => inr (fun _ _ => nan))
           "map.nc" mesh_fixture [1; 2; 3]%float (fun _ _ => nan));
    reflexivity.
Defined.

(* ================================================================== *)
(** * Words and lines                                                   *)
(* ================================================================== *)

Lemma split_from_nil (tok : option string) :
  split_from tok EmptyString = pending tok.
Proof. by destruct tok. Qed.

Lemma split_from_space (tok : option string) (c : ascii) (r : string) :
  is_space c = true ->
  split_from tok (String c r) = pending tok ++ split_from None r.
Proof. intros Hc. simpl. rewrite Hc. by destruct tok. Qed.

(** A whitespace character ends the word before it. *)
Lemma split_from_app_space (a : string) :
  forall (tok : option string) (c : ascii) (b : string),
    is_space c = true ->
    split_from tok (a +:+ String c b) = split_from tok a ++ split_from None b.
Proof.
  induction a as [| x a IH]; intros tok c b Hc.
  - rewrite split_from_nil. by apply split_from_space.
  - simpl. destruct (is_space x).
    + destruct tok; simpl; by rewrite IH.
    + by apply IH.
Qed.

Lemma split_from_lstrip (s : string) :
  split_from None (lstrip s) = split_from None s.
Proof.
  induction s as [| c r IH]; [done |].
  simpl. destruct (is_space c) eqn:Hc; [done |].
  simpl. by rewrite Hc.
Qed.

Lemma split_from_rstrip (s : string) :
  forall tok, split_from tok (rstrip s) = split_from tok s.
Proof.
  induction s as [| c r IH]; intros tok; [done |].
  simpl. destruct (rstrip r) as [| c' r'] eqn:Hr.
  - destruct (is_space c) eqn:Hc.
    + rewrite <- IH. by destruct tok.
    + simpl. rewrite Hc. by rewrite <- IH.
  - simpl. destruct (is_space c).
    + destruct tok; by rewrite <- IH.
    + by rewrite <- IH.
Qed.

Lemma py_split_strip (s : string) : py_split (py_strip s) = py_split s.
Proof.
  unfold py_split, py_strip. by rewrite split_from_rstrip, split_from_lstrip.
Qed.

Lemma py_split_join (ls : list string) :
  py_split (py_join " " ls) = concat (map py_split ls).
Proof.
  induction ls as [| x rest IH]; [done |].
  destruct rest as [| y rest].
  - simpl. by rewrite app_nil_r.
  - change (py_join " " (x :: y :: rest))
      with (x +:+ String " " (py_join " " (y :: rest))).
    unfold py_split at 1.
    rewrite split_from_app_space by done.
    change (split_from None (py_join " " (y :: rest)))
      with (py_split (py_join " " (y :: rest))).
    by rewrite IH.
Qed.

(** The words of a text are the words of its lines. *)
Lemma split_from_lines (s : string) :
  forall tok,
    split_from tok s =
      match lines_of s with
      | [] => pending tok
      | l :: ls => split_from tok l ++ concat (map py_split ls)
      end.
Proof.
  induction s as [| c r IH]; intros tok.
  - simpl. by destruct tok.
  - simpl lines_of. destruct (Ascii.eqb c newline) eqn:Hnl.
    + apply Ascii.eqb_eq in Hnl as ->.
      rewrite !split_from_space by done.
      rewrite split_from_nil, app_nil_r. f_equal.
      rewrite (IH None). by destruct (lines_of r).
    + destruct (is_space c) eqn:Hc.
      * rewrite split_from_space by done. rewrite (IH None).
        destruct (lines_of r) as [| l ls].
        -- rewrite split_from_space by done. rewrite split_from_nil. simpl.
           by rewrite !app_nil_r.
        -- rewrite split_from_space by done. by rewrite app_assoc.
      * simpl. rewrite Hc. rewrite IH.
        destruct (lines_of r) as [| l ls]; simpl; by rewrite ?Hc.
Qed.

(** Joining the stripped lines with spaces keeps the words: the data may
    be wrapped in any way. *)
Lemma py_split_data_str (rest : string) :
  py_split (py_join " " (map py_strip (lines_of rest))) = py_split rest.
Proof.
  rewrite py_split_join, map_map.
  rewrite (map_ext _ py_split) by apply py_split_strip.
  unfold py_split at 2. rewrite split_from_lines.
  by destruct (lines_of rest).
Qed.

Lemma parse_numbers_length (ws : list string) :
  Forall numeric ws -> length (parse_numbers ws) = length ws.
Proof.
  induction 1 as [| w ws [x Hx] _ IH]; [done |].
  simpl. rewrite Hx. simpl. by rewrite IH.
Qed.

(* ================================================================== *)
(** * Decoding                                                          *)
(* ================================================================== *)

Lemma read_data_run (rest : string) :
  read_data rest =
    (inr (fromstring (py_join " " (map py_strip (lines_of rest)))), EmptyString).
Proof. reflexivity. Qed.

(** When every word after the header is a number, [read_data] returns
    one value per word. *)
Lemma read_data_length (rest : string) (d : list float) (rest' : string) :
  Forall numeric (py_split rest) ->
  read_data rest = (inr d, rest') ->
  length d = length (py_split rest).
Proof.
  intros Hnum. rewrite read_data_run. intros [= <- _].
  unfold fromstring. rewrite py_split_data_str.
  by apply parse_numbers_length.
Qed.

(** A raster constructed from a file holds [ncols*nrows] values. *)
Lemma ESRIAsc_of_file_length (fs : string -> option string)
    (file_path : string) (g : ESRIAsc) :
  ESRIAsc_of_file fs file_path = inr g ->
  Z.of_nat (length (data g)) = ncols g * nrows g.
Proof.
  unfold ESRIAsc_of_file.
  destruct (fs file_path) as [text |]; [| done].
  unfold ESRIAsc_read, bind.
  destruct (read_header text) as [[e | hd] rest]; [done |].
  rewrite read_data_run.
  destruct (Z.of_nat (length (fromstring
              (py_join " " (map py_strip (lines_of rest)))))
            =? h_nrows hd * h_ncols hd) eqn:Hlen; [| done].
  apply Z.eqb_eq in Hlen. simpl. intros [= <-]. simpl. lia.
Qed.





(* ================================================================== *)
(** * Re-encoding                                                       *)
(* ================================================================== *)

(** The text of an int reads back as that int. *)
Lemma py_int_of_str_py_str_int (z : Z) : py_int_of_str (py_str_int z) = inr z.
Proof.
  assert (Hpos : forall p, NilZero.uint_of_string
                             (NilZero.string_of_uint (Pos.to_uint p))
                           = Some (Pos.to_uint p)).
  { intros p. apply NilZero.usu. apply Unsigned.to_uint_nonnil. }
  assert (Hval : forall p, Z.of_uint (Pos.to_uint p) = Z.pos p).
  { intros p. unfold Z.of_uint. by rewrite Unsigned.of_to. }
  unfold py_int_of_str, py_str_int.
  destruct z as [| p | p]; simpl.
  - reflexivity.
  - specialize (Hpos p). specialize (Hval p).
    pose proof (Unsigned.to_uint_nonnil p) as Hnn.
    destruct (Pos.to_uint p) as [| d | d | d | d | d | d | d | d | d | d];
      [done | ..]; simpl in *; rewrite Hpos, Hval; reflexivity.
  - rewrite Hpos, Hval. reflexivity.
Qed.

Lemma rows_of_length (count width : nat) (l : list float) :
  length (rows_of count width l) = count.
Proof.
  revert l. induction count as [| count IH]; intros l; simpl; [done |].
  by rewrite IH.
Qed.

Lemma rows_of_width (count width : nat) :
  forall l : list float,
    (count * width <= length l)%nat ->
    Forall (fun row => length row = width) (rows_of count width l).
Proof.
  induction count as [| count IH]; intros l Hl; simpl; constructor.
  - rewrite length_take. lia.
  - apply IH. rewrite length_drop. lia.
Qed.

Lemma rows_of_concat (count width : nat) :
  forall l : list float,
    length l = (count * width)%nat ->
    concat (rows_of count width l) = l.
Proof.
  induction count as [| count IH]; intros l Hl; simpl.
  - symmetry. by apply nil_length_inv.
  - rewrite IH; [apply take_drop |]. rewrite length_drop. lia.
Qed.

Lemma fillna_no_nan (value : float) (l : list float) :
  forallb (fun x => negb (is_nan x)) l = true -> fillna value l = l.
Proof.
  induction l as [| x l IH]; simpl; [done |].
  intros [Hx Hl]%andb_true_iff. rewrite IH by done.
  by destruct (is_nan x).
Qed.

(* ================================================================== *)
(** * Further properties of the succession loop                         *)
(* ================================================================== *)

(** [int(x)] raises nothing but [ValueError] and [OverflowError]. *)
Lemma py_int_error (x : float) (e : exn) :
  py_int x = inl e -> e = ValueError \/ e = OverflowError.
Proof.
  unfold py_int. destruct (Prim2SF x); intros [= <-]; auto.
Qed.

Section SuccessionRaises.
Variables (V Zn S : ESRIAsc) (R : gmap Z float).

(** The loop from [start] on, when it raises: the cells before the one
    that raised hold what the rule computes, the cells from it on are
    those of the input, and the exception is that of the rule at this
    cell (or the subscript error of a vegetation raster that ends
    there). *)
Lemma for_range_raised (n : nat) :
  forall (start : nat) (d : list float) (e : exn) (d' : list float),
    (start + n <= length (data S))%nat ->
    (forall j, (start <= j)%nat -> d !! j = data V !! j) ->
    for_range start n (casimir_body V Zn S R) d = (inl e, d') ->
    exists j, (start <= j < start + n)%nat /\
      (forall i, (start <= i < j)%nat ->
         exists new, cell_outcome V Zn S R i (inr new) /\ d' !! i = Some new) /\
      (forall i, (i < start \/ j <= i)%nat -> d' !! i = d !! i) /\
      ((data V !! j = None /\ e = IndexError) \/
       cell_outcome V Zn S R j (inl e)).
Proof.
  induction n as [| n IH]; intros start d e d' Hlen Hinv Hrun; simpl in Hrun.
  - discriminate Hrun.
  - unfold bind in Hrun.
    destruct (data V !! start) as [v |] eqn:HV.
    2: { rewrite (casimir_body_out_of_range V Zn S R) in Hrun by done.
         injection Hrun as <- <-. exists start.
         split; [lia |]. split; [intros i Hi; lia |].
         split; [done |]. by left. }
    destruct (lookup_lt_is_Some_2 (data S) start) as [s HS]; [lia |].
    assert (Hd : d !! start = Some v) by (rewrite Hinv; [done | lia]).
    rewrite (casimir_body_spec V Zn S R start d v s HV HS Hd) in Hrun.
    destruct (succession_rule (NODATA_value V) (NODATA_value S) R v
                (data Zn !! start) s) as [e0 | new] eqn:Hrule.
    { injection Hrun as <- <-. exists start.
      split; [lia |]. split; [intros i Hi; lia |].
      split; [done |]. right. by exists v, s. }
    apply IH in Hrun as (j & Hj & Hbefore & Hframe & Hat); [| lia |].
    2: { intros i Hi. rewrite list_lookup_insert_ne by lia. apply Hinv. lia. }
    exists j. split; [lia |]. split; [| split; [| done]].
    + intros i Hi. destruct (decide (i = start)) as [-> | Hne].
      * exists new. split; [by exists v, s |].
        rewrite Hframe by lia.
        apply list_lookup_insert_eq. by eapply lookup_lt_Some.
      * apply Hbefore. lia.
    + intros i Hi. rewrite Hframe by lia.
      apply list_lookup_insert_ne. lia.
Qed.

Lemma casimir_loop_raised (e : exn) (d : list float) :
  casimir_loop V Zn S R = Raised e d ->
  exists j, (j < length (data S))%nat /\
    (forall i, (i < j)%nat ->
       exists new, cell_outcome V Zn S R i (inr new) /\ d !! i = Some new) /\
    (forall i, (j <= i)%nat -> d !! i = data V !! i) /\
    ((data V !! j = None /\ e = IndexError) \/
     cell_outcome V Zn S R j (inl e)).
Proof.
  unfold casimir_loop.
  destruct (for_range 0 (length (data S)) (casimir_body V Zn S R) (data V))
    as [[e0 | u] d0] eqn:Hrun; [| done].
  intros [= <- <-].
  apply for_range_raised in Hrun as (j & Hj & Hbefore & Hframe & Hat);
    [| lia | done].
  exists j. split; [lia |]. split; [| split; [| done]].
  - intros i Hi. apply Hbefore. lia.
  - intros i Hi. apply Hframe. lia.
Qed.
End SuccessionRaises.

(** X1.  [casimir] returns when the shear raster is no longer than the
    vegetation and zone rasters, every vegetation cell in its range is a
    finite number, and every nonzero code in that range has an entry in
    the table. *)
Theorem casimir_loop_returns (V Zn S : ESRIAsc) (R : gmap Z float) :
  (length (data S) <= length (data V))%nat ->
  (length (data S) <= length (data Zn))%nat ->
  (forall i v, (i < length (data S))%nat -> data V !! i = Some v ->
     exists veg, py_int v = inr veg /\ (veg <> 0 -> is_Some (R !! veg))) ->
  exists V', casimir_loop V Zn S R = Returned V'.
Proof.
  intros HV HZ Hcodes. apply casimir_loop_total. intros j Hj.
  destruct (lookup_lt_is_Some_2 (data V) j) as [v Hv]; [lia |].
  destruct (lookup_lt_is_Some_2 (data S) j) as [s Hs]; [lia |].
  destruct (lookup_lt_is_Some_2 (data Zn) j) as [z Hz]; [lia |].
  destruct (Hcodes j v Hj Hv) as (veg & Hint & HR).
  unfold cell_outcome, succession_rule.
  destruct (veg =? 0)%Z eqn:Hveg.
  - exists v, v, s. by rewrite Hint, Hveg.
  - apply Z.eqb_neq in Hveg as Hne. destruct (HR Hne) as [thr Hthr].
    destruct (py_ne s (NODATA_value S) && py_ne v (NODATA_value V)) eqn:Hvalid.
    + destruct (py_gt s thr) eqn:Hgt.
      * exists (z + 1)%float, v, s.
        by rewrite Hint, Hveg, Hvalid, Hthr, Hgt, Hz.
      * exists (v + 1)%float, v, s.
        by rewrite Hint, Hveg, Hvalid, Hthr, Hgt.
    + exists v, v, s. by rewrite Hint, Hveg, Hvalid.
Qed.

Lemma casimir_loop_returns_witness :
  exists V', casimir_loop (row_raster [2; 0; 3]%float)
               (row_raster [5; 5; 5]%float) (row_raster [10; 0; 1]%float)
               R_fixture = Returned V'.
Proof.
  apply casimir_loop_returns; [simpl; lia | simpl; lia |].
  intros i v Hi Hv.
  destruct i as [| [| [| i]]]; simpl in Hi, Hv; [| | | lia];
    injection Hv as <-.
  - exists 2. split; [reflexivity |]. intros _. by exists 5%float.
  - exists 0. split; [reflexivity |]. intros H. by destruct H.
  - exists 3. split; [reflexivity |]. intros _. by exists 2%float.
Defined.

(** X2.  When the shear raster has more cells than the vegetation
    raster, [casimir] never returns: the loop runs past the end of
    [vegetation_map.data] and an exception is raised. *)
Theorem casimir_loop_short_vegetation (V Zn S : ESRIAsc) (R : gmap Z float) :
  (length (data V) < length (data S))%nat ->
  exists e d, casimir_loop V Zn S R = Raised e d.
Proof.
  intros Hlt. destruct (casimir_loop V Zn S R) as [V' | e d] eqn:Hrun.
  - apply casimir_loop_returned in Hrun as (_ & _ & _ & Hcells).
    destruct (Hcells (length (data V)) Hlt) as (new & (v & s & Hv & _) & _).
    apply lookup_lt_Some in Hv. lia.
  - by exists e, d.
Qed.

Lemma casimir_loop_short_vegetation_witness :
  exists e d, casimir_loop (row_raster [0]%float) (row_raster [5; 5]%float)
                (row_raster [10; 10]%float) R_fixture = Raised e d.
Proof. apply casimir_loop_short_vegetation. simpl. lia. Defined.

(** X3.  The raster that [casimir] returns has the header and the file
    path of the vegetation raster and as many cells. *)
Theorem casimir_loop_keeps_header (V Zn S : ESRIAsc) (R : gmap Z float)
    (V' : ESRIAsc) :
  casimir_loop V Zn S R = Returned V' ->
  header_dict V' = header_dict V /\
  file_path V' = file_path V /\
  length (data V') = length (data V).
Proof.
  intros Hrun.
  apply casimir_loop_returned in Hrun as (Hset & Hlen & _).
  rewrite Hset. simpl. by destruct V.
Qed.

Lemma casimir_loop_keeps_header_witness :
  header_dict (row_raster [6; 0; 4]%float) = header_dict (row_raster [2; 0; 3]%float) /\
  file_path (row_raster [6; 0; 4]%float) = file_path (row_raster [2; 0; 3]%float) /\
  length (data (row_raster [6; 0; 4]%float))
    = length (data (row_raster [2; 0; 3]%float)).
Proof.
  apply (casimir_loop_keeps_header (row_raster [2; 0; 3]%float)
           (row_raster [5; 5; 5]%float) (row_raster [10; 0; 1]%float) R_fixture).
  reflexivity.
Defined.

(** X4.  When the shear raster is no longer than the vegetation and
    zone rasters, no subscript of the loop is out of range, so that an
    exception can only come from [int(...)] or from the table.  A
    [KeyError] from [casimir] then names the code of a cell that is
    valid (neither sentinel) and nonzero and that the table lacks; the
    cells from that one on have not been written. *)
Theorem casimir_loop_key_error (V Zn S : ESRIAsc) (R : gmap Z float)
    (key : Z) (d : list float) :
  (length (data S) <= length (data V))%nat ->
  (length (data S) <= length (data Zn))%nat ->
  casimir_loop V Zn S R = Raised (KeyError key) d ->
  exists j v s,
    (j < length (data S))%nat /\
    data V !! j = Some v /\ data S !! j = Some s /\
    py_int v = inr key /\ key <> 0 /\
    py_ne s (NODATA_value S) = true /\ py_ne v (NODATA_value V) = true /\
    R !! key = None /\
    (forall i, (j <= i)%nat -> d !! i = data V !! i).
Proof.
  intros HlenV HlenZ Hrun.
  apply casimir_loop_raised in Hrun as (j & Hj & _ & Hrest & [[_ [=]] | Hat]).
  destruct Hat as (v & s & Hv & Hs & Hrule).
  exists j, v, s. split; [done |]. unfold succession_rule in Hrule.
  destruct (py_int v) as [e | veg] eqn:Hint.
  { injection Hrule as ->. by destruct (py_int_error v _ Hint). }
  destruct (veg =? 0)%Z eqn:Hveg; [done |].
  destruct (py_ne s (NODATA_value S)) eqn:Hns; [| done].
  destruct (py_ne v (NODATA_value V)) eqn:Hnv; [| done].
  simpl in Hrule.
  destruct (R !! veg) as [thr |] eqn:HR.
  { destruct (py_gt s thr); [by destruct (data Zn !! j) | done]. }
  injection Hrule as <-. apply Z.eqb_neq in Hveg. done.
Qed.

Lemma casimir_loop_key_error_witness :
  exists j v s,
    (j < length (data (row_raster [10; 10]%float)))%nat /\
    data (row_raster [2; 7]%float) !! j = Some v /\
    data (row_raster [10; 10]%float) !! j = Some s /\
    py_int v = inr 7 /\ 7 <> 0 /\
    py_ne s (NODATA_value (row_raster [10; 10]%float)) = true /\
    py_ne v (NODATA_value (row_raster [2; 7]%float)) = true /\
    R_fixture !! 7 = None /\
    (forall i, (j <= i)%nat -> [6; 7]%float !! i = data (row_raster [2; 7]%float) !! i).
Proof.
  apply (casimir_loop_key_error (row_raster [2; 7]%float)
           (row_raster [5; 5]%float) (row_raster [10; 10]%float) R_fixture);
    [simpl; lia | simpl; lia | vm_compute; reflexivity].
Defined.

(** X5.  When every cell in the range of the loop is bare ground, or has
    a finite value and carries a sentinel (of the shear raster or of the
    vegetation raster), [casimir] returns a raster equal to the
    vegetation raster, whatever the zone raster and the table hold. *)
Theorem casimir_loop_inert (V Zn S : ESRIAsc) (R : gmap Z float) :
  (length (data S) <= length (data V))%nat ->
  (forall i v s, data V !! i = Some v -> data S !! i = Some s ->
     py_int v = inr 0 \/
     (exists veg, py_int v = inr veg) /\
     (py_eq s (NODATA_value S) = true \/ py_eq v (NODATA_value V) = true)) ->
  casimir_loop V Zn S R = Returned V.
Proof.
  intros Hlen Hinert.
  assert (Hrule : forall i v s, data V !! i = Some v -> data S !! i = Some s ->
            succession_rule (NODATA_value V) (NODATA_value S) R v
              (data Zn !! i) s = inr v).
  { intros i v s Hv Hs. unfold succession_rule.
    destruct (Hinert i v s Hv Hs) as [-> | [[veg ->] Hnd]]; [done |].
    destruct (veg =? 0)%Z; [done |].
    rewrite !py_ne_eq.
    destruct Hnd as [-> | ->]; simpl; [done | by rewrite andb_false_r]. }
  destruct (casimir_loop_total V Zn S R) as [V' Hrun].
  { intros j Hj.
    destruct (lookup_lt_is_Some_2 (data V) j) as [v Hv]; [lia |].
    destruct (lookup_lt_is_Some_2 (data S) j) as [s Hs]; [lia |].
    exists v, v, s. eauto. }
  rewrite Hrun. f_equal.
  apply casimir_loop_returned in Hrun as (Hset & _ & Hrest & Hcells).
  assert (Hdata : data V' = data V).
  { apply list_eq. intros i.
    destruct (decide (i < length (data S))%nat) as [Hlt | Hge].
    - destruct (Hcells i Hlt) as (new & (v & s & Hv & Hs & Hr) & Hnew).
      rewrite (Hrule i v s Hv Hs) in Hr. injection Hr as <-.
      by rewrite Hnew, Hv.
    - apply Hrest. lia. }
  rewrite Hset, Hdata. apply set_data_data.
Qed.

Lemma casimir_loop_inert_witness :
  casimir_loop (row_raster [0; 4; -9999]%float) (row_raster []%float)
               (row_raster [10; -9999; 10]%float) ∅
  = Returned (row_raster [0; 4; -9999]%float).
Proof.
  apply casimir_loop_inert; [simpl; lia |].
  intros i v s Hv Hs.
  destruct i as [| [| [| i]]]; simpl in Hv, Hs; [| | | done];
    injection Hv as <-; injection Hs as <-.
  - by left.
  - right. split; [by exists 4 | by left].
  - right. split; [by exists (-9999) | by right].
Defined.

(** X6.  A vegetation cell in the range of the loop that is NaN or
    infinite makes [casimir] raise, even where the cell carries a
    sentinel: [int(...)] is applied to it before anything is compared. *)
Theorem casimir_loop_nonfinite_cell (V Zn S : ESRIAsc) (R : gmap Z float)
    (i : nat) (v : float) (e : exn) :
  (i < length (data S))%nat ->
  data V !! i = Some v ->
  py_int v = inl e ->
  exists e' d, casimir_loop V Zn S R = Raised e' d.
Proof.
  intros Hi Hv Hint. destruct (casimir_loop V Zn S R) as [V' | e' d] eqn:Hrun.
  - apply casimir_loop_returned in Hrun as (_ & _ & _ & Hcells).
    destruct (Hcells i Hi) as (new & (v0 & s & Hv0 & _ & Hrule) & _).
    rewrite Hv in Hv0. injection Hv0 as <-.
    unfold succession_rule in Hrule. by rewrite Hint in Hrule.
  - by exists e', d.
Qed.

Lemma casimir_loop_nonfinite_cell_witness :
  exists e' d, casimir_loop (row_raster [nan]%float) (row_raster [5]%float)
                 (row_raster [-9999]%float) R_fixture = Raised e' d.
Proof.
  apply (casimir_loop_nonfinite_cell _ _ _ _ 0%nat nan ValueError);
    [simpl; lia | reflexivity | reflexivity].
Defined.

(* ================================================================== *)
(** * Further properties of decoding                                    *)
(* ================================================================== *)

Lemma getnextval_run (text : string) :
  getnextval text =
    (word_or_raise (second_word (fst (readline text))), snd (readline text)).
Proof.
  unfold getnextval, bind, f_readline, second_word.
  destruct (readline text) as [line rest]. simpl.
  rewrite py_split_strip.
  by destruct (py_split line) as [| a [| b l]].
Qed.

Lemma lines_of_readline (text : string) :
  lines_of text =
    match text with
    | EmptyString => []
    | _ => fst (readline text) :: lines_of (snd (readline text))
    end.
Proof.
  induction text as [| c r IH]; [done |].
  simpl. destruct (Ascii.eqb c newline); [done |].
  rewrite IH. destruct r as [| c' r']; [done |].
  by destruct (readline (String c' r')).
Qed.

Lemma readline_word (text : string) :
  second_word (fst (readline text)) = header_word text 0.
Proof.
  unfold header_word. rewrite (lines_of_readline text).
  by destruct text.
Qed.

Lemma readline_rest (text : string) (i : nat) :
  header_word (snd (readline text)) i = header_word text (S i).
Proof.
  unfold header_word. rewrite (lines_of_readline text).
  by destruct text.
Qed.

(** The header is read by position: it is what the second words of the
    first six lines give. *)
Lemma read_header_words (text : string) :
  fst (read_header text) =
    header_of_words (header_word text 0) (header_word text 1)
      (header_word text 2) (header_word text 3)
      (header_word text 4) (header_word text 5).
Proof.
  unfold read_header, header_of_words, bind, res_bind, lift, ret, raise.
  repeat
    (rewrite getnextval_run, readline_word, ?readline_rest;
     match goal with
     | |- context [word_or_raise ?w] =>
         destruct (word_or_raise w) as [? | ?]; simpl; [reflexivity |]
     end;
     match goal with
     | |- context [py_int_of_str ?t] =>
         destruct (py_int_of_str t) as [? | ?]; simpl; [reflexivity |]
     | |- context [py_float ?t] =>
         destruct (py_float t) as [? | ?]; simpl; [reflexivity |]
     end).
  reflexivity.
Qed.

(** X7.  The header is read by position and the labels are not looked
    at: two texts whose first six lines have the same second words give
    the same header, or the same exception. *)
Theorem read_header_by_position (text1 text2 : string) :
  (forall i, (i < 6)%nat -> header_word text1 i = header_word text2 i) ->
  fst (read_header text1) = fst (read_header text2).
Proof.
  intros Hwords. rewrite !read_header_words.
  by rewrite !Hwords by lia.
Qed.

Lemma read_header_by_position_witness :
  fst (read_header raster_text) = fst (read_header rewrapped_text).
Proof.
  apply read_header_by_position. intros i Hi.
  destruct i as [| [| [| [| [| [| i]]]]]]; [reflexivity .. | lia].
Defined.

(** X8.  The data are read whatever their line breaks: two files with
    the same header whose texts after the header have the same words
    decode to the same raster, or fail alike. *)
Theorem decode_ignores_line_breaks (fs1 fs2 : string -> option string)
    (path text1 text2 : string) (hd : Header) (rest1 rest2 : string) :
  fs1 path = Some text1 ->
  fs2 path = Some text2 ->
  read_header text1 = (inr hd, rest1) ->
  read_header text2 = (inr hd, rest2) ->
  py_split rest1 = py_split rest2 ->
  ESRIAsc_of_file fs1 path = ESRIAsc_of_file fs2 path.
Proof.
  intros Hfs1 Hfs2 Hhd1 Hhd2 Hwords. unfold ESRIAsc_of_file.
  rewrite Hfs1, Hfs2. unfold ESRIAsc_read, bind.
  rewrite Hhd1, Hhd2, !read_data_run. unfold fromstring.
  by rewrite !py_split_data_str, Hwords.
Qed.

Lemma decode_ignores_line_breaks_witness :
  ESRIAsc_of_file (fun _ => Some raster_text) "veg.asc"
  = ESRIAsc_of_file (fun _ => Some rewrapped_text) "veg.asc".
Proof.
  apply (decode_ignores_line_breaks _ _ "veg.asc" raster_text rewrapped_text
           (mkHeader 3 2 0 12.5 10 (-9999))
           (snd (read_header raster_text)) (snd (read_header rewrapped_text)));
    vm_compute; reflexivity.
Defined.

(** X9.  A file whose first line has fewer than two words, an empty file
    among them, raises [IndexError]: [getnextval] takes the second word
    of the line. *)
Theorem decode_short_first_line (fs : string -> option string)
    (path text : string) :
  path <> EmptyString ->
  fs path = Some text ->
  (length (py_split (fst (readline text))) < 2)%nat ->
  ESRIAsc_of_file fs path = inl IndexError /\
  ESRIAsc_init fs path = inl IndexError.
Proof.
  intros Hpath Hfs Hshort.
  assert (Hfile : ESRIAsc_of_file fs path = inl IndexError).
  { unfold ESRIAsc_of_file. rewrite Hfs.
    unfold ESRIAsc_read, read_header, bind.
    rewrite getnextval_run. unfold second_word.
    destruct (py_split (fst (readline text))) as [| a [| b l]];
      [done | done | simpl in Hshort; lia]. }
  split; [done |]. unfold ESRIAsc_init.
  apply String.eqb_neq in Hpath. by rewrite Hpath, Hfile.
Qed.

Lemma decode_short_first_line_witness :
  ESRIAsc_of_file (fun _ => Some EmptyString) "empty.asc" = inl IndexError /\
  ESRIAsc_init (fun _ => Some EmptyString) "empty.asc" = inl IndexError.
Proof.
  apply (decode_short_first_line _ "empty.asc" EmptyString);
    [discriminate | reflexivity | simpl; lia].
Defined.

(** X10.  The cell size must be an int: when the first four header
    values are read and the fifth is not an integer literal, the file is
    rejected with the exception of [int(...)], as for [cellsize 0.5]. *)
Theorem decode_cellsize_not_int (fs : string -> option string)
    (path text : string) (w0 w1 w2 w3 w4 : string)
    (nc nr : Z) (x y : float) (e : exn) :
  path <> EmptyString ->
  fs path = Some text ->
  header_word text 0 = Some w0 -> py_int_of_str w0 = inr nc ->
  header_word text 1 = Some w1 -> py_int_of_str w1 = inr nr ->
  header_word text 2 = Some w2 -> py_float w2 = inr x ->
  header_word text 3 = Some w3 -> py_float w3 = inr y ->
  header_word text 4 = Some w4 -> py_int_of_str w4 = inl e ->
  ESRIAsc_of_file fs path = inl e /\
  ESRIAsc_init fs path = inl e.
Proof.
  intros Hpath Hfs H0 P0 H1 P1 H2 P2 H3 P3 H4 P4.
  assert (Hfile : ESRIAsc_of_file fs path = inl e).
  { unfold ESRIAsc_of_file. rewrite Hfs.
    pose proof (read_header_words text) as Hhd.
    rewrite H0, H1, H2, H3, H4 in Hhd. unfold header_of_words in Hhd.
    simpl in Hhd. rewrite P0, P1, P2, P3, P4 in Hhd. simpl in Hhd.
    unfold ESRIAsc_read, bind.
    destruct (read_header text) as [r rest]. simpl in Hhd. by subst r. }
  split; [done |]. unfold ESRIAsc_init.
  apply String.eqb_neq in Hpath. by rewrite Hpath, Hfile.
Qed.

Lemma decode_cellsize_not_int_witness :
  ESRIAsc_of_file (fun _ => Some fractional_text) "frac.asc" = inl ValueError /\
  ESRIAsc_init (fun _ => Some fractional_text) "frac.asc" = inl ValueError.
Proof.
  apply (decode_cellsize_not_int _ "frac.asc" fractional_text
           "1" "1" "0.0" "0.0" "0.5" 1 1 0%float 0%float);
    try discriminate; vm_compute; reflexivity.
Defined.

(* ================================================================== *)
(** * Words of the encoder                                              *)
(* ================================================================== *)

Lemma string_app_assoc (a b c : string) : (a +:+ b) +:+ c = a +:+ (b +:+ c).
Proof.
  induction a as [| x a IH]; [done |].
  change (String x ((a +:+ b) +:+ c) = String x (a +:+ (b +:+ c))).
  by f_equal.
Qed.

Lemma string_app_nil_r (a : string) : a +:+ EmptyString = a.
Proof.
  induction a as [| x a IH]; [done |].
  change (String x (a +:+ EmptyString) = String x a). by f_equal.
Qed.

Lemma string_app_cons (x : ascii) (a b : string) :
  String x a +:+ b = String x (a +:+ b).
Proof. reflexivity. Qed.

Lemma no_space_app (a b : string) :
  no_space (a +:+ b) = no_space a && no_space b.
Proof.
  induction a as [| x a IH]; [done |].
  rewrite string_app_cons. simpl. rewrite IH. by rewrite andb_assoc.
Qed.

Lemma split_from_no_space (w : string) :
  forall t, no_space w = true ->
    split_from (Some t) w = [t +:+ w].
Proof.
  induction w as [| c r IH]; intros t Hw; simpl.
  - by rewrite string_app_nil_r.
  - simpl in Hw. apply andb_true_iff in Hw as [Hc Hr].
    apply negb_true_iff in Hc. rewrite Hc. simpl.
    rewrite IH by done. by rewrite string_app_assoc.
Qed.

Lemma py_split_word (w : string) : word w -> py_split w = [w].
Proof.
  intros [Hne Hw]. destruct w as [| c r]; [done |].
  unfold py_split. simpl in *.
  apply andb_true_iff in Hw as [Hc Hr]. apply negb_true_iff in Hc.
  rewrite Hc. simpl. by rewrite split_from_no_space.
Qed.

Lemma no_newline_app (a b : string) :
  no_newline (a +:+ b) = no_newline a && no_newline b.
Proof.
  induction a as [| x a IH]; [done |].
  rewrite string_app_cons. simpl. rewrite IH. by rewrite andb_assoc.
Qed.

Lemma no_space_no_newline (s : string) : no_space s = true -> no_newline s = true.
Proof.
  induction s as [| c r IH]; [done |]. simpl.
  intros [Hc Hr]%andb_true_iff. rewrite IH by done.
  destruct (Ascii.eqb c newline) eqn:Hnl; [| done].
  apply Ascii.eqb_eq in Hnl as ->. done.
Qed.

Lemma readline_line (l rest : string) :
  no_newline l = true -> readline (l +:+ nl +:+ rest) = (l +:+ nl, rest).
Proof.
  induction l as [| c r IH]; intros Hl.
  - reflexivity.
  - simpl in Hl. apply andb_true_iff in Hl as [Hc Hr].
    apply negb_true_iff in Hc.
    rewrite !string_app_cons. simpl. rewrite Hc. by rewrite IH.
Qed.

(** A line of a label, a space and a value. *)
Lemma getnextval_line (label tok rest : string) :
  word label -> word tok ->
  getnextval ((label +:+ " " +:+ tok +:+ nl) +:+ rest) = (inr tok, rest).
Proof.
  intros Hlabel Htok. rewrite getnextval_run.
  replace ((label +:+ " " +:+ tok +:+ nl) +:+ rest)
    with ((label +:+ " " +:+ tok) +:+ nl +:+ rest)
    by by rewrite !string_app_assoc.
  rewrite readline_line.
  2:{ rewrite !no_newline_app.
      rewrite (no_space_no_newline label) by apply Hlabel.
      by rewrite (no_space_no_newline tok) by apply Htok. }
  simpl. unfold second_word, py_split.
  rewrite !string_app_assoc.
  change (" " +:+ tok +:+ nl) with (String " " (tok +:+ nl)).
  rewrite (split_from_app_space label None " " (tok +:+ nl)) by done.
  change nl with (String newline EmptyString).
  rewrite (split_from_app_space tok None newline EmptyString) by done.
  change (split_from None label) with (py_split label).
  change (split_from None tok) with (py_split tok).
  rewrite !py_split_word by done. done.
Qed.

Lemma is_digit_not_space (c : ascii) : is_digit c = true -> is_space c = false.
Proof.
  unfold is_digit, is_space.
  intros [H1 H2]%andb_true_iff. apply Nat.leb_le in H1, H2.
  apply orb_false_iff. split.
  - apply andb_false_iff. right. apply Nat.leb_gt. lia.
  - apply Nat.eqb_neq. lia.
Qed.

Lemma take_digits_spec (s : string) :
  forall acc cnt v n r,
    take_digits s acc cnt = (v, n, r) ->
    exists ds, s = ds +:+ r /\ no_space ds = true /\
               n = (cnt + String.length ds)%nat.
Proof.
  induction s as [| c s IH]; intros acc cnt v n r H; simpl in H.
  - injection H as <- <- <-. exists EmptyString. by rewrite Nat.add_0_r.
  - destruct (is_digit c) eqn:Hc.
    + apply IH in H as (ds & -> & Hds & ->).
      exists (String c ds). split; [done |]. split.
      * simpl. by rewrite (is_digit_not_space c Hc), Hds.
      * simpl. lia.
    + injection H as <- <- <-. exists EmptyString. by rewrite Nat.add_0_r.
Qed.

Lemma split_sign_spec (s : string) (neg : bool) (body : string) :
  split_sign s = (neg, body) ->
  s = body \/ exists c, s = String c body /\ is_space c = false.
Proof.
  unfold split_sign. destruct s as [| c r]; [intros [= <- <-]; by left |].
  destruct (Ascii.eqb c "-") eqn:Hm.
  { apply Ascii.eqb_eq in Hm as ->. intros [= <- <-]. right. by eexists. }
  destruct (Ascii.eqb c "+") eqn:Hp.
  { apply Ascii.eqb_eq in Hp as ->. intros [= <- <-]. right. by eexists. }
  intros [= <- <-]. by left.
Qed.

Lemma split_sign_word (s : string) (neg : bool) (body : string) :
  split_sign s = (neg, body) -> word body -> word s.
Proof.
  intros [-> | (c & -> & Hc)]%split_sign_spec Hbody; [done |].
  split; [done |]. simpl. rewrite Hc. apply Hbody.
Qed.

Lemma lower_space (c : ascii) : is_space (lower c) = is_space c.
Proof.
  destruct c as [[] [] [] [] [] [] [] []]; reflexivity.
Qed.

Lemma str_lower_no_space (s : string) : no_space (str_lower s) = no_space s.
Proof.
  induction s as [| c r IH]; [done |]. simpl. by rewrite lower_space, IH.
Qed.

Lemma str_lower_word (s : string) : word (str_lower s) -> word s.
Proof.
  intros [Hne Hw]. split.
  - by intros ->.
  - by rewrite <- str_lower_no_space.
Qed.

Lemma dot_match {A} (r1 : string) (f : string -> A) (b : A) :
  match r1 with
  | String "." r => f r
  | _ => b
  end
  = match r1 with
    | String c r => if Ascii.eqb c "." then f r else b
    | EmptyString => b
    end.
Proof.
  destruct r1 as [| c r]; [done |].
  destruct c as [[] [] [] [] [] [] [] []]; reflexivity.
Qed.

(** The exponent part of a literal. *)
Lemma exponent_no_space (c : ascii) (r3 : string) (eneg : bool) (r4 : string)
    (ex : Z) (ne : nat) :
  (Ascii.eqb c "e" || Ascii.eqb c "E")%bool = true ->
  split_sign r3 = (eneg, r4) ->
  take_digits r4 0 0 = (ex, ne, EmptyString) ->
  no_space (String c r3) = true.
Proof.
  intros Hc Hs Hd. simpl. apply andb_true_iff. split.
  - apply orb_true_iff in Hc as [Hc | Hc]; apply Ascii.eqb_eq in Hc;
      by rewrite Hc.
  - apply take_digits_spec in Hd as (d3 & -> & Hd3 & ->).
    rewrite string_app_nil_r in Hs.
    apply split_sign_spec in Hs as [-> | (c' & -> & Hc')]; [done |].
    simpl. by rewrite Hc', Hd3.
Qed.

Ltac float_tail_cons H c r3 :=
  let He := fresh "He" in
  destruct (Ascii.eqb c "e" || Ascii.eqb c "E")%bool eqn:He; [| done];
  let eneg := fresh "eneg" in
  let r4 := fresh "r4" in
  let Hs := fresh "Hs" in
  destruct (split_sign r3) as [eneg r4] eqn:Hs;
  let ex := fresh "ex" in
  let ne := fresh "ne" in
  let r5 := fresh "r5" in
  let Hd := fresh "Hd" in
  destruct (take_digits r4 0 0) as [[ex ne] r5] eqn:Hd;
  destruct (ne =? 0)%nat; [done |];
  let H5 := fresh "H5" in
  destruct (String.eqb r5 EmptyString) eqn:H5; [| done];
  apply String.eqb_eq in H5; subst r5;
  exact (exponent_no_space c r3 eneg r4 ex ne He Hs Hd).

Ltac float_tail H r2 :=
  let c := fresh "c" in
  let r3 := fresh "r3" in
  destruct r2 as [| c r3]; [done | float_tail_cons H c r3].

(** A text that [float(...)] accepts is one word. *)
Lemma py_float_word (s : string) (x : float) : py_float s = inr x -> word s.
Proof.
  unfold py_float. destruct (split_sign s) as [neg body] eqn:Hsign.
  intros H. apply (split_sign_word s neg body Hsign).
  destruct (String.eqb (str_lower body) "inf"
            || String.eqb (str_lower body) "infinity")%bool eqn:Hinf.
  { apply str_lower_word. apply orb_true_iff in Hinf as [Hi | Hi];
      apply String.eqb_eq in Hi; rewrite Hi; by split. }
  destruct (String.eqb (str_lower body) "nan") eqn:Hnan.
  { apply str_lower_word. apply String.eqb_eq in Hnan. rewrite Hnan. by split. }
  clear Hinf Hnan Hsign.
  destruct (take_digits body 0 0) as [[ip ni] r1] eqn:H1.
  rewrite dot_match in H.
  apply take_digits_spec in H1 as (d1 & -> & Hd1 & ->).
  destruct r1 as [| c r].
  - destruct (0 + String.length d1 + 0 =? 0)%nat eqn:Hn; [done |].
    apply Nat.eqb_neq in Hn. split.
    + destruct d1; [simpl in Hn; lia | done].
    + by rewrite no_space_app, Hd1.
  - destruct (Ascii.eqb c ".") eqn:Hdot.
    + apply Ascii.eqb_eq in Hdot as ->.
      destruct (take_digits r ip 0) as [[m nf] r2] eqn:H2.
      apply take_digits_spec in H2 as (d2 & -> & Hd2 & ->).
      destruct (0 + String.length d1 + (0 + String.length d2) =? 0)%nat eqn:Hn;
        [done |].
      split; [by destruct d1 |].
      rewrite no_space_app, Hd1. simpl. rewrite no_space_app, Hd2. simpl.
      float_tail H r2.
    + destruct (0 + String.length d1 + 0 =? 0)%nat eqn:Hn; [done |].
      apply Nat.eqb_neq in Hn. split.
      * destruct d1; [simpl in Hn; lia | done].
      * rewrite no_space_app, Hd1.
        change (no_space (String c r) = true). float_tail_cons H c r.
Qed.

(* ================================================================== *)
(** * Decimal digits of an int                                          *)
(* ================================================================== *)

Lemma to_lu_digit (q : positive) (c : N) :
  (c < 10)%N ->
  Unsigned.to_lu (10 * N.pos q + c) = lu_cons c (Unsigned.to_lu (N.pos q)).
Proof.
  intros Hc.
  assert (Hcases : (c = 0 \/ c = 1 \/ c = 2 \/ c = 3 \/ c = 4 \/ c = 5 \/ c = 6
                    \/ c = 7 \/ c = 8 \/ c = 9)%N) by lia.
  pose proof (Unsigned.to_ldec_tenfold q) as H0.
  assert (Hs : forall n k, Unsigned.to_lu (n + N.succ k)
                           = Little.succ (Unsigned.to_lu (n + k))).
  { intros n k. by rewrite N.add_succ_r, Unsigned.to_lu_succ. }
  destruct Hcases as [-> | [-> | [-> | [-> | [-> | [-> | [-> | [-> | [-> | ->]]]]]]]]].
  - by rewrite N.add_0_r.
  - change 1%N with (N.succ 0). rewrite Hs, N.add_0_r, H0. reflexivity.
  - change 2%N with (N.succ (N.succ 0)). rewrite !Hs, N.add_0_r, H0. reflexivity.
  - change 3%N with (N.succ (N.succ (N.succ 0))).
    rewrite !Hs, N.add_0_r, H0. reflexivity.
  - change 4%N with (N.succ (N.succ (N.succ (N.succ 0)))).
    rewrite !Hs, N.add_0_r, H0. reflexivity.
  - change 5%N with (N.succ (N.succ (N.succ (N.succ (N.succ 0))))).
    rewrite !Hs, N.add_0_r, H0. reflexivity.
  - change 6%N with (N.succ (N.succ (N.succ (N.succ (N.succ (N.succ 0)))))).
    rewrite !Hs, N.add_0_r, H0. reflexivity.
  - change 7%N
      with (N.succ (N.succ (N.succ (N.succ (N.succ (N.succ (N.succ 0))))))).
    rewrite !Hs, N.add_0_r, H0. reflexivity.
  - change 8%N
      with (N.succ (N.succ (N.succ (N.succ (N.succ (N.succ (N.succ
              (N.succ 0)))))))).
    rewrite !Hs, N.add_0_r, H0. reflexivity.
  - change 9%N
      with (N.succ (N.succ (N.succ (N.succ (N.succ (N.succ (N.succ
              (N.succ (N.succ 0))))))))).
    rewrite !Hs, N.add_0_r, H0. reflexivity.
Qed.

Lemma string_of_revapp (l d : Decimal.uint) :
  NilEmpty.string_of_uint (revapp l d) = str_of_lu l (NilEmpty.string_of_uint d).
Proof. revert d. induction l; intros d'; simpl; by rewrite ?IHl. Qed.

Lemma str_of_lu_acc (l : Decimal.uint) (acc : string) :
  str_of_lu l acc = str_of_lu l EmptyString +:+ acc.
Proof.
  revert acc. induction l; intros acc; simpl; [done | ..];
    rewrite IHl, (IHl (String _ EmptyString)), string_app_assoc; reflexivity.
Qed.

Lemma py_str_int_pos (p : positive) : py_str_int (Z.pos p) = dec p.
Proof.
  unfold py_str_int, dec. simpl.
  pose proof (Unsigned.to_uint_nonnil p). by destruct (Pos.to_uint p).
Qed.

Lemma py_str_int_neg (p : positive) : py_str_int (Z.neg p) = String "-" (dec p).
Proof.
  unfold py_str_int, dec. simpl.
  pose proof (Unsigned.to_uint_nonnil p). by destruct (Pos.to_uint p).
Qed.

Lemma dec_lu (p : positive) : dec p = str_of_lu (Unsigned.to_lu (N.pos p)) EmptyString.
Proof. unfold dec, Pos.to_uint, Decimal.rev. by rewrite string_of_revapp. Qed.

(** The last digit of an int of two digits or more. *)
Lemma py_str_int_snoc (q c : Z) :
  0 < q -> 0 <= c < 10 ->
  py_str_int (10 * q + c) = py_str_int q +:+ String (digit_char c) EmptyString.
Proof.
  intros Hq Hc. destruct q as [| q | q]; [lia | | lia].
  destruct (10 * Z.pos q + c) as [| p | p] eqn:Hp; [lia | | lia].
  rewrite !py_str_int_pos, !dec_lu.
  replace (N.pos p) with (10 * N.pos q + Z.to_N c)%N by lia.
  rewrite to_lu_digit by lia.
  assert (Hcases : c = 0 \/ c = 1 \/ c = 2 \/ c = 3 \/ c = 4 \/ c = 5 \/ c = 6
                   \/ c = 7 \/ c = 8 \/ c = 9) by lia.
  destruct Hcases as [-> | [-> | [-> | [-> | [-> | [-> | [-> | [-> | [-> | ->]]]]]]]]];
    simpl; by rewrite str_of_lu_acc.
Qed.

Lemma string_app_length (a b : string) :
  String.length (a +:+ b) = (String.length a + String.length b)%nat.
Proof.
  induction a as [| x a IH]; [done |].
  rewrite string_app_cons. simpl. by rewrite IH.
Qed.

Lemma zeros_snoc (n : nat) : zeros n +:+ "0" = zeros (S n).
Proof.
  induction n as [| n IH]; [done |].
  change (zeros (S n)) with (String "0" (zeros n)).
  rewrite string_app_cons, IH. reflexivity.
Qed.

(** Trailing zeros. *)
Lemma py_str_int_pow10 (b : Z) (u : nat) :
  0 < b -> py_str_int (b * 10 ^ Z.of_nat u) = py_str_int b +:+ zeros u.
Proof.
  intros Hb. induction u as [| u IH].
  - simpl. by rewrite Z.mul_1_r, string_app_nil_r.
  - rewrite Nat2Z.inj_succ, Z.pow_succ_r by lia.
    replace (b * (10 * 10 ^ Z.of_nat u)) with (10 * (b * 10 ^ Z.of_nat u) + 0)
      by lia.
    rewrite py_str_int_snoc by nia.
    rewrite IH, string_app_assoc. f_equal. apply zeros_snoc.
Qed.

(** The number of digits. *)
Lemma py_str_int_length (n : nat) :
  forall a, 10 ^ Z.of_nat n <= a < 10 ^ (Z.of_nat n + 1) ->
    String.length (py_str_int a) = S n.
Proof.
  induction n as [| n IH]; intros a Ha.
  - simpl in Ha.
    assert (Hcases : a = 1 \/ a = 2 \/ a = 3 \/ a = 4 \/ a = 5 \/ a = 6
                     \/ a = 7 \/ a = 8 \/ a = 9) by lia.
    destruct Hcases as [-> | [-> | [-> | [-> | [-> | [-> | [-> | [-> | ->]]]]]]]];
      reflexivity.
  - assert (H1 : 10 ^ Z.of_nat (S n) = 10 * 10 ^ Z.of_nat n).
    { rewrite Nat2Z.inj_succ. apply Z.pow_succ_r. lia. }
    assert (H2 : 10 ^ (Z.of_nat (S n) + 1) = 100 * 10 ^ Z.of_nat n).
    { rewrite Z.pow_add_r, H1 by lia. lia. }
    assert (H3 : 10 ^ (Z.of_nat n + 1) = 10 * 10 ^ Z.of_nat n).
    { rewrite Z.pow_add_r by lia. lia. }
    rewrite H1, H2 in Ha.
    rewrite (Z.div_mod a 10) by lia.
    assert (Hq : 10 ^ Z.of_nat n <= a / 10 < 10 ^ (Z.of_nat n + 1)).
    { rewrite H3. split.
      - apply Z.div_le_lower_bound; lia.
      - apply Z.div_lt_upper_bound; lia. }
    assert (0 < 10 ^ Z.of_nat n) by (apply Z.pow_pos_nonneg; lia).
    rewrite py_str_int_snoc.
    + rewrite string_app_length, (IH _ Hq). simpl. lia.
    + lia.
    + apply Z.mod_pos_bound. lia.
Qed.

Lemma digit_char_digit (c : Z) :
  0 <= c < 10 ->
  is_digit (digit_char c) = true /\
  Z.of_nat (nat_of_ascii (digit_char c) - 48) = c.
Proof.
  intros Hc.
  assert (Hcases : c = 0 \/ c = 1 \/ c = 2 \/ c = 3 \/ c = 4 \/ c = 5 \/ c = 6
                   \/ c = 7 \/ c = 8 \/ c = 9) by lia.
  destruct Hcases as [-> | [-> | [-> | [-> | [-> | [-> | [-> | [-> | [-> | ->]]]]]]]]];
    by split.
Qed.

Lemma take_digits_one (c : Z) (rest : string) (acc : Z) (cnt : nat) :
  0 <= c < 10 ->
  take_digits (String (digit_char c) rest) acc cnt
  = take_digits rest (10 * acc + c) (S cnt).
Proof.
  intros Hc. destruct (digit_char_digit c Hc) as [Hd Hv].
  cbn [take_digits]. by rewrite Hd, Hv.
Qed.

Lemma py_str_int_digit (a : Z) :
  0 < a < 10 -> py_str_int a = String (digit_char a) EmptyString.
Proof.
  intros Ha.
  assert (Hcases : a = 1 \/ a = 2 \/ a = 3 \/ a = 4 \/ a = 5 \/ a = 6
                   \/ a = 7 \/ a = 8 \/ a = 9) by lia.
  destruct Hcases as [-> | [-> | [-> | [-> | [-> | [-> | [-> | [-> | ->]]]]]]]];
    reflexivity.
Qed.

(** Reading the digits of a positive int. *)
Lemma take_digits_py_str_int (n : nat) :
  forall a rest acc cnt,
    0 < a < 10 ^ Z.of_nat n ->
    take_digits (py_str_int a +:+ rest) acc cnt
    = take_digits rest (acc * 10 ^ Z.of_nat (String.length (py_str_int a)) + a)
                  (cnt + String.length (py_str_int a)).
Proof.
  induction n as [| n IH]; intros a rest acc cnt Ha.
  - change (10 ^ Z.of_nat 0) with 1 in Ha. lia.
  - destruct (Z_lt_le_dec a 10) as [Hlt | Hge].
    + rewrite py_str_int_digit by lia.
      change (String (digit_char a) "" +:+ rest) with (String (digit_char a) rest).
      rewrite take_digits_one by lia.
      change (String.length (String (digit_char a) "")) with 1%nat.
      change (10 ^ Z.of_nat 1) with 10.
      f_equal; lia.
    + assert (H1 : 10 ^ Z.of_nat (S n) = 10 * 10 ^ Z.of_nat n).
      { rewrite Nat2Z.inj_succ. apply Z.pow_succ_r. lia. }
      rewrite H1 in Ha.
      assert (Hq : 0 < a / 10 < 10 ^ Z.of_nat n).
      { split.
        - apply Z.div_str_pos. lia.
        - apply Z.div_lt_upper_bound; lia. }
      pose proof (Z.mod_pos_bound a 10 ltac:(lia)) as Hc.
      pose proof (Z.div_mod a 10 ltac:(lia)) as Hdm.
      set (q := a / 10) in *. set (c := a mod 10) in *.
      assert (Hstr : py_str_int a
                     = py_str_int q +:+ String (digit_char c) EmptyString).
      { rewrite Hdm. apply py_str_int_snoc; lia. }
      rewrite Hstr.
      rewrite string_app_assoc, string_app_length.
      rewrite (IH q) by done.
      change (String (digit_char c) "" +:+ rest) with (String (digit_char c) rest).
      rewrite take_digits_one by lia.
      change (String.length (String (digit_char c) "")) with 1%nat.
      f_equal.
      * rewrite Nat2Z.inj_add, Z.pow_add_r by lia.
        change (10 ^ Z.of_nat 1) with 10. lia.
      * lia.
Qed.

(* ================================================================== *)
(** * str and float on floats that are ints                             *)
(* ================================================================== *)

Lemma round_half_even_exact (q d : Z) : 0 < d -> round_half_even (q * d) d = q.
Proof.
  intros Hd. unfold round_half_even.
  rewrite Z.mod_mul, Z.div_mul by lia.
  change (2 * 0) with 0. by rewrite (proj2 (Z.compare_lt_iff 0 d) Hd).
Qed.

Lemma below_pow10_integer (a d k : Z) :
  0 < a -> 0 < d ->
  below_pow10 (a * d) d k = (0 <=? k) && (a <? 10 ^ k).
Proof.
  intros Ha Hd. unfold below_pow10.
  destruct (0 <=? k) eqn:Hk; simpl.
  - apply Z.leb_le in Hk.
    destruct (a <? 10 ^ k) eqn:Hlt.
    + apply Z.ltb_lt in Hlt. apply Z.ltb_lt. nia.
    + apply Z.ltb_ge in Hlt. apply Z.ltb_ge. nia.
  - apply Z.leb_gt in Hk. apply Z.ltb_ge.
    assert (HP : 0 < 10 ^ (- k)) by (apply Z.pow_pos_nonneg; lia).
    assert (H1 : 1 <= a * 10 ^ (- k)) by nia.
    replace (a * d * 10 ^ (- k)) with (d * (a * 10 ^ (- k))) by lia.
    nia.
Qed.

Lemma find_decpt_spec (n d : Z) (fuel : nat) :
  forall k r,
    k <= r < k + Z.of_nat fuel ->
    below_pow10 n d r = true ->
    (forall k', k <= k' < r -> below_pow10 n d k' = false) ->
    find_decpt fuel n d k = r.
Proof.
  induction fuel as [| fuel IH]; intros k r Hr Hb Hbefore; [lia |].
  simpl. destruct (Z.eq_dec k r) as [-> | Hne].
  - by rewrite Hb.
  - rewrite Hbefore by lia. apply IH; [lia | done |].
    intros k' Hk'. apply Hbefore. lia.
Qed.

(** The estimate of the number of digits from the binary logarithm is
    at most one too high and at most six too low. *)
Lemma start_bounds (L : Z) :
  0 <= L < 40 ->
  let start := ((L - 1) * 30103) / 100000 - 1 in
  10 ^ (start - 1) <= 2 ^ L /\ 2 ^ (L + 1) <= 10 ^ (start + 7) /\ 0 <= start + 7.
Proof.
  intros HL. rewrite <- (Z2Nat.id L) by lia.
  assert (Hn : (Z.to_nat L < 40)%nat) by lia.
  generalize dependent (Z.to_nat L). clear L HL. intros n Hn.
  do 40 (destruct n as [| n];
         [vm_compute; repeat split; discriminate |]).
  lia.
Qed.

Ltac try_digits a k :=
  let lo := eval vm_compute in (10 ^ (k - 1)) in
  let hi := eval vm_compute in (10 ^ k) in
  destruct (Z_lt_le_dec a hi);
  [exists k; split; [lia |];
   change (10 ^ (k - 1)) with lo; change (10 ^ k) with hi; lia |].

(** The number of decimal digits of a positive int. *)
Lemma digits_bounds (a : Z) :
  0 < a < 10 ^ 12 -> exists r, 1 <= r <= 12 /\ 10 ^ (r - 1) <= a < 10 ^ r.
Proof.
  intros Ha. change (10 ^ 12) with 1000000000000 in Ha.
  try_digits a 1. try_digits a 2. try_digits a 3. try_digits a 4.
  try_digits a 5. try_digits a 6. try_digits a 7. try_digits a 8.
  try_digits a 9. try_digits a 10. try_digits a 11. try_digits a 12.
  lia.
Qed.

Lemma find_decpt_integer (a d r : Z) :
  0 < a < 10 ^ 12 -> 0 < d ->
  1 <= r -> 10 ^ (r - 1) <= a < 10 ^ r ->
  find_decpt 8 (a * d) d (((Z.log2 a - 1) * 30103) / 100000 - 1) = r.
Proof.
  intros Ha Hd Hr Hbounds.
  assert (HL : 0 <= Z.log2 a < 40).
  { split; [apply Z.log2_nonneg |].
    apply Z.log2_lt_pow2; [lia |]. change (2 ^ 40) with 1099511627776.
    change (10 ^ 12) with 1000000000000 in Ha. lia. }
  pose proof (start_bounds (Z.log2 a) HL) as Hst. simpl in Hst.
  set (start := ((Z.log2 a - 1) * 30103) / 100000 - 1) in *.
  destruct Hst as (Hlo & Hhi & Hnn).
  pose proof (Z.log2_spec a ltac:(lia)) as [Hla Hlb].
  rewrite <- Z.add_1_r in Hlb.
  assert (H1 : start - 1 < r).
  { apply (Z.pow_lt_mono_r_iff 10); lia. }
  assert (H2 : r - 1 < start + 7).
  { apply (Z.pow_lt_mono_r_iff 10); lia. }
  apply find_decpt_spec.
  - simpl Z.of_nat. lia.
  - rewrite below_pow10_integer by lia.
    apply andb_true_iff. split; [apply Z.leb_le; lia | apply Z.ltb_lt; lia].
  - intros k' Hk'. rewrite below_pow10_integer by lia.
    destruct (0 <=? k') eqn:H0; [| done]. apply Z.leb_le in H0. simpl.
    apply Z.ltb_ge.
    transitivity (10 ^ (r - 1)); [| lia].
    apply Z.pow_le_mono_r; lia.
Qed.

Lemma decimal_digits_integer (a j r : Z) :
  0 < a < 10 ^ 12 -> 0 <= j ->
  1 <= r <= 12 -> 10 ^ (r - 1) <= a < 10 ^ r ->
  decimal_digits 12 (a * 2 ^ j) (2 ^ j) = (a * 10 ^ (12 - r), r).
Proof.
  intros Ha Hj Hr Hbounds.
  assert (Hd : 0 < 2 ^ j) by (apply Z.pow_pos_nonneg; lia).
  unfold decimal_digits.
  rewrite Z.log2_mul_pow2, Z.log2_pow2 by lia.
  replace (j + Z.log2 a - j - 1) with (Z.log2 a - 1) by lia.
  rewrite (find_decpt_integer a (2 ^ j) r) by (done || lia).
  rewrite (proj2 (Z.leb_le 0 (12 - r))) by lia.
  replace (a * 2 ^ j * 10 ^ (12 - r)) with ((a * 10 ^ (12 - r)) * 2 ^ j) by lia.
  rewrite round_half_even_exact by done.
  assert (Hlt : a * 10 ^ (12 - r) < 10 ^ 12).
  { replace 12 with (r + (12 - r)) at 2 by lia.
    rewrite Z.pow_add_r by lia.
    assert (0 < 10 ^ (12 - r)) by (apply Z.pow_pos_nonneg; lia). nia. }
  rewrite (proj2 (Z.eqb_neq _ _)) by lia. reflexivity.
Qed.

Lemma strip_zeros_spec (fuel : nat) :
  forall N, 0 < N < 10 ^ Z.of_nat fuel ->
    exists t : nat,
      N = strip_zeros fuel N * 10 ^ Z.of_nat t /\
      strip_zeros fuel N mod 10 <> 0 /\ 0 < strip_zeros fuel N.
Proof.
  induction fuel as [| fuel IH]; intros N HN.
  - change (10 ^ Z.of_nat 0) with 1 in HN. lia.
  - rewrite Nat2Z.inj_succ, Z.pow_succ_r in HN by lia.
    simpl. destruct (N mod 10 =? 0) eqn:Hmod.
    + apply Z.eqb_eq in Hmod.
      pose proof (Z.div_mod N 10 ltac:(lia)) as Hdm.
      destruct (IH (N / 10)) as (t & Ht & Hnz & Hpos); [lia |].
      exists (S t). split; [| done].
      rewrite Nat2Z.inj_succ, Z.pow_succ_r by lia. lia.
    + apply Z.eqb_neq in Hmod. exists 0%nat. split; [| split; [done | lia]].
      change (10 ^ Z.of_nat 0) with 1. lia.
Qed.

(** The significant digits of [a * 10^s] are those of [a]. *)
Lemma strip_zeros_integer (a s : Z) :
  0 < a -> 0 <= s -> a * 10 ^ s < 10 ^ 12 ->
  exists u : nat,
    a = strip_zeros 12 (a * 10 ^ s) * 10 ^ Z.of_nat u /\
    0 < strip_zeros 12 (a * 10 ^ s).
Proof.
  intros Ha Hs Hlt.
  assert (HP : 0 < 10 ^ s) by (apply Z.pow_pos_nonneg; lia).
  destruct (strip_zeros_spec 12 (a * 10 ^ s)) as (t & Ht & Hnz & Hpos).
  { split; [nia | done]. }
  set (b := strip_zeros 12 (a * 10 ^ s)) in *.
  destruct (Z_lt_le_dec (Z.of_nat t) s) as [Hts | Hts].
  - exfalso. apply Hnz.
    assert (Hb : b = a * 10 ^ (s - Z.of_nat t - 1) * 10).
    { assert (HPt : 0 < 10 ^ Z.of_nat t) by (apply Z.pow_pos_nonneg; lia).
      apply (Z.mul_reg_r _ _ (10 ^ Z.of_nat t)); [lia |].
      rewrite <- Ht.
      replace s with ((s - Z.of_nat t - 1) + 1 + Z.of_nat t) at 1 by lia.
      rewrite !Z.pow_add_r by lia. lia. }
    rewrite Hb. apply Z.mod_mul. lia.
  - exists (Z.to_nat (Z.of_nat t - s)). split; [| done].
    apply (Z.mul_reg_r _ _ (10 ^ s)); [lia |].
    rewrite Ht at 1. rewrite <- Z.mul_assoc, <- Z.pow_add_r by lia.
    do 2 f_equal. lia.
Qed.

(** A finite float that is equal to an int [z]: its numerator over its
    denominator is [|z|]. *)
Lemma int_key_finite (x : float) (s : bool) (m : positive) (e z : Z) :
  Prim2SF x = S754_finite s m e ->
  int_key x = Some z ->
  exists a j,
    0 < a /\ 0 <= j /\ z = (if s then - a else a) /\
    (if 0 <=? e then Z.pos m * 2 ^ e else Z.pos m) = a * 2 ^ j /\
    (if 0 <=? e then 1 else 2 ^ (- e)) = 2 ^ j /\
    (e < 0 -> j = - e).
Proof.
  intros Hx. unfold int_key. rewrite Hx.
  destruct (Z.shiftl (Z.shiftl (Z.pos m) e) (- e) =? Z.pos m) eqn:Hchk; [| done].
  intros [= <-]. apply Z.eqb_eq in Hchk.
  destruct (0 <=? e) eqn:He.
  - apply Z.leb_le in He. exists (Z.pos m * 2 ^ e), 0.
    rewrite Z.shiftl_mul_pow2 by done.
    assert (0 < 2 ^ e) by (apply Z.pow_pos_nonneg; lia).
    change (2 ^ 0) with 1.
    split; [nia |]. split; [lia |]. split; [done |].
    split; [lia |]. split; [done | lia].
  - apply Z.leb_gt in He. exists (Z.shiftl (Z.pos m) e), (- e).
    rewrite Z.shiftl_mul_pow2 in Hchk by lia.
    assert (0 < 2 ^ (- e)) by (apply Z.pow_pos_nonneg; lia).
    split; [nia |]. split; [lia |]. split; [done |].
    split; [lia |]. split; [done | done].
Qed.

(** [str] of a float that is a nonzero int below [10^12]: the digits of
    the int followed by [.0]. *)
Lemma py_str_float_integer (x : float) (z : Z) :
  int_key x = Some z -> z <> 0 -> Z.abs z < 10 ^ 12 ->
  py_str_float x = py_str_int z +:+ ".0".
Proof.
  intros Hkey Hz Hlt. unfold py_str_float.
  destruct (Prim2SF x) as [sg | sg | | s m e] eqn:Hx;
    try (unfold int_key in Hkey; rewrite Hx in Hkey; done).
  { unfold int_key in Hkey. rewrite Hx in Hkey. by injection Hkey as <-. }
  destruct (int_key_finite x s m e z Hx Hkey)
    as (a & j & Ha & Hj & -> & -> & -> & _).
  assert (Ha12 : 0 < a < 10 ^ 12) by (destruct s; lia).
  destruct (digits_bounds a Ha12) as (r & Hr & Hbounds).
  rewrite (decimal_digits_integer a j r) by (done || lia).
  assert (HP : 0 < 10 ^ (12 - r)) by (apply Z.pow_pos_nonneg; lia).
  destruct (strip_zeros_integer a (12 - r)) as (u & Hu & Hb); [lia | lia | |].
  { replace 12 with (r + (12 - r)) at 2 by lia.
    rewrite Z.pow_add_r by lia. nia. }
  set (b := strip_zeros 12 (a * 10 ^ (12 - r))) in *.
  assert (Hstr : py_str_int a = py_str_int b +:+ zeros u).
  { rewrite Hu at 1. by apply py_str_int_pow10. }
  assert (Hlen : String.length (py_str_int a) = Z.to_nat r).
  { rewrite (py_str_int_length (Z.to_nat (r - 1)) a).
    - lia.
    - rewrite Z2Nat.id by lia. by replace (r - 1 + 1) with r by lia. }
  assert (Hzeros : String.length (zeros u) = u).
  { clear. induction u as [| u IH]; [done |]. simpl. by rewrite IH. }
  rewrite Hstr, string_app_length, Hzeros in Hlen.
  rewrite (proj2 (Z.ltb_ge _ _)) by lia.
  rewrite (proj2 (Z.leb_gt _ _)) by lia.
  rewrite (proj2 (Z.leb_gt _ _)) by lia.
  rewrite (proj2 (Z.leb_le _ _)) by lia.
  replace (Z.to_nat r - String.length (py_str_int b))%nat with u by lia.
  simpl orb. cbv iota.
  destruct s.
  - destruct a as [| p | p]; [lia | | lia].
    change (- Z.pos p) with (Z.neg p). rewrite py_str_int_neg.
    rewrite <- py_str_int_pos, Hstr.
    change ("-" +:+ ?t) with (String "-" t).
    rewrite string_app_cons. by rewrite !string_app_assoc.
  - by rewrite Hstr, !string_app_assoc.
Qed.

Lemma digits2_pos_bounds (m : positive) :
  2 ^ (Z.pos (digits2_pos m) - 1) <= Z.pos m < 2 ^ Z.pos (digits2_pos m).
Proof.
  induction m as [m IH | m IH |]; simpl digits2_pos.
  - rewrite Pos2Z.inj_succ.
    replace (Z.succ (Z.pos (digits2_pos m)) - 1)
      with (Z.succ (Z.pos (digits2_pos m) - 1)) by lia.
    rewrite !Z.pow_succ_r by lia. lia.
  - rewrite Pos2Z.inj_succ.
    replace (Z.succ (Z.pos (digits2_pos m)) - 1)
      with (Z.succ (Z.pos (digits2_pos m) - 1)) by lia.
    rewrite !Z.pow_succ_r by lia. lia.
  - done.
Qed.

(** The mantissa and the exponent of a float that is an int below
    [10^12]. *)
Lemma integer_float_shape (x : float) (s : bool) (m : positive) (e a j : Z) :
  Prim2SF x = S754_finite s m e ->
  0 < a < 10 ^ 12 -> 0 <= j ->
  (if 0 <=? e then Z.pos m * 2 ^ e else Z.pos m) = a * 2 ^ j ->
  (if 0 <=? e then 1 else 2 ^ (- e)) = 2 ^ j ->
  (e < 0 -> j = - e) ->
  - 52 <= e < 0 /\ Z.pos m = a * 2 ^ (- e) /\ 2 ^ 52 <= Z.pos m < 2 ^ 53.
Proof.
  intros Hx Ha Hj Hn Hd He.
  pose proof (Prim2SF_valid x) as Hv. rewrite Hx in Hv.
  unfold valid_binary, bounded, canonical_mantissa, fexp in Hv.
  apply andb_true_iff in Hv as [Hc _]. apply Z.eqb_eq in Hc.
  change (SpecFloat.emin prec emax) with (-1074) in Hc.
  change prec with 53 in Hc.
  pose proof (digits2_pos_bounds m) as Hm.
  change (10 ^ 12) with 1000000000000 in Ha.
  destruct (0 <=? e) eqn:H0.
  - apply Z.leb_le in H0. exfalso.
    assert (Hdig : Z.pos (digits2_pos m) = 53) by lia.
    rewrite Hdig in Hm. change (2 ^ (53 - 1)) with 4503599627370496 in Hm.
    assert (Hj0 : j = 0).
    { destruct (Z.eq_dec j 0) as [| Hne]; [done |].
      assert (2 ^ 1 <= 2 ^ j) by (apply Z.pow_le_mono_r; lia).
      change (2 ^ 1) with 2 in *. lia. }
    subst j. change (2 ^ 0) with 1 in Hn.
    assert (0 < 2 ^ e) by (apply Z.pow_pos_nonneg; lia). nia.
  - apply Z.leb_gt in H0. specialize (He H0). subst j.
    assert (HP : 0 < 2 ^ (- e)) by (apply Z.pow_pos_nonneg; lia).
    assert (Hdig : Z.pos (digits2_pos m) = 53).
    { destruct (Z.max_spec (Z.pos (digits2_pos m) + e - 53) (-1074))
        as [[Hlt Hmax] | [Hle Hmax]]; [| lia].
      exfalso. rewrite Hmax in Hc. subst e.
      assert (Hlt53 : Z.pos m < 2 ^ 53).
      { eapply Z.lt_le_trans; [apply Hm |]. apply Z.pow_le_mono_r; lia. }
      assert (2 ^ 53 <= 2 ^ (- -1074)) by (apply Z.pow_le_mono_r; lia).
      nia. }
    rewrite Hdig in Hm. change (53 - 1) with 52 in Hm.
    split; [| done].
    split; [| done].
    destruct (Z_lt_le_dec e (-52)) as [Hlt | Hge]; [| done].
    exfalso.
    assert (2 ^ 53 <= 2 ^ (- e)) by (apply Z.pow_le_mono_r; lia).
    nia.
Qed.

Lemma float_of_ratio_integer (a : Z) (m : positive) (e : Z) :
  0 < a -> - 52 <= e < 0 ->
  Z.pos m = a * 2 ^ (- e) -> 2 ^ 52 <= Z.pos m < 2 ^ 53 ->
  float_of_ratio (10 * a) 10 = Z.ldexp (of_uint63 (Uint63.of_Z (Z.pos m))) e.
Proof.
  intros Ha He Hm Hbounds. unfold float_of_ratio.
  rewrite (proj2 (Z.eqb_neq (10 * a) 0)) by lia.
  assert (HLa : Z.log2 a = 52 + e).
  { assert (Hlog : Z.log2 (Z.pos m) = 52).
    { apply Z.log2_unique; [lia |]. change (52 + 1) with 53. done. }
    rewrite Hm, Z.log2_mul_pow2 in Hlog by lia. lia. }
  pose proof (Z.log2_spec a Ha) as [Hla Hlb]. rewrite HLa in Hla, Hlb.
  pose proof (Z.log2_spec (10 * a) ltac:(lia)) as [Hka Hkb].
  set (K := Z.log2 (10 * a)) in *.
  assert (HK0 : 0 <= K) by apply Z.log2_nonneg.
  assert (HK : K = 52 + e + 3 \/ K = 52 + e + 4).
  { assert (H1 : K < 52 + e + 5).
    { apply (Z.pow_lt_mono_r_iff 2); [lia | lia |].
      replace (52 + e + 5) with (Z.succ (52 + e) + 4) by lia.
      rewrite Z.pow_add_r by lia. change (2 ^ 4) with 16. lia. }
    assert (H2 : 52 + e + 3 < Z.succ K).
    { apply (Z.pow_lt_mono_r_iff 2); [lia | lia |].
      rewrite Z.pow_add_r by lia. change (2 ^ 3) with 8. lia. }
    lia. }
  change (Z.log2 10) with 3.
  assert (Hpow : 2 ^ (- e + 1) = 2 * 2 ^ (- e)).
  { rewrite Z.pow_add_r by lia. lia. }
  assert (Hq : forall E, E = e ->
            (if 0 <=? Z.max E (-1074)
             then round_half_even (10 * a) (10 * 2 ^ Z.max E (-1074))
             else round_half_even (10 * a * 2 ^ (- Z.max E (-1074))) 10)
            = Z.pos m /\ Z.max E (-1074) = e).
  { intros E ->. rewrite Z.max_l by lia.
    rewrite (proj2 (Z.leb_gt 0 e)) by lia. split; [| done].
    replace (10 * a * 2 ^ (- e)) with (Z.pos m * 10) by lia.
    apply round_half_even_exact. lia. }
  destruct HK as [HK | HK]; rewrite HK.
  - replace (52 + e + 3 - 3 - 53) with (e - 1) by lia.
    rewrite (proj2 (Z.leb_gt 0 (e - 1))) by lia.
    replace (- (e - 1)) with (- e + 1) by lia.
    replace (10 * a * 2 ^ (- e + 1)) with ((2 * Z.pos m) * 10) by lia.
    rewrite Z.div_mul by lia.
    rewrite (proj2 (Z.leb_le (2 ^ 53) (2 * Z.pos m))).
    2:{ change (2 ^ 53) with (2 * 2 ^ 52). lia. }
    destruct (Hq (e - 1 + 1) ltac:(lia)) as [-> ->]. reflexivity.
  - replace (52 + e + 4 - 3 - 53) with e by lia.
    rewrite (proj2 (Z.leb_gt 0 e)) by lia.
    replace (10 * a * 2 ^ (- e)) with (Z.pos m * 10) by lia.
    rewrite Z.div_mul by lia.
    rewrite (proj2 (Z.leb_gt (2 ^ 53) (Z.pos m))) by lia.
    destruct (Hq e eq_refl) as [-> ->]. reflexivity.
Qed.

Lemma digit_eqb (ch c : ascii) :
  is_digit ch = true -> is_digit c = false -> Ascii.eqb ch c = false.
Proof.
  intros Hch Hc. destruct (Ascii.eqb ch c) eqn:Heq; [| done].
  apply Ascii.eqb_eq in Heq as ->. congruence.
Qed.

Lemma lower_digit (ch : ascii) : is_digit ch = true -> lower ch = ch.
Proof.
  unfold is_digit, lower. intros [H1 H2]%andb_true_iff.
  apply Nat.leb_le in H1, H2.
  rewrite (proj2 (Nat.leb_gt 65 (nat_of_ascii ch))) by lia. done.
Qed.

(** The text of a positive int starts with a digit. *)
Lemma py_str_int_head (n : nat) :
  forall a, 0 < a < 10 ^ Z.of_nat n ->
    exists ch r, py_str_int a = String ch r /\ is_digit ch = true.
Proof.
  induction n as [| n IH]; intros a Ha.
  - change (10 ^ Z.of_nat 0) with 1 in Ha. lia.
  - destruct (Z_lt_le_dec a 10) as [Hlt | Hge].
    + exists (digit_char a), EmptyString. split.
      * apply py_str_int_digit. lia.
      * apply digit_char_digit. lia.
    + assert (H1 : 10 ^ Z.of_nat (S n) = 10 * 10 ^ Z.of_nat n).
      { rewrite Nat2Z.inj_succ. apply Z.pow_succ_r. lia. }
      rewrite H1 in Ha.
      assert (Hq : 0 < a / 10 < 10 ^ Z.of_nat n).
      { split.
        - apply Z.div_str_pos. lia.
        - apply Z.div_lt_upper_bound; lia. }
      pose proof (Z.mod_pos_bound a 10 ltac:(lia)) as Hc.
      destruct (IH (a / 10) Hq) as (ch & r & Hstr & Hch).
      exists ch, (r +:+ String (digit_char (a mod 10)) EmptyString).
      split; [| done].
      rewrite (Z.div_mod a 10) at 1 by lia.
      rewrite py_str_int_snoc by lia. by rewrite Hstr.
Qed.

(** [float] of the digits of a positive int followed by [.0]. *)
Lemma py_float_integer_text (a : Z) :
  0 < a < 10 ^ 12 ->
  py_float (py_str_int a +:+ ".0") = inr (float_of_ratio (10 * a) 10) /\
  py_float (String "-" (py_str_int a +:+ ".0"))
  = inr (- float_of_ratio (10 * a) 10)%float.
Proof.
  intros Ha.
  destruct (py_str_int_head 12 a Ha) as (ch & r & Hstr & Hch).
  assert (Hbody : forall neg : bool,
            (let body := py_str_int a +:+ ".0" in
             let signed (x : float) : float := if neg then (- x)%float else x in
             let low := str_lower body in
             if (String.eqb low "inf" || String.eqb low "infinity")%bool
             then inr (signed infinity)
             else if String.eqb low "nan" then inr nan
             else
               let '(ip, ni, r1) := take_digits body 0 0 in
               let '(m, nf, r2) :=
                 match r1 with
                 | String "." r => take_digits r ip 0
                 | _ => (ip, 0%nat, r1)
                 end in
               if (ni + nf =? 0)%nat then inl ValueError
               else
                 match r2 with
                 | EmptyString => inr (signed (float_of_decimal m (- Z.of_nat nf)))
                 | String c r3 =>
                     if (Ascii.eqb c "e" || Ascii.eqb c "E")%bool then
                       let '(eneg, r4) := split_sign r3 in
                       let '(ex, ne, r5) := take_digits r4 0 0 in
                       if ((ne =? 0)%nat || negb (String.eqb r5 EmptyString))%bool
                       then inl ValueError
                       else
                         let ex' := if eneg : bool then - ex else ex in
                         inr (signed (float_of_decimal m (ex' - Z.of_nat nf)))
                     else @inl exn float ValueError
                 end)
            = inr ((if neg then fun x => (- x)%float else fun x => x)
                     (float_of_ratio (10 * a) 10))).
  { intros neg. cbv zeta.
    assert (Hlow : exists t, str_lower (py_str_int a +:+ ".0") = String ch t).
    { rewrite Hstr, string_app_cons. simpl str_lower.
      rewrite (lower_digit ch Hch). by eexists. }
    destruct Hlow as [t ->].
    assert (Hne : forall c s1 s2, is_digit c = false ->
              String.eqb (String ch s1) (String c s2) = false).
    { intros c s1 s2 Hc. simpl. by rewrite (digit_eqb ch c Hch Hc). }
    rewrite !Hne by done. simpl orb. cbv iota.
    rewrite (take_digits_py_str_int 12 a ".0" 0 0 Ha).
    cbn [take_digits]. change (is_digit ".") with false. cbv iota.
    cbn [take_digits]. change (is_digit "0") with true. cbv iota.
    change (Z.of_nat (nat_of_ascii "0" - 48)) with 0.
    rewrite Nat.add_0_l.
    destruct (String.length (py_str_int a) + 1 =? 0)%nat eqn:Hn.
    { apply Nat.eqb_eq in Hn. lia. }
    unfold float_of_decimal. change (0 <=? - Z.of_nat 1) with false. cbv iota.
    change (10 ^ (- - Z.of_nat 1)) with 10.
    rewrite Z.mul_0_l, Z.add_0_l, Z.add_0_r. by destruct neg. }
  unfold py_float. split.
  - assert (Hs : split_sign (py_str_int a +:+ ".0")
                 = (false, py_str_int a +:+ ".0")).
    { rewrite Hstr, string_app_cons. unfold split_sign.
      by rewrite !(digit_eqb ch _ Hch). }
    rewrite Hs. apply (Hbody false).
  - change (split_sign (String "-" (py_str_int a +:+ ".0")))
      with (true, py_str_int a +:+ ".0").
    apply (Hbody true).
Qed.

(** [float(str(x)) == x] for a float that is an int below [10^12]. *)
Lemma reads_back_integer (x : float) (z : Z) :
  int_key x = Some z -> Z.abs z < 10 ^ 12 -> reads_back x.
Proof.
  intros Hkey Hlt. unfold reads_back.
  destruct (Prim2SF x) as [sg | sg | | s m e] eqn:Hx;
    try (unfold int_key in Hkey; rewrite Hx in Hkey; done).
  { rewrite <- (SF2Prim_Prim2SF x). unfold py_str_float. rewrite Hx.
    by destruct sg. }
  destruct (int_key_finite x s m e z Hx Hkey)
    as (a & j & Ha & Hj & Hz & Hn & Hd & He).
  assert (Ha12 : 0 < a < 10 ^ 12) by (destruct s; lia).
  destruct (integer_float_shape x s m e a j Hx Ha12 Hj Hn Hd He)
    as (Hrange & Hm & Hbounds).
  rewrite (py_str_float_integer x z Hkey) by (destruct s; lia).
  destruct (py_float_integer_text a Ha12) as [Hpos Hneg].
  rewrite <- (SF2Prim_Prim2SF x), Hx. unfold SF2Prim.
  rewrite <- (float_of_ratio_integer a m e) by (done || lia).
  subst z. destruct s.
  - destruct a as [| p | p]; [lia | | lia].
    change (- Z.pos p) with (Z.neg p). rewrite py_str_int_neg.
    rewrite <- py_str_int_pos, string_app_cons. apply Hneg.
  - apply Hpos.
Qed.

(* ================================================================== *)
(** * The round trip through the codec                                  *)
(* ================================================================== *)

Lemma uint_of_string_no_space (s : string) (d : Decimal.uint) :
  NilEmpty.uint_of_string s = Some d -> no_space s = true.
Proof.
  revert d. induction s as [| c r IH]; intros d H; [done |].
  simpl in H. destruct (NilEmpty.uint_of_string r) as [d' |] eqn:Hr.
  - simpl. rewrite (IH d') by done.
    destruct c as [[] [] [] [] [] [] [] []]; try discriminate H; reflexivity.
  - destruct c as [[] [] [] [] [] [] [] []]; discriminate H.
Qed.

(** A text that [int(...)] accepts is one word. *)
Lemma py_int_of_str_word (s : string) (z : Z) : py_int_of_str s = inr z -> word s.
Proof.
  unfold py_int_of_str. destruct (split_sign s) as [neg body] eqn:Hsign.
  intros H. apply (split_sign_word s neg body Hsign).
  destruct (NilZero.uint_of_string body) as [d |] eqn:Hd; [| done].
  unfold NilZero.uint_of_string in Hd.
  destruct body as [| c r]; [done |]. split; [done |].
  by apply (uint_of_string_no_space _ d).
Qed.

Lemma py_str_int_word (z : Z) : word (py_str_int z).
Proof. apply (py_int_of_str_word _ z), py_int_of_str_py_str_int. Qed.

Lemma py_split_join_sep (c : ascii) (ls : list string) :
  is_space c = true ->
  py_split (py_join (String c EmptyString) ls) = concat (map py_split ls).
Proof.
  intros Hc. induction ls as [| x rest IH]; [done |].
  destruct rest as [| y rest].
  - simpl. by rewrite app_nil_r.
  - change (py_join (String c EmptyString) (x :: y :: rest))
      with (x +:+ String c (py_join (String c EmptyString) (y :: rest))).
    unfold py_split at 1.
    rewrite split_from_app_space by done.
    change (split_from None (py_join (String c EmptyString) (y :: rest)))
      with (py_split (py_join (String c EmptyString) (y :: rest))).
    by rewrite IH.
Qed.

Lemma concat_map_singleton {A B} (f : A -> B) (g : B -> list B) (l : list A) :
  Forall (fun x => g (f x) = [f x]) l ->
  concat (map g (map f l)) = map f l.
Proof.
  induction 1 as [| x l Hx _ IH]; [done |].
  simpl. by rewrite Hx, IH.
Qed.

(** The words of the data lines that [write] emits are the texts of the
    values, in order. *)
Lemma py_split_data_lines (rows : list (list float)) :
  Forall (fun x => word (py_str_float x)) (concat rows) ->
  py_split (py_join nl (map (fun row => py_join " " (map py_str_float row)) rows))
  = map py_str_float (concat rows).
Proof.
  intros Hw. unfold nl. rewrite py_split_join_sep by done.
  rewrite map_map.
  induction rows as [| row rows IH]; [done |].
  simpl in *. apply Forall_app in Hw as [Hrow Hrows].
  rewrite map_app, IH by done.
  f_equal. rewrite py_split_join.
  apply concat_map_singleton.
  eapply Forall_impl; [exact Hrow |]. intros x Hx. by apply py_split_word.
Qed.

Lemma parse_numbers_reads_back (l : list float) :
  Forall reads_back l ->
  parse_numbers (map py_str_float l) = l.
Proof.
  induction 1 as [| x l Hx _ IH]; [done |].
  simpl. by rewrite Hx, IH.
Qed.

Lemma getnextval_field (label tok rest : string) :
  word label -> word tok ->
  getnextval (label +:+ String " " (tok +:+ nl +:+ rest)) = (inr tok, rest).
Proof.
  intros Hl Ht. rewrite <- (getnextval_line label tok rest Hl Ht).
  by rewrite !string_app_assoc.
Qed.

(** Reading the header that [write] emits. *)
Lemma read_header_header_text (g : ESRIAsc) (body : string) :
  reads_back (xllcorner g) -> reads_back (yllcorner g) ->
  reads_back (NODATA_value g) ->
  read_header (header_text g +:+ body) = (inr (header_dict g), body).
Proof.
  intros Hx Hy Hn.
  pose proof (py_str_int_word (ncols g)) as W0.
  pose proof (py_str_int_word (nrows g)) as W1.
  pose proof (py_float_word _ _ Hx) as W2.
  pose proof (py_float_word _ _ Hy) as W3.
  pose proof (py_str_int_word (cellsize g)) as W4.
  pose proof (py_float_word _ _ Hn) as W5.
  unfold header_text. rewrite !string_app_assoc.
  unfold read_header, bind.
  change ("ncols " +:+ ?r) with ("ncols" +:+ String " " r).
  rewrite getnextval_field by done.
  rewrite py_int_of_str_py_str_int. cbv beta iota delta [lift ret].
  change ("nrows " +:+ ?r) with ("nrows" +:+ String " " r).
  rewrite getnextval_field by done.
  rewrite py_int_of_str_py_str_int. cbv beta iota delta [lift ret].
  change ("xllcorner " +:+ ?r) with ("xllcorner" +:+ String " " r).
  rewrite getnextval_field by done.
  rewrite Hx. cbv beta iota delta [lift ret].
  change ("yllcorner " +:+ ?r) with ("yllcorner" +:+ String " " r).
  rewrite getnextval_field by done.
  rewrite Hy. cbv beta iota delta [lift ret].
  change ("cellsize " +:+ ?r) with ("cellsize" +:+ String " " r).
  rewrite getnextval_field by done.
  rewrite py_int_of_str_py_str_int. cbv beta iota delta [lift ret].
  change ("NODATA_value " +:+ ?r) with ("NODATA_value" +:+ String " " r).
  rewrite getnextval_field by done.
  rewrite Hn. reflexivity.
Qed.

(** Decoding what [write] emits gives the raster back, when [str]
    writes each float so that [float] reads the same number. *)
Lemma decode_write (g : ESRIAsc) :
  0 <= ncols g -> 0 <= nrows g ->
  Z.of_nat (length (data g)) = ncols g * nrows g ->
  no_nan g = true ->
  reads_back (xllcorner g) -> reads_back (yllcorner g) ->
  reads_back (NODATA_value g) ->
  Forall reads_back (data g) ->
  exists out,
    ESRIAsc_write g = inr (g, out) /\
    forall path,
      ESRIAsc_of_file (fun _ => Some out) path
      = inr (mkESRIAsc (Some path) (ncols g) (nrows g) (xllcorner g)
               (yllcorner g) (cellsize g) (NODATA_value g) (data g)).
Proof.
  intros Hc Hr Hlen Hnan Hx Hy Hn Hdata.
  assert (Hnat : length (data g) = (Z.to_nat (nrows g) * Z.to_nat (ncols g))%nat)
    by lia.
  eexists. split.
  - unfold ESRIAsc_write. unfold no_nan in Hnan.
    rewrite (fillna_no_nan _ _ Hnan), set_data_data.
    unfold as_matrix, reshape2.
    rewrite (proj2 (Z.leb_le 0 (nrows g)) Hr), (proj2 (Z.leb_le 0 (ncols g)) Hc).
    simpl. rewrite (proj2 (Z.eqb_eq _ _)) by lia. reflexivity.
  - intros path. unfold ESRIAsc_of_file, ESRIAsc_read, bind.
    rewrite read_header_header_text by done.
    rewrite read_data_run. unfold fromstring.
    rewrite py_split_data_str, py_split_data_lines.
    2:{ rewrite rows_of_concat by done.
        eapply Forall_impl; [exact Hdata |]. intros x Hxx.
        by apply (py_float_word _ x). }
    rewrite rows_of_concat by done.
    rewrite parse_numbers_reads_back by done.
    simpl. rewrite (proj2 (Z.eqb_eq _ _)) by lia. reflexivity.
Qed.

(** A raster read from a file remembers its path. *)
Lemma ESRIAsc_of_file_path (fs : string -> option string)
    (path : string) (g : ESRIAsc) :
  ESRIAsc_of_file fs path = inr g -> file_path g = Some path.
Proof.
  unfold ESRIAsc_of_file.
  destruct (fs path) as [text |]; [| done].
  unfold ESRIAsc_read, bind.
  destruct (read_header text) as [[e | hd] rest]; [done |].
  rewrite read_data_run.
  destruct (_ =? _); [| done]. by intros [= <-].
Qed.

(** C3, as the specification has it, fails in both halves.  The header:
    [raster_text] decodes to a raster without NaN, and its sentinel line
    [NODATA_value -9999] is re-encoded as [NODATA_value -9999.0].  The
    data: the header of [precise_text] is spelled as [write] spells it,
    its value [0.3333333333333333] is written with twelve significant
    digits, as [0.333333333333], and that text decodes to another
    number. *)
Lemma roundtrip_exact_counterexample :
  ~ roundtrip_header raster_text /\
  ~ roundtrip_data precise_text /\
  ~ roundtrip_exact raster_text /\
  ~ roundtrip_exact precise_text /\
  py_float "0.3333333333333333" = inr 0x1.5555555555555p-2%float /\
  py_str_float 0x1.5555555555555p-2 = "0.333333333333"%string /\
  (exists y, py_float "0.333333333333" = inr y /\
             py_eq y 0x1.5555555555555p-2 = false) /\
  py_str_float (-9999) = "-9999.0"%string.
Proof.
  assert (Hheader : ~ roundtrip_header raster_text);
    [| assert (Hdata : ~ roundtrip_data precise_text)];
    [| | split; [done |]; split; [done |];
         split; [by intros [H _] |]; split; [by intros [_ H] |]].
  - intros Hclaim.
    specialize (Hclaim
      (mkESRIAsc (Some "raster.asc") 3 2 0 12.5 10 (-9999)
                 [1; 2; 3; 4.5; -9999; 1000]%float)).
    destruct (ESRIAsc_write
                (mkESRIAsc (Some "raster.asc") 3 2 0 12.5 10 (-9999)
                           [1; 2; 3; 4.5; -9999; 1000]%float))
      as [e | [g' out]] eqn:Hwrite; [by vm_compute in Hwrite |].
    specialize (Hclaim g' out).
    vm_compute in Hwrite. injection Hwrite as <- <-.
    assert (Hlines := Hclaim ltac:(by vm_compute) ltac:(by vm_compute) eq_refl).
    vm_compute in Hlines. discriminate Hlines.
  - intros Hclaim.
    specialize (Hclaim
      (mkESRIAsc (Some "raster.asc") 1 1 0 0 1 (-9999)
                 [0x1.5555555555555p-2]%float)).
    destruct (ESRIAsc_write
                (mkESRIAsc (Some "raster.asc") 1 1 0 0 1 (-9999)
                           [0x1.5555555555555p-2]%float))
      as [e | [g' out]] eqn:Hwrite; [by vm_compute in Hwrite |].
    specialize (Hclaim g' out).
    vm_compute in Hwrite. injection Hwrite as <- <-.
    destruct (Hclaim ltac:(by vm_compute) ltac:(by vm_compute) eq_refl)
      as (g2 & Hdec & Hcells).
    vm_compute in Hdec. injection Hdec as <-.
    apply Forall2_cons_1 in Hcells as [Hcell _].
    vm_compute in Hcell. discriminate Hcell.
  - split; [by vm_compute |]. split; [by vm_compute |].
    split; [| by vm_compute].
    eexists. split; by vm_compute.
Qed.

(** C3, amended.  A file that decodes to a raster with non-negative
    [ncols] and [nrows] and no NaN is re-encoded without error as the
    six header lines of [header_text], which spell the decoded values in
    the encoder's own form, followed by [nrows] lines of [ncols] values
    each, which are the decoded data in order, each printed by [str].
    [ncols], [nrows] and [cellsize] are written as decimal ints that
    read back as the same ints; a float is written by [str], which
    gives a float equal to a nonzero int below [10^12] in magnitude the
    digits of that int followed by [.0], and every float equal to an int
    below [10^12] in magnitude is read back from its text.  When the two
    corners, the sentinel and every data value are read back from their
    texts, decoding the re-encoded text at the same path gives the
    raster that was encoded. *)
Theorem reencode_canonical (fs : string -> option string) (file_path : string)
    (g : ESRIAsc) :
  ESRIAsc_of_file fs file_path = inr g ->
  0 <= ncols g ->
  0 <= nrows g ->
  no_nan g = true ->
  exists rows out,
    ESRIAsc_write g = inr (g, out) /\
    out = header_text g
          +:+ py_join nl (map (fun row => py_join " " (map py_str_float row))
                              rows) /\
    length rows = Z.to_nat (nrows g) /\
    Forall (fun row => length row = Z.to_nat (ncols g)) rows /\
    concat rows = data g /\
    py_int_of_str (py_str_int (ncols g)) = inr (ncols g) /\
    py_int_of_str (py_str_int (nrows g)) = inr (nrows g) /\
    py_int_of_str (py_str_int (cellsize g)) = inr (cellsize g) /\
    (forall x z, int_key x = Some z -> z <> 0 -> Z.abs z < 10 ^ 12 ->
       py_str_float x = py_str_int z +:+ ".0") /\
    (forall x, integral x -> reads_back x) /\
    (reads_back (xllcorner g) -> reads_back (yllcorner g) ->
     reads_back (NODATA_value g) -> Forall reads_back (data g) ->
     ESRIAsc_of_file (fun _ => Some out) file_path = inr g).
Proof.
  intros Hdec Hc Hr Hnan.
  pose proof (ESRIAsc_of_file_length fs file_path g Hdec) as Hlen.
  pose proof (ESRIAsc_of_file_path fs file_path g Hdec) as Hpath.
  assert (Hnat : length (data g) = (Z.to_nat (nrows g) * Z.to_nat (ncols g))%nat)
    by lia.
  assert (Hwrite : ESRIAsc_write g =
            inr (g, header_text g
                    +:+ py_join nl
                          (map (fun row => py_join " " (map py_str_float row))
                               (rows_of (Z.to_nat (nrows g))
                                        (Z.to_nat (ncols g)) (data g))))).
  { unfold ESRIAsc_write. unfold no_nan in Hnan.
    rewrite (fillna_no_nan _ _ Hnan), set_data_data.
    unfold as_matrix, reshape2.
    rewrite (proj2 (Z.leb_le 0 (nrows g)) Hr), (proj2 (Z.leb_le 0 (ncols g)) Hc).
    simpl. rewrite (proj2 (Z.eqb_eq _ _)) by lia. reflexivity. }
  exists (rows_of (Z.to_nat (nrows g)) (Z.to_nat (ncols g)) (data g)).
  eexists. split; [exact Hwrite |]. split; [reflexivity |].
  split; [apply rows_of_length |].
  split; [apply rows_of_width; lia |].
  split; [by apply rows_of_concat |].
  rewrite !py_int_of_str_py_str_int.
  split; [done |]. split; [done |]. split; [done |].
  split; [exact py_str_float_integer |].
  split.
  { intros x (z & Hz & Hlt). by apply (reads_back_integer x z). }
  intros Hx Hy Hn Hdata.
  destruct (decode_write g Hc Hr Hlen Hnan Hx Hy Hn Hdata)
    as (out & Hout & Hback).
  rewrite Hwrite in Hout. injection Hout as <-.
  rewrite Hback, <- Hpath. by destruct g.
Qed.

Lemma reencode_canonical_witness :
  exists out,
    ESRIAsc_write raster_fixture = inr (raster_fixture, out) /\
    ESRIAsc_of_file (fun _ => Some out) "veg.asc" = inr raster_fixture /\
    py_str_float (NODATA_value raster_fixture) = "-9999.0"%string.
Proof.
  destruct (reencode_canonical fs_fixture "veg.asc" raster_fixture)
    as (rows & out & Hwrite & _ & _ & _ & _ & _ & _ & _ & Hstr & Hint & Hback).
  - vm_compute. reflexivity.
  - simpl. lia.
  - simpl. lia.
  - vm_compute. reflexivity.
  - exists out. split; [exact Hwrite |]. split.
    + apply Hback.
      * apply Hint. exists 0. split; [reflexivity | simpl; lia].
      * unfold reads_back. vm_compute. reflexivity.
      * apply Hint. exists (-9999). split; [reflexivity | simpl; lia].
      * repeat constructor; unfold reads_back; vm_compute; reflexivity.
    + apply (Hstr (NODATA_value raster_fixture) (-9999));
        [reflexivity | discriminate | simpl; lia].
Defined.

(* ================================================================== *)
(** * Further properties of the matrix view and of encoding             *)
(* ================================================================== *)

(** Row-major order: cell [c] of row [r] is element [r*width + c]. *)
Lemma rows_of_lookup (count width : nat) :
  forall (l : list float) (r c : nat),
    (r < count)%nat -> (c < width)%nat ->
    rows_of count width l !! r ≫= (.!! c) = l !! (r * width + c)%nat.
Proof.
  induction count as [| count IH]; intros l r c Hr Hc; [lia |].
  destruct r as [| r]; simpl.
  - by apply lookup_take_lt.
  - rewrite IH by lia. rewrite lookup_drop. f_equal. lia.
Qed.

Lemma reshape2_nonneg (l : list float) (nr nc : Z) :
  0 <= nr -> 0 <= nc ->
  reshape2 l nr nc =
    if (nr * nc =? Z.of_nat (length l))
    then inr (rows_of (Z.to_nat nr) (Z.to_nat nc) l)
    else inl ValueError.
Proof.
  intros Hr Hc. unfold reshape2.
  by rewrite (proj2 (Z.leb_le 0 nr) Hr), (proj2 (Z.leb_le 0 nc) Hc).
Qed.

(** X11.  For a raster with non-negative [nrows] and [ncols],
    [as_matrix()] raises [ValueError] unless the data hold exactly
    [nrows*ncols] values; otherwise it gives [nrows] rows of [ncols]
    cells in row-major order: cell [c] of row [r] is [data[r*ncols+c]]. *)
Theorem as_matrix_row_major (self : ESRIAsc) :
  0 <= nrows self -> 0 <= ncols self ->
  (Z.of_nat (length (data self)) <> nrows self * ncols self ->
     as_matrix self None = inl ValueError) /\
  (Z.of_nat (length (data self)) = nrows self * ncols self ->
     exists rows,
       as_matrix self None = inr rows /\
       length rows = Z.to_nat (nrows self) /\
       Forall (fun row => length row = Z.to_nat (ncols self)) rows /\
       forall r c, (r < Z.to_nat (nrows self))%nat ->
                   (c < Z.to_nat (ncols self))%nat ->
         rows !! r ≫= (.!! c)
         = data self !! (r * Z.to_nat (ncols self) + c)%nat).
Proof.
  intros Hr Hc. unfold as_matrix. rewrite reshape2_nonneg by done.
  split; intros Hlen.
  - rewrite (proj2 (Z.eqb_neq _ _)) by lia. reflexivity.
  - rewrite (proj2 (Z.eqb_eq _ _)) by lia. simpl.
    eexists. split; [reflexivity |].
    split; [apply rows_of_length |].
    split; [apply rows_of_width; lia |].
    intros r c Hrr Hcc. by apply rows_of_lookup.
Qed.

Lemma as_matrix_row_major_witness :
  as_matrix (mkESRIAsc None 3 2 0 0 1 (-9999) [1; 2; 3]%float) None
    = inl ValueError /\
  exists rows,
    as_matrix raster_fixture None = inr rows /\
    length rows = Z.to_nat (nrows raster_fixture) /\
    Forall (fun row => length row = Z.to_nat (ncols raster_fixture)) rows /\
    forall r c, (r < Z.to_nat (nrows raster_fixture))%nat ->
                (c < Z.to_nat (ncols raster_fixture))%nat ->
      rows !! r ≫= (.!! c)
      = data raster_fixture !! (r * Z.to_nat (ncols raster_fixture) + c)%nat.
Proof.
  split.
  - apply (as_matrix_row_major (mkESRIAsc None 3 2 0 0 1 (-9999) [1; 2; 3]%float));
      simpl; lia.
  - apply (as_matrix_row_major raster_fixture); simpl; lia.
Defined.

(** X12.  [as_matrix(val)] has the shape and order of [as_matrix()];
    a cell equal to [NODATA_value] is [val], any other cell is kept.  So
    no cell of the result equals the sentinel when [val] does not. *)
Theorem as_matrix_replaces_nodata (self : ESRIAsc) (val : float)
    (m : list (list float)) :
  as_matrix self (Some val) = inr m ->
  exists rows,
    as_matrix self None = inr rows /\
    (forall r c, m !! r ≫= (.!! c) =
       (fun x => if py_eq x (NODATA_value self) then val else x)
         <$> (rows !! r ≫= (.!! c))) /\
    (py_eq val (NODATA_value self) = false ->
     forall r c x, m !! r ≫= (.!! c) = Some x ->
       py_eq x (NODATA_value self) = false).
Proof.
  unfold as_matrix.
  destruct (reshape2 (data self) (nrows self) (ncols self)) as [e | rows];
    simpl; [done |].
  intros [= <-]. exists rows. split; [done |].
  assert (Hcell : forall r c,
            map (map (fun x => if py_eq x (NODATA_value self) then val else x))
                rows !! r ≫= (.!! c) =
            (fun x => if py_eq x (NODATA_value self) then val else x)
              <$> (rows !! r ≫= (.!! c))).
  { intros r c. rewrite list_lookup_fmap.
    destruct (rows !! r) as [row |]; simpl; [| done].
    apply list_lookup_fmap. }
  split; [done |].
  intros Hval r c x. rewrite Hcell.
  destruct (rows !! r ≫= (.!! c)) as [x0 |]; simpl; [| done].
  intros [= <-]. by destruct (py_eq x0 (NODATA_value self)) eqn:Hx.
Qed.

Lemma as_matrix_replaces_nodata_witness :
  exists rows,
    as_matrix raster_fixture None = inr rows /\
    (forall r c,
       [[1; 2; 3]; [4.5; 0; 1000]]%float !! r ≫= (.!! c) =
       (fun x => if py_eq x (NODATA_value raster_fixture) then 0%float else x)
         <$> (rows !! r ≫= (.!! c))) /\
    (py_eq 0 (NODATA_value raster_fixture) = false ->
     forall r c x, [[1; 2; 3]; [4.5; 0; 1000]]%float !! r ≫= (.!! c) = Some x ->
       py_eq x (NODATA_value raster_fixture) = false).
Proof.
  apply (as_matrix_replaces_nodata raster_fixture 0%float). reflexivity.
Defined.

Lemma fillna_fillna (value : float) (l : list float) :
  is_nan value = false -> fillna value (fillna value l) = fillna value l.
Proof.
  intros Hv. unfold fillna. rewrite map_map. apply map_ext. intros x.
  destruct (is_nan x) eqn:Hx; [by rewrite Hv | by rewrite Hx].
Qed.

Lemma fillna_clean (value : float) (l : list float) :
  is_nan value = false ->
  forallb (fun x => negb (is_nan x)) (fillna value l) = true.
Proof.
  intros Hv. induction l as [| x l IH]; simpl; [done |].
  rewrite IH, andb_true_r.
  destruct (is_nan x) eqn:Hx; [by rewrite Hv | by rewrite Hx].
Qed.

(** X13.  [write] changes the object: NaN cells of [self.data] become
    [NODATA_value], all else is kept.  When the sentinel is not NaN the
    object then holds no NaN, and writing it again gives the same text
    and leaves it as it is. *)
Theorem write_replaces_nan (self self' : ESRIAsc) (out : string) :
  ESRIAsc_write self = inr (self', out) ->
  header_dict self' = header_dict self /\
  file_path self' = file_path self /\
  length (data self') = length (data self) /\
  (forall i x, data self !! i = Some x ->
     data self' !! i = Some (if is_nan x then NODATA_value self else x)) /\
  (is_nan (NODATA_value self) = false ->
     no_nan self' = true /\ ESRIAsc_write self' = inr (self', out)).
Proof.
  unfold ESRIAsc_write.
  destruct (as_matrix (set_data self (fillna (NODATA_value self) (data self)))
              None) as [e | rows] eqn:Hm; simpl; [done |].
  intros [= <- <-]. simpl.
  split; [done |]. split; [done |].
  split; [apply length_map |].
  split.
  - intros i x Hx. unfold fillna. by rewrite list_lookup_fmap, Hx.
  - intros Hnd. split; [by apply fillna_clean |].
    rewrite fillna_fillna by done.
    change (set_data (set_data self (fillna (NODATA_value self) (data self)))
              (fillna (NODATA_value self) (data self)))
      with (set_data self (fillna (NODATA_value self) (data self))).
    by rewrite Hm.
Qed.

Lemma write_replaces_nan_witness :
  exists self' out,
    ESRIAsc_write (row_raster [1; nan]%float) = inr (self', out) /\
    data self' = [1; -9999]%float /\
    no_nan self' = true /\ ESRIAsc_write self' = inr (self', out).
Proof.
  destruct (ESRIAsc_write (row_raster [1; nan]%float)) as [e | [self' out]] eqn:Hw;
    [discriminate Hw |].
  exists self', out. split; [reflexivity |].
  destruct (write_replaces_nan _ _ _ Hw) as (_ & _ & _ & _ & Hclean).
  split; [by vm_compute in Hw; injection Hw as <- _ |].
  apply Hclean. reflexivity.
Defined.

(* ================================================================== *)
(** * Further properties of the regridder                               *)
(* ================================================================== *)

Lemma comprehension_spec {A} (f : Z -> res A) (n : nat) :
  forall (start : Z) (l : list A),
    comprehension f start n = inr l ->
    length l = n /\
    forall j, (j < n)%nat ->
      exists x, f (start + Z.of_nat j) = inr x /\ l !! j = Some x.
Proof.
  induction n as [| n IH]; intros start l; simpl.
  - intros [= <-]. split; [done |]. intros j Hj. lia.
  - unfold res_bind.
    destruct (f start) as [e | x] eqn:Hx; [done |].
    destruct (comprehension f (start + 1) n) as [e | rest] eqn:Hrest; [done |].
    intros [= <-]. destruct (IH _ _ Hrest) as [Hlen Hcells].
    split; [simpl; by rewrite Hlen |].
    intros [| j] Hj.
    + exists x. by rewrite Z.add_0_r.
    + destruct (Hcells j) as (y & Hy & Hl); [lia |].
      exists y. split; [| done].
      rewrite <- Hy. f_equal. lia.
Qed.

(** Flattening rows of one width: cell [c] of row [r] is element
    [r*width + c]. *)
Lemma concat_lookup_uniform {A} (width : nat) (rows : list (list A)) :
  Forall (fun row => length row = width) rows ->
  forall r c, (c < width)%nat ->
    concat rows !! (r * width + c)%nat = rows !! r ≫= (.!! c).
Proof.
  induction 1 as [| row rows Hrow _ IH]; intros r c Hc; simpl.
  - by rewrite !lookup_nil.
  - destruct r as [| r]; simpl.
    + apply lookup_app_l. lia.
    + rewrite lookup_app_r by lia.
      rewrite <- IH by done. f_equal. lia.
Qed.

Lemma concat_length_uniform {A} (width : nat) (rows : list (list A)) :
  Forall (fun row => length row = width) rows ->
  length (concat rows) = (length rows * width)%nat.
Proof.
  induction 1 as [| row rows Hrow _ IH]; simpl; [done |].
  rewrite length_app. lia.
Qed.

Section Regridder.
Variable Dataset : string -> res Mesh.
Variable griddata :
  list float -> list float -> list float -> res (float -> float -> float).
Variables (shear_nc_path : string) (hd : Header).

(** What a successful call has computed. *)
Lemma shear_mesh_to_asc_inr (g : ESRIAsc) :
  shear_mesh_to_asc Dataset griddata shear_nc_path hd = inr g ->
  exists ds mesh_shear x y interp nodata_int nodata,
    Dataset shear_nc_path = inr ds /\
    last (taus ds) = Some mesh_shear /\
    comprehension
      (fun i => c <~ float_of_Z (i * h_cellsize hd) ;;
                inr (h_xllcorner hd + c)%float)
      0 (Z.to_nat (h_ncols hd)) = inr x /\
    comprehension
      (fun i => c <~ float_of_Z (i * h_cellsize hd) ;;
                inr (h_yllcorner hd + c)%float)
      0 (Z.to_nat (h_nrows hd)) = inr y /\
    griddata (FlowElem_xcc ds) (FlowElem_ycc ds) mesh_shear = inr interp /\
    py_int (h_NODATA_value hd) = inr nodata_int /\
    float_of_Z nodata_int = inr nodata /\
    g = ESRIAsc_of_header hd
          (map (fun v => if is_nan v then nodata else v)
               (concat (reverse
                  (map (fun yk => map (fun xj => interp xj yk) x) y)))).
Proof.
  unfold shear_mesh_to_asc, res_bind.
  destruct (Dataset shear_nc_path) as [e | ds]; [done |].
  destruct (last (taus ds)) as [mesh_shear |] eqn:Hlast; [| done].
  destruct (comprehension _ 0 (Z.to_nat (h_ncols hd))) as [e | x] eqn:Hx;
    [done |].
  destruct (comprehension _ 0 (Z.to_nat (h_nrows hd))) as [e | y] eqn:Hy;
    [done |].
  destruct (griddata _ _ _) as [e | interp] eqn:Hgrid; [done |].
  destruct (_ || _)%bool; [| done].
  destruct (py_int (h_NODATA_value hd)) as [e | nodata_int]; [done |].
  destruct (float_of_Z nodata_int) as [e | nodata] eqn:Hnd; [done |].
  intros [= <-].
  by exists ds, mesh_shear, x, y, interp, nodata_int, nodata.
Qed.
End Regridder.

(** The header and the size of what the regridder returns. *)
Lemma shear_mesh_to_asc_header_length
    (Dataset : string -> res Mesh)
    (griddata : list float -> list float -> list float ->
                res (float -> float -> float))
    (shear_nc_path : string) (hd : Header) (g : ESRIAsc) :
  shear_mesh_to_asc Dataset griddata shear_nc_path hd = inr g ->
  header_dict g = hd /\
  file_path g = None /\
  length (data g) = (Z.to_nat (h_nrows hd) * Z.to_nat (h_ncols hd))%nat.
Proof.
  intros Hrun.
  apply shear_mesh_to_asc_inr in Hrun
    as (ds & shear & x & y & interp & ndi & nd & _ & _ & Hx & Hy & _ & _ & _ & ->).
  apply comprehension_spec in Hx as [Hxl _].
  apply comprehension_spec in Hy as [Hyl _].
  split; [by destruct hd |]. split; [done |]. simpl.
  rewrite length_map.
  rewrite (concat_length_uniform (Z.to_nat (h_ncols hd))).
  - by rewrite length_reverse, length_map, Hyl.
  - apply Forall_reverse, Forall_fmap, Forall_forall. intros yk _. simpl.
    by rewrite length_map.
Qed.

(** X14.  The raster that the regridder returns carries the header it
    was given, has no file path, and holds [ncols*nrows] values. *)
Theorem shear_mesh_to_asc_shape
    (Dataset : string -> res Mesh)
    (griddata : list float -> list float -> list float ->
                res (float -> float -> float))
    (shear_nc_path : string) (hd : Header) (g : ESRIAsc) :
  shear_mesh_to_asc Dataset griddata shear_nc_path hd = inr g ->
  header_dict g = hd /\
  file_path g = None /\
  length (data g) = (Z.to_nat (h_nrows hd) * Z.to_nat (h_ncols hd))%nat.
Proof. apply shear_mesh_to_asc_header_length. Qed.

Lemma shear_mesh_to_asc_shape_witness :
  header_dict (ESRIAsc_of_header (mkHeader 1 1 0 0 1 (-9999.5)) [(-9999)%float])
    = mkHeader 1 1 0 0 1 (-9999.5) /\
  file_path (ESRIAsc_of_header (mkHeader 1 1 0 0 1 (-9999.5)) [(-9999)%float])
    = None /\
  length (data (ESRIAsc_of_header (mkHeader 1 1 0 0 1 (-9999.5))
                  [(-9999)%float]))
    = (Z.to_nat 1 * Z.to_nat 1)%nat.
Proof.
  apply (shear_mesh_to_asc_shape (fun _ => inr mesh_fixture)
           (fun _ _ _ => inr (fun _ _ => nan)) "map.nc"
           (mkHeader 1 1 0 0 1 (-9999.5))).
  reflexivity.
Defined.

(** X15.  The vertical flip.  The value interpolated at the target point
    of column [j] and row [k], the point
    [(xllcorner + j*cellsize, yllcorner + k*cellsize)], is stored at
    index [(nrows-1-k)*ncols + j] of the data, an undefined value being
    replaced by the sentinel cut to an int. *)
Theorem shear_mesh_to_asc_cell
    (Dataset : string -> res Mesh)
    (griddata : list float -> list float -> list float ->
                res (float -> float -> float))
    (shear_nc_path : string) (hd : Header) (g : ESRIAsc)
    (ds : Mesh) (mesh_shear : list float) (interp : float -> float -> float)
    (j k : nat) :
  Dataset shear_nc_path = inr ds ->
  last (taus ds) = Some mesh_shear ->
  griddata (FlowElem_xcc ds) (FlowElem_ycc ds) mesh_shear = inr interp ->
  shear_mesh_to_asc Dataset griddata shear_nc_path hd = inr g ->
  (j < Z.to_nat (h_ncols hd))%nat ->
  (k < Z.to_nat (h_nrows hd))%nat ->
  exists cx cy nodata_int nodata,
    float_of_Z (Z.of_nat j * h_cellsize hd) = inr cx /\
    float_of_Z (Z.of_nat k * h_cellsize hd) = inr cy /\
    py_int (h_NODATA_value hd) = inr nodata_int /\
    float_of_Z nodata_int = inr nodata /\
    data g !! ((Z.to_nat (h_nrows hd) - 1 - k) * Z.to_nat (h_ncols hd) + j)%nat
    = Some (let v := interp (h_xllcorner hd + cx)%float
                            (h_yllcorner hd + cy)%float in
            if is_nan v then nodata else v).
Proof.
  intros HD Hlast Hgrid Hrun Hj Hk.
  apply shear_mesh_to_asc_inr in Hrun
    as (ds' & shear' & x & y & interp' & ndi & nd
        & HD' & Hlast' & Hx & Hy & Hgrid' & Hint & Hnd & ->).
  rewrite HD in HD'. injection HD' as <-.
  rewrite Hlast in Hlast'. injection Hlast' as <-.
  rewrite Hgrid in Hgrid'. injection Hgrid' as <-.
  apply comprehension_spec in Hx as [Hxl Hxs].
  apply comprehension_spec in Hy as [Hyl Hys].
  destruct (Hxs j Hj) as (xj & Hfx & Hxj).
  destruct (Hys k Hk) as (yk & Hfy & Hyk).
  unfold res_bind in Hfx, Hfy. rewrite Z.add_0_l in Hfx, Hfy.
  destruct (float_of_Z (Z.of_nat j * h_cellsize hd)) as [e | cx]; [done |].
  destruct (float_of_Z (Z.of_nat k * h_cellsize hd)) as [e | cy]; [done |].
  injection Hfx as <-. injection Hfy as <-.
  exists cx, cy, ndi, nd. repeat (split; [done |]). simpl.
  rewrite list_lookup_fmap.
  rewrite (concat_lookup_uniform (Z.to_nat (h_ncols hd))); [| | done].
  2: { apply Forall_reverse, Forall_fmap, Forall_forall. intros y0 _. simpl.
       by rewrite length_map. }
  rewrite reverse_lookup by (rewrite length_map; lia).
  rewrite length_map, Hyl.
  replace (Z.to_nat (h_nrows hd) - S (Z.to_nat (h_nrows hd) - 1 - k))%nat
    with k by lia.
  rewrite list_lookup_fmap, Hyk. simpl.
  by rewrite list_lookup_fmap, Hxj.
Qed.

(** A mesh behind any path, with an interpolant that is defined only on
    the line [y = 0]: there it gives [x]. *)
Lemma shear_mesh_to_asc_cell_witness :
  exists cx cy nodata_int nodata,
    float_of_Z (Z.of_nat 1 * 10) = inr cx /\
    float_of_Z (Z.of_nat 0 * 10) = inr cy /\
    py_int (-9999) = inr nodata_int /\
    float_of_Z nodata_int = inr nodata /\
    [-9999; -9999; 0; 10]%float !! ((Z.to_nat 2 - 1 - 0) * Z.to_nat 2 + 1)%nat
    = Some (let v := (fun x y : float => if py_eq y 0 then x else nan)
                       (0 + cx)%float (0 + cy)%float in
            if is_nan v then nodata else v).
Proof.
  apply (shear_mesh_to_asc_cell (fun _ => inr mesh_fixture)
           (fun _ _ _ => inr (fun x y => if py_eq y 0 then x else nan))
           "map.nc" (mkHeader 2 2 0 0 10 (-9999))
           (ESRIAsc_of_header (mkHeader 2 2 0 0 10 (-9999))
              [-9999; -9999; 0; 10]%float)
           mesh_fixture [1; 2; 3]%float
           (fun x y => if py_eq y 0 then x else nan) 1%nat 0%nat);
    try reflexivity; simpl; lia.
Defined.

(** X16.  A sentinel that is NaN or infinite makes the regridder raise,
    whether or not any target value is undefined: [int(NODATA_value)] is
    evaluated in every call. *)
Theorem shear_mesh_to_asc_bad_sentinel
    (Dataset : string -> res Mesh)
    (griddata : list float -> list float -> list float ->
                res (float -> float -> float))
    (shear_nc_path : string) (hd : Header) (e : exn) :
  py_int (h_NODATA_value hd) = inl e ->
  exists e', shear_mesh_to_asc Dataset griddata shear_nc_path hd = inl e'.
Proof.
  intros Hint.
  destruct (shear_mesh_to_asc Dataset griddata shear_nc_path hd)
    as [e' | g] eqn:Hrun; [by exists e' |].
  apply shear_mesh_to_asc_inr in Hrun
    as (ds & shear & x & y & interp & ndi & nd & _ & _ & _ & _ & _ & Hint' & _).
  by rewrite Hint in Hint'.
Qed.

Lemma shear_mesh_to_asc_bad_sentinel_witness :
  exists e', shear_mesh_to_asc (fun _ => inr mesh_fixture)
               (fun _ _ _ => inr (fun x y => x)) "map.nc"
               (mkHeader 2 2 0 0 10 nan) = inl e'.
Proof.
  apply (shear_mesh_to_asc_bad_sentinel _ _ _ _ ValueError). reflexivity.
Defined.

(** ** The filled data hold no NaN *)

Lemma is_nan_Prim2SF (f : float) :
  Prim2SF f <> S754_nan -> is_nan f = false.
Proof.
  intros Hf. unfold is_nan. rewrite FloatAxioms.eqb_spec. unfold SFeqb.
  destruct (Prim2SF f) as [s | s | | s m e]; simpl; [done | | done |].
  - by destruct s.
  - destruct s; rewrite Z.compare_refl;
      change (Pos.compare_cont Eq m m) with (m ?= m)%positive;
      by rewrite Pos.compare_refl.
Qed.

Lemma shr_1_nonneg (mrs : shr_record) :
  0 <= shr_m mrs -> 0 <= shr_m (shr_1 mrs).
Proof.
  destruct mrs as [m r s]. simpl.
  destruct m as [| [p | p |] | p]; simpl; lia.
Qed.

Lemma iter_pos_shr_1_nonneg (n : positive) :
  forall mrs, 0 <= shr_m mrs -> 0 <= shr_m (SpecFloat.iter_pos shr_1 n mrs).
Proof.
  induction n as [n IH | n IH |]; intros mrs Hm; simpl.
  - apply IH, IH. by apply shr_1_nonneg.
  - by apply IH, IH.
  - by apply shr_1_nonneg.
Qed.

Lemma shr_fexp_nonneg (m e : Z) (l : location) :
  0 <= m -> 0 <= shr_m (fst (shr_fexp prec emax m e l)).
Proof.
  intros Hm. unfold shr_fexp, shr.
  assert (H0 : 0 <= shr_m (shr_record_of_loc m l)).
  { by destruct l as [| []]. }
  destruct (_ - e) as [| p | p]; simpl; [done | | done].
  by apply iter_pos_shr_1_nonneg.
Qed.

(** Rounding a non-negative significand never gives NaN. *)
Lemma binary_round_aux_not_nan (sx : bool) (mx ex : Z) (lx : location) :
  0 <= mx -> binary_round_aux prec emax sx mx ex lx <> S754_nan.
Proof.
  intros Hm. unfold binary_round_aux.
  pose proof (shr_fexp_nonneg mx ex lx Hm) as H1.
  destruct (shr_fexp prec emax mx ex lx) as [mrs' e']. simpl in H1.
  assert (H2 : 0 <= round_nearest_even (shr_m mrs') (loc_of_shr_record mrs')).
  { unfold round_nearest_even.
    destruct (loc_of_shr_record mrs') as [| []]; [done | | done | lia].
    destruct (Z.even (shr_m mrs')); lia. }
  pose proof (shr_fexp_nonneg _ e' loc_Exact H2) as H3.
  destruct (shr_fexp prec emax _ e' loc_Exact) as [mrs'' e'']. simpl in H3.
  destruct (shr_m mrs'') as [| m | m]; [done | | lia].
  by destruct (e'' <=? emax - prec).
Qed.

Lemma binary_round_not_nan (sx : bool) (mx : positive) (ex : Z) :
  binary_round prec emax sx mx ex <> S754_nan.
Proof.
  unfold binary_round. destruct (shl_align mx ex _) as [mz ez].
  by apply binary_round_aux_not_nan.
Qed.

Lemma float_of_ratio_not_nan (n d : Z) : is_nan (float_of_ratio n d) = false.
Proof.
  unfold float_of_ratio. destruct (n =? 0); [reflexivity |].
  apply is_nan_Prim2SF. rewrite Z_ldexp_spec, of_uint63_spec.
  unfold binary_normalize, SFldexp.
  destruct (Uint63.to_Z _) as [| m | m]; [done | |].
  - pose proof (binary_round_not_nan false m 0) as H.
    destruct (binary_round prec emax false m 0) as [s | s | | s m' e'];
      [done | done | done |].
    apply binary_round_not_nan.
  - pose proof (binary_round_not_nan true m 0) as H.
    destruct (binary_round prec emax true m 0) as [s | s | | s m' e'];
      [done | done | done |].
    apply binary_round_not_nan.
Qed.

Lemma float_of_Z_not_nan (z : Z) (f : float) :
  float_of_Z z = inr f -> is_nan f = false.
Proof.
  unfold float_of_Z.
  destruct (is_infinity (float_of_ratio (Z.abs z) 1)); [done |].
  pose proof (float_of_ratio_not_nan (Z.abs z) 1) as Hf.
  destruct (z <? 0); intros [= <-]; [| done].
  apply is_nan_Prim2SF. rewrite opp_spec.
  intros Hopp. unfold is_nan in Hf.
  rewrite FloatAxioms.eqb_spec in Hf.
  by destruct (Prim2SF (float_of_ratio (Z.abs z) 1)).
Qed.

(** X17.  The data of the raster that the regridder returns hold no
    NaN. *)
Theorem shear_mesh_to_asc_no_nan
    (Dataset : string -> res Mesh)
    (griddata : list float -> list float -> list float ->
                res (float -> float -> float))
    (shear_nc_path : string) (hd : Header) (g : ESRIAsc) :
  shear_mesh_to_asc Dataset griddata shear_nc_path hd = inr g ->
  no_nan g = true.
Proof.
  intros Hrun.
  apply shear_mesh_to_asc_inr in Hrun
    as (ds & shear & x & y & interp & ndi & nd
        & _ & _ & _ & _ & _ & _ & Hnd & ->).
  apply float_of_Z_not_nan in Hnd.
  unfold no_nan. simpl. apply forallb_forall. intros v Hv.
  apply in_map_iff in Hv as (v0 & <- & _).
  destruct (is_nan v0) eqn:Hv0; [by rewrite Hnd | by rewrite Hv0].
Qed.

Lemma shear_mesh_to_asc_no_nan_witness :
  no_nan (ESRIAsc_of_header (mkHeader 1 1 0 0 1 (-9999.5)) [(-9999)%float])
  = true.
Proof.
  apply (shear_mesh_to_asc_no_nan (fun _ => inr mesh_fixture)
           (fun _ _ _ => inr (fun _ _ => nan)) "map.nc"
           (mkHeader 1 1 0 0 1 (-9999.5))).
  reflexivity.
Defined.

(* ================================================================== *)
(** * Further properties of the entry points                            *)
(* ================================================================== *)

(** X18.  In [casimir_with_dflow_io] the shear raster is built on the
    header of the vegetation raster.  So when the vegetation raster
    holds [ncols*nrows] values (as one read from a file does) and the
    call returns, the loop has run over every cell of the vegetation
    raster, against a shear raster with the same sentinel. *)
Theorem casimir_with_dflow_io_covers_raster
    (fs : string -> option string) (read_excel : string -> res DataFrame)
    (Dataset : string -> res Mesh)
    (griddata : list float -> list float -> list float ->
                res (float -> float -> float))
    (V Zn : ESRIAsc) (shear_nc_path : string) (required : pyval)
    (V' : ESRIAsc) :
  casimir_with_dflow_io fs read_excel Dataset griddata
    (PESRIAsc V) (PESRIAsc Zn) shear_nc_path required = inr (Loaded V') ->
  0 <= ncols V -> 0 <= nrows V ->
  Z.of_nat (length (data V)) = ncols V * nrows V ->
  exists S R,
    shear_mesh_to_asc Dataset griddata shear_nc_path (header_dict V) = inr S /\
    load_shear_resistance read_excel required = inr R /\
    casimir_loop V Zn S R = Returned V' /\
    length (data S) = length (data V) /\
    NODATA_value S = NODATA_value V.
Proof.
  intros Hrun Hc Hr Hlen. unfold casimir_with_dflow_io, res_bind in Hrun.
  destruct (shear_mesh_to_asc Dataset griddata shear_nc_path (header_dict V))
    as [e | S] eqn:Hshear; [done |].
  unfold casimir, res_bind in Hrun. simpl in Hrun.
  destruct (load_shear_resistance read_excel required) as [e | R] eqn:HR;
    [done |].
  destruct (casimir_loop V Zn S R) as [V'' | e d] eqn:Hloop; [| done].
  injection Hrun as <-.
  apply shear_mesh_to_asc_header_length in Hshear as Hshape.
  destruct Hshape as (Hhd & _ & HlenS).
  exists S, R. split; [done |]. split; [done |]. split; [done |].
  split.
  - rewrite HlenS. simpl. lia.
  - change (NODATA_value S) with (h_NODATA_value (header_dict S)).
    by rewrite Hhd.
Qed.

(** A spreadsheet with the columns that [casimir] asks for. *)
Lemma casimir_with_dflow_io_covers_raster_witness :
  exists S R,
    shear_mesh_to_asc (fun _ => inr mesh_fixture)
      (fun _ _ _ => inr (fun x y => x)) "map.nc"
      (header_dict (row_raster [2; 0; 3]%float)) = inr S /\
    load_shear_resistance
      (fun _ => inr [("Code.1"%string, [2; 3]%float);
                     ("shear_resis"%string, [5; 2]%float)])
      (PStr "data.xlsx") = inr R /\
    casimir_loop (row_raster [2; 0; 3]%float) (row_raster [5; 5; 5]%float) S R
      = Returned (row_raster [3; 0; 4]%float) /\
    length (data S) = length (data (row_raster [2; 0; 3]%float)) /\
    NODATA_value S = NODATA_value (row_raster [2; 0; 3]%float).
Proof.
  apply (casimir_with_dflow_io_covers_raster (fun _ => None)
           (fun _ => inr [("Code.1"%string, [2; 3]%float);
                          ("shear_resis"%string, [5; 2]%float)])
           (fun _ => inr mesh_fixture) (fun _ _ _ => inr (fun x y => x))
           (row_raster [2; 0; 3]%float) (row_raster [5; 5; 5]%float)
           "map.nc" (PStr "data.xlsx"));
    [vm_compute; reflexivity | simpl; lia | simpl; lia | reflexivity].
Defined.

(* ================================================================== *)
(** * Equality of rasters                                               *)
(* ================================================================== *)

Lemma py_eq_sym (x y : float) : py_eq x y = py_eq y x.
Proof.
  unfold py_eq. rewrite !FloatAxioms.eqb_spec. unfold SFeqb.
  rewrite (SFcompare_swap (Prim2SF x) (Prim2SF y)).
  by destruct (SFcompare (Prim2SF x) (Prim2SF y)) as [[] |].
Qed.

Lemma py_eq_refl (x : float) : py_eq x x = negb (is_nan x).
Proof. unfold py_eq, is_nan. by rewrite negb_involutive. Qed.

Lemma zip_with_py_eq_sym (a b : list float) :
  zip_with py_eq a b = zip_with py_eq b a.
Proof.
  revert b. induction a as [| x a IH]; intros [| y b]; simpl; [done .. |].
  by rewrite py_eq_sym, IH.
Qed.

Lemma zip_with_py_eq_refl (a : list float) :
  forallb id (zip_with py_eq a a) = forallb (fun x => negb (is_nan x)) a.
Proof.
  induction a as [| x a IH]; simpl; [done |].
  by rewrite py_eq_refl, IH.
Qed.

(** X19.  [__eq__] is symmetric on rasters and does not look at the file
    path, and a raster is equal to itself exactly when neither its
    corner coordinates, nor its sentinel, nor any of its data is NaN. *)
Theorem ESRIAsc_eq_symmetric_not_reflexive (a b : ESRIAsc) :
  ESRIAsc_eq a (PESRIAsc b) = ESRIAsc_eq b (PESRIAsc a) /\
  (forall p q,
     ESRIAsc_eq (mkESRIAsc p (ncols a) (nrows a) (xllcorner a) (yllcorner a)
                   (cellsize a) (NODATA_value a) (data a))
                (PESRIAsc (mkESRIAsc q (ncols b) (nrows b) (xllcorner b)
                             (yllcorner b) (cellsize b) (NODATA_value b)
                             (data b)))
     = ESRIAsc_eq a (PESRIAsc b)) /\
  ESRIAsc_eq a (PESRIAsc a) =
    inr (Some (negb (is_nan (xllcorner a)) && negb (is_nan (yllcorner a))
               && negb (is_nan (NODATA_value a)) && no_nan a)).
Proof.
  split; [| split; [done |]].
  - unfold ESRIAsc_eq, series_eq, res_bind.
    rewrite (Nat.eqb_sym (length (data a)) (length (data b))).
    destruct (length (data b) =? length (data a))%nat; [| done].
    rewrite (zip_with_py_eq_sym (data a) (data b)).
    rewrite (Z.eqb_sym (ncols a)), (Z.eqb_sym (nrows a)),
      (Z.eqb_sym (cellsize a)).
    by rewrite (py_eq_sym (xllcorner a)), (py_eq_sym (yllcorner a)),
      (py_eq_sym (NODATA_value a)).
  - unfold ESRIAsc_eq, series_eq, res_bind, no_nan.
    rewrite Nat.eqb_refl, !Z.eqb_refl, !py_eq_refl, zip_with_py_eq_refl.
    do 2 f_equal.
    destruct (negb (is_nan (xllcorner a))), (negb (is_nan (yllcorner a))),
      (negb (is_nan (NODATA_value a))),
      (forallb (fun x => negb (is_nan x)) (data a)); reflexivity.
Qed.

(* ================================================================== *)
(** * The command line                                                  *)
(* ================================================================== *)

(** X20.  Whenever the script prints the usage text it exits with
    status 1.  With fewer than two arguments it prints the text once;
    with [-h] and a second argument it prints it twice, the bare
    [except:] catching the exit with status 0.  With two arguments, the
    first of which is not [-h], it prints nothing and calls no
    [sys.exit]: it ends after writing the file named by the second
    argument, or with an exception that nothing catches. *)
Theorem main_usage
    (fs : string -> option string) (read_excel : string -> res DataFrame)
    (Dataset : string -> res Mesh)
    (griddata : list float -> list float -> list float ->
                res (float -> float -> float))
    (argv : list string) :
  (fst (main fs read_excel Dataset griddata argv) <> [] ->
     snd (main fs read_excel Dataset griddata argv) = Exit 1) /\
  ((length argv < 3)%nat ->
     main fs read_excel Dataset griddata argv = ([help_msg], Exit 1)) /\
  (forall out, argv !! 1%nat = Some "-h"%string -> argv !! 2%nat = Some out ->
     main fs read_excel Dataset griddata argv
     = ([help_msg; help_msg], Exit 1)) /\
  (forall shear_nc out,
     argv !! 1%nat = Some shear_nc -> shear_nc <> "-h"%string ->
     argv !! 2%nat = Some out ->
     fst (main fs read_excel Dataset griddata argv) = [] /\
     ((exists text,
         snd (main fs read_excel Dataset griddata argv) = Finished out text) \/
      (exists e,
         snd (main fs read_excel Dataset griddata argv) = Uncaught e))).
Proof.
  unfold main. split; [| split; [| split]].
  - destruct (argv !! 1%nat) as [shear_nc |]; [| done].
    destruct (argv !! 2%nat) as [vegout_path |]; [| done].
    by destruct (String.eqb shear_nc "-h").
  - intros Hlen.
    rewrite (lookup_ge_None_2 argv 2) by lia.
    by destruct (argv !! 1%nat).
  - intros out H1 H2. by rewrite H1, H2.
  - intros shear_nc out H1 Hh H2. rewrite H1, H2.
    apply String.eqb_neq in Hh. rewrite Hh. simpl. split; [done |].
    destruct (_ <~ ESRIAsc_of_file fs "data/vegclass_2z.asc" ;; _)
      as [e | text]; [right | left]; by eexists.
Qed.

Lemma main_usage_witness :
  main (fun _ => None) (fun _ => inl IOError) (fun _ => inl IOError)
       (fun _ _ _ => inl ValueError) ["dflow_casimir.py"; "-h"]%string
  = ([help_msg], Exit 1) /\
  main (fun _ => None) (fun _ => inl IOError) (fun _ => inl IOError)
       (fun _ _ _ => inl ValueError) ["dflow_casimir.py"; "-h"; "out.asc"]%string
  = ([help_msg; help_msg], Exit 1) /\
  fst (main (fun _ => None) (fun _ => inl IOError) (fun _ => inl IOError)
         (fun _ _ _ => inl ValueError)
         ["dflow_casimir.py"; "map.nc"; "out.asc"]%string) = [] /\
  (exists text,
     main (fun _ => Some raster_text) (fun _ => inr table_fixture)
       (fun _ => inr mesh_fixture) (fun _ _ _ => inr (fun _ _ => 10%float))
       ["dflow_casimir.py"; "map.nc"; "out.asc"]%string
     = ([], Finished "out.asc" text)).
Proof.
  split; [| split; [| split]]; [| | | eexists; vm_compute; reflexivity].
  - apply (main_usage (fun _ => None) (fun _ => inl IOError)
             (fun _ => inl IOError) (fun _ _ _ => inl ValueError)
             ["dflow_casimir.py"; "-h"]%string).
    simpl. lia.
  - apply (proj1 (proj2 (proj2
             (main_usage (fun _ => None) (fun _ => inl IOError)
                (fun _ => inl IOError) (fun _ _ _ => inl ValueError)
                ["dflow_casimir.py"; "-h"; "out.asc"]%string))) "out.asc"%string);
      reflexivity.
  - apply (proj2 (proj2 (proj2
             (main_usage (fun _ => None) (fun _ => inl IOError)
                (fun _ => inl IOError) (fun _ _ _ => inl ValueError)
                ["dflow_casimir.py"; "map.nc"; "out.asc"]%string)))
             "map.nc"%string "out.asc"%string);
      [reflexivity | discriminate | reflexivity].
Defined.

(* ================================================================== *)
(** * The resistance table                                              *)
(* ================================================================== *)

(** The table maps a code to the threshold of the last row that has this
    code. *)
Lemma dict_of_zip_lookup (keys values : list float) (z : Z) :
  dict_of_zip keys values !! z =
    snd <$> last (filter (fun kv => int_key (fst kv) = Some z)
                         (zip keys values)).
Proof.
  unfold dict_of_zip.
  induction (zip keys values) as [| kv rows IH] using rev_ind; [done |].
  rewrite fold_left_app, filter_app. simpl.
  destruct (decide (int_key (fst kv) = Some z)) as [Hz | Hz].
  - rewrite Hz, lookup_insert_eq.
    rewrite filter_cons_True, filter_nil by done.
    by rewrite last_snoc.
  - rewrite filter_cons_False, filter_nil, app_nil_r by done.
    destruct (int_key (fst kv)) as [z' |] eqn:Hkey; [| done].
    rewrite lookup_insert_ne by congruence. done.
Qed.

(** X21.  The resistance table is built from the columns [Code.1] and
    [shear_resis] of the spreadsheet: without one of them the call fails
    its assertion; with both, the threshold of a code is that of the
    last row with this code, and a code that no row has is absent. *)
Theorem load_shear_resistance_table
    (read_excel : string -> res DataFrame) (path : string) (df : DataFrame) :
  read_excel path = inr df ->
  (df_column df "Code.1" = None \/ df_column df "shear_resis" = None ->
     load_shear_resistance read_excel (PStr path) = inl AssertionError) /\
  (forall codes resis,
     df_column df "Code.1" = Some codes ->
     df_column df "shear_resis" = Some resis ->
     exists R,
       load_shear_resistance read_excel (PStr path) = inr R /\
       forall z, R !! z =
         snd <$> last (filter (fun kv => int_key (fst kv) = Some z)
                              (zip codes resis))).
Proof.
  intros Hread. unfold load_shear_resistance, res_bind. rewrite Hread.
  split.
  - intros [-> | ->]; [done |].
    by destruct (df_column df "Code.1").
  - intros codes resis -> ->. eexists. split; [reflexivity |].
    intros z. apply dict_of_zip_lookup.
Qed.

Lemma load_shear_resistance_table_witness :
  load_shear_resistance
    (fun _ => inr [("Code"%string, [2; 3]%float);
                   ("shear_resis"%string, [5; 2]%float)])
    (PStr "data.xlsx") = inl AssertionError /\
  exists R,
    load_shear_resistance
      (fun _ => inr [("Code.1"%string, [2; 3; 2]%float);
                     ("shear_resis"%string, [5; 2; 7]%float)])
      (PStr "data.xlsx") = inr R /\
    forall z, R !! z =
      snd <$> last (filter (fun kv => int_key (fst kv) = Some z)
                           (zip [2; 3; 2]%float [5; 2; 7]%float)).
Proof.
  split.
  - apply (proj1 (load_shear_resistance_table
                    (fun _ => inr [("Code"%string, [2; 3]%float);
                                   ("shear_resis"%string, [5; 2]%float)])
                    "data.xlsx" _ eq_refl)).
    by left.
  - apply (proj2 (load_shear_resistance_table
                    (fun _ => inr [("Code.1"%string, [2; 3; 2]%float);
                                   ("shear_resis"%string, [5; 2; 7]%float)])
                    "data.xlsx" _ eq_refl));
      reflexivity.
Defined.
